(** * A rolling-mean signal job: shallow embedding of [run.py]

    The job reads a YAML configuration and a CSV file, attaches a rolling
    mean and a 0/1 signal column to the table, and writes a JSON report.

    Conventions of the embedding.
    - A Python [float] (and a cell of a [float64] column) is a binary64
      number or NaN: [float := option Q], with [None] for NaN and with the
      exact value of the number otherwise.  Every operation on floats rounds
      its exact result to the nearest binary64 number, ties to the even
      significand ([round_binary64]).  The infinities and the sign of zero
      are outside the embedding: a result beyond the largest binary64
      number is rounded like any other, and no cell is infinite.
    - Exceptions are values: a fallible computation returns [result A].
    - The file system is a finite map from paths to the text of regular
      files; directories and permissions are outside the embedding.
    - [yaml.safe_load], [pandas.read_csv], the texts of [json], the log
      formatter and the error texts of the interpreter are library code:
      they are the fields of an environment [Env], together with the
      readings of the clock; the job is a function of it.  Which values
      json can encode is defined here ([json_encodable]); [json.dump] on
      another value raises after it has written a part of the text.
    - What pandas and numpy compute ([rolling], comparison, [astype],
      [mean], [random.seed]) is defined here after their code: the rolling
      mean is the running sum of [roll_mean] in pandas 2
      (window/aggregations.pyx), with Kahan's compensation. *)

From Stdlib Require Import ZArith QArith Qround Qabs Qpower String DecimalString List Lia Lqa.
From stdpp Require Import base option list strings gmap.

#[local] Set Warnings "-register-all".
Open Scope Q_scope.

(** ** Floats *)

(** A float: NaN, or a binary64 number given by its exact value, in lowest
    terms wherever the job computes one. *)
Abbreviation float := (option Q) (only parsing).

Abbreviation nan := (@None Q) (only parsing).

(** [int(x)] on a rational: truncation towards zero. *)
Definition Qtrunc (x : Q) : Z := Z.quot (Qnum x) (Zpos (Qden x)).

(** Nearest integer, ties to the even neighbour. *)
Definition Qround_half_even (x : Q) : Z :=
  let f := Qfloor x in
  match Qcompare (x - inject_Z f) (1 # 2) with
  | Lt => f
  | Gt => (f + 1)%Z
  | Eq => if Z.even f then f else (f + 1)%Z
  end.

(** [2 ^ e], for any integer [e]. *)
Definition Qpow2 (e : Z) : Q :=
  match e with
  | Z0 => 1
  | Zpos p => inject_Z (2 ^ Zpos p)
  | Zneg p => 1 # (2 ^ p)
  end.

(** The binade of a rational other than 0: the [e] with
    [2 ^ e <= |q| < 2 ^ (e + 1)]. *)
Definition Qlog2 (q : Q) : Z :=
  let e := (Z.log2 (Z.abs (Qnum q)) - Z.log2 (Zpos (Qden q)))%Z in
  if Qle_bool (Qpow2 e) (Qabs q) then e else (e - 1)%Z.

(** The exponent of the last place of the binary64 numbers around [q]:
    53 bits of precision, and the spacing [2 ^ -1074] of the subnormal
    numbers at the least. *)
Definition ulp_exponent (q : Q) : Z := Z.max (Qlog2 q - 52) (-1074).

(** The nearest binary64 number, ties to the even significand. *)
Definition round_binary64 (x : Q) : Q :=
  let q := Qred x in
  match Qnum q with
  | Z0 => 0
  | _ =>
      let u := ulp_exponent q in
      Qred (inject_Z (Qround_half_even (q / Qpow2 u)) * Qpow2 u)
  end.

(** The four operations on binary64 numbers. *)
Definition fadd (a b : Q) : Q := round_binary64 (a + b).
Definition fsub (a b : Q) : Q := round_binary64 (a - b).
Definition fmul (a b : Q) : Q := round_binary64 (a * b).
Definition fdiv (a b : Q) : Q := round_binary64 (a / b).

(** [float(z)], and the cast of an [int64] cell to [float64]: integers
    beyond [2 ^ 53] are rounded. *)
Definition float_of_Z (z : Z) : float := Some (round_binary64 (inject_Z z)).

(** [a > b] on floats: any comparison with NaN is false. *)
Definition float_gt (a b : float) : bool :=
  match a, b with
  | Some x, Some y => negb (Qle_bool x y)
  | _, _ => false
  end.

(** [a == b] on floats: NaN is equal to nothing. *)
Definition float_eqb (a b : float) : bool :=
  match a, b with
  | Some x, Some y => Qeq_bool x y
  | _, _ => false
  end.

(** [round(x, ndigits)] for [ndigits = 4]: the exact value of [x] is
    rounded to the nearest multiple of 1/10000, an exact tie going to the
    even one, and the result is the binary64 number nearest to that
    decimal. *)
Definition round4 (x : float) : float :=
  match x with
  | Some q => Some (round_binary64 (inject_Z (Qround_half_even (q * 10000)) / 10000))
  | None => None
  end.

(** ** Python values and exceptions *)

(** The values [yaml.safe_load] builds: null, booleans, integers, floats,
    strings, sequences and mappings, and also dates and timestamps
    ([datetime.date], [datetime.datetime]), binary data ([bytes]) and sets.
    A [dict] keeps its items in insertion order; a tuple (of [!!omap] and
    [!!pairs]) behaves here as a list.  Anchors and aliases can make a
    sequence or mapping contain itself: [PCycle] stands for such an alias,
    to the container [depth] levels around it. *)
Inductive pyval : Type :=
| PNone
| PBool (b : bool)
| PInt (z : Z)
| PFloat (x : float)
| PStr (s : string)
| PList (l : list pyval)
| PDict (items : list (pyval * pyval))
| PDate (iso : string)
| PBytes (data : string)
| PSet (elems : list pyval)
| PCycle (depth : nat).

(** Errors that the interpreter, numpy, pandas or json raise with a message
    text of their own, which depends on their version ([TypeError],
    [KeyError], [OverflowError], and the [ValueError] of json for a circular
    reference). *)
Inductive fault : Type :=
| NotIterable (v : pyval)
| NotSubscriptable (v : pyval)
| BadIndex (container key : pyval)
| MissingKey (key : pyval)
| BadSeed (v : pyval)
| NotNumeric
| TooLarge (v : pyval)
| NotSerializable (v : pyval).

Inductive exception : Type :=
| FileNotFoundError (msg : string)
| ValueError (msg : string)
| DataError (msg : string)
| InterpreterError (f : fault)
| LibraryError (cls msg : string).

Inductive result (A : Type) : Type :=
| Ok (a : A)
| Raise (e : exception).
Arguments Ok {A} a.
Arguments Raise {A} e.

#[global] Instance result_ret : MRet result := λ A, Ok.
#[global] Instance result_bind : MBind result :=
  λ A B f m, match m with Ok a => f a | Raise e => Raise e end.

(** [isinstance(v, int)]: [bool] is a subclass of [int]. *)
Definition is_int (v : pyval) : bool :=
  match v with PInt _ | PBool _ => true | _ => false end.

(** [isinstance(v, str)] *)
Definition is_str (v : pyval) : bool :=
  match v with PStr _ => true | _ => false end.

(** The integer an [int] instance stands for ([True] is 1, [False] is 0). *)
Definition int_value (v : pyval) : option Z :=
  match v with
  | PInt z => Some z
  | PBool b => Some (if b then 1 else 0)%Z
  | _ => None
  end.

(** [v == key] for a string [key]: only an equal string is equal to it. *)
Definition eq_str (key : string) (v : pyval) : bool :=
  match v with PStr s => String.eqb key s | _ => false end.

(** Substring test, [key in s] on two strings. *)
Definition is_substring (key s : string) : bool :=
  match String.index 0 key s with Some _ => true | None => false end.

(** [key in v] for a string [key]: a key of a dict, a substring of a string,
    an element of a list or of a set; for other values the test raises a
    [TypeError]. *)
Definition py_contains (key : string) (v : pyval) : result bool :=
  match v with
  | PDict items => Ok (existsb (λ kv, eq_str key kv.1) items)
  | PStr s => Ok (is_substring key s)
  | PList l => Ok (existsb (eq_str key) l)
  | PSet elems => Ok (existsb (eq_str key) elems)
  | _ => Raise (InterpreterError (NotIterable v))
  end.

Fixpoint dict_get (key : string) (items : list (pyval * pyval)) : option pyval :=
  match items with
  | [] => None
  | (k, v) :: rest => if eq_str key k then Some v else dict_get key rest
  end.

(** [v[key]] for a string [key]. *)
Definition py_getitem (v : pyval) (key : string) : result pyval :=
  match v with
  | PDict items =>
      match dict_get key items with
      | Some x => Ok x
      | None => Raise (InterpreterError (MissingKey (PStr key)))
      end
  | PStr _ | PList _ | PBytes _ => Raise (InterpreterError (BadIndex v (PStr key)))
  | _ => Raise (InterpreterError (NotSubscriptable v))
  end.

(** A key that json accepts in an object: a [str], [int], [float], [bool]
    or [None]. *)
Definition json_key (k : pyval) : bool :=
  match k with
  | PStr _ | PInt _ | PFloat _ | PBool _ | PNone => true
  | _ => false
  end.

(** json can encode the value: null, booleans, numbers and strings, lists
    of such values, and dicts of them with keys that it accepts.  On any
    other object the encoder raises a [TypeError], on a container that
    contains itself a [ValueError]. *)
Fixpoint json_encodable (v : pyval) : bool :=
  match v with
  | PNone | PBool _ | PInt _ | PFloat _ | PStr _ => true
  | PList l => forallb json_encodable l
  | PDict items => forallb (λ kv, json_key kv.1 && json_encodable kv.2) items
  | PDate _ | PBytes _ | PSet _ | PCycle _ => false
  end.

(** ** pandas: series and frames *)

(** A column as [read_csv] infers it: [int64], with cells in the range of
    the type, [float64] (a missing cell is NaN), [bool], or [object], a
    column of text in which some cell is not the text of a number. *)
Inductive Series : Type :=
| SInt (cells : list Z)
| SFloat (cells : list float)
| SBool (cells : list bool)
| SObject (cells : list string).

Record DataFrame : Type := {
  df_rows : nat;                          (* len(df.index) *)
  df_columns : list (string * Series)
}.

(** [df.empty]: some axis has length 0. *)
Definition df_empty (df : DataFrame) : bool :=
  (df_rows df =? 0)%nat || (length (df_columns df) =? 0)%nat.

(** [name in df.columns] *)
Definition has_column (name : string) (df : DataFrame) : bool :=
  existsb (λ c, String.eqb name c.1) (df_columns df).

Fixpoint column_get (name : string) (cols : list (string * Series)) : option Series :=
  match cols with
  | [] => None
  | (n, s) :: rest => if String.eqb name n then Some s else column_get name rest
  end.

(** [df[name]] *)
Definition df_getitem (df : DataFrame) (name : string) : result Series :=
  match column_get name (df_columns df) with
  | Some s => Ok s
  | None => Raise (InterpreterError (MissingKey (PStr name)))
  end.

Fixpoint column_set (name : string) (s : Series) (cols : list (string * Series))
  : list (string * Series) :=
  match cols with
  | [] => [(name, s)]
  | (n, old) :: rest =>
      if String.eqb name n then (n, s) :: rest else (n, old) :: column_set name s rest
  end.

(** [df[name] = s]: an existing column is replaced in place, a new one is
    appended. *)
Definition df_setitem (df : DataFrame) (name : string) (s : Series) : DataFrame :=
  {| df_rows := df_rows df; df_columns := column_set name s (df_columns df) |}.

Definition Z_of_bool (b : bool) : Z := if b then 1%Z else 0%Z.

(** The cells of a numeric column as [float64]; an [object] column has none. *)
Definition ensure_float64 (s : Series) : option (list float) :=
  match s with
  | SInt cells => Some (float_of_Z <$> cells)
  | SFloat cells => Some cells
  | SBool cells => Some ((λ b, float_of_Z (Z_of_bool b)) <$> cells)
  | SObject _ => None
  end.

(** *** [Series.rolling(window=w).mean()] *)

(** The window that ends at row [i]: rows [max(0, i+1-w) .. i]. *)
Definition window_at (w i : nat) (xs : list float) : list float :=
  take (S i - (S i - w)) (drop (S i - w) xs).

(** The observations of a window: its cells that are not NaN. *)
Definition observations (win : list float) : list Q := omap id win.

Definition Qsum (l : list Q) : Q := foldr Qplus 0 l.

(** The cell of row [j]. *)
Definition cell (xs : list float) (j : nat) : float := default nan (xs !! j).

(** The running state of [roll_mean]. *)
Record mean_state : Type := {
  nobs : Z;
  sum_x : Q;
  neg_ct : Z;
  compensation_add : Q;
  compensation_remove : Q;
  num_consecutive_same_value : Z;
  prev_value : float
}.

(** [add_mean]: a cell enters the window; the sum is kept with Kahan's
    compensation.  A NaN changes nothing. *)
Definition add_mean (val : float) (st : mean_state) : mean_state :=
  match val with
  | None => st
  | Some v =>
      let y := fsub v (compensation_add st) in
      let t := fadd (sum_x st) y in
      {| nobs := nobs st + 1;
         sum_x := t;
         neg_ct := if negb (Qle_bool 0 v) then neg_ct st + 1 else neg_ct st;
         compensation_add := fsub (fsub t (sum_x st)) y;
         compensation_remove := compensation_remove st;
         num_consecutive_same_value :=
           if float_eqb val (prev_value st)
           then num_consecutive_same_value st + 1 else 1;
         prev_value := val |}
  end.

(** [remove_mean]: a cell leaves the window. *)
Definition remove_mean (val : float) (st : mean_state) : mean_state :=
  match val with
  | None => st
  | Some v =>
      let y := fsub (- v) (compensation_remove st) in
      let t := fadd (sum_x st) y in
      {| nobs := nobs st - 1;
         sum_x := t;
         neg_ct := if negb (Qle_bool 0 v) then neg_ct st - 1 else neg_ct st;
         compensation_add := compensation_add st;
         compensation_remove := fsub (fsub t (sum_x st)) y;
         num_consecutive_same_value := num_consecutive_same_value st;
         prev_value := prev_value st |}
  end.

(** [calc_mean]: the sum over the number of observations when there are
    [minp] of them at least; a window of one repeated value gives that
    value, and a sum whose sign no cell of the window has gives 0. *)
Definition calc_mean (minp : Z) (st : mean_state) : float :=
  if (minp <=? nobs st)%Z && (0 <? nobs st)%Z then
    let result := fdiv (sum_x st) (inject_Z (nobs st)) in
    if (nobs st <=? num_consecutive_same_value st)%Z then prev_value st
    else if (neg_ct st =? 0)%Z && negb (Qle_bool 0 result) then Some 0
    else if (neg_ct st =? nobs st)%Z && negb (Qle_bool result 0) then Some 0
    else Some result
  else nan.

(** The state in which the sum over a window starts anew. *)
Definition fresh_state (first : float) : mean_state :=
  {| nobs := 0; sum_x := 0; neg_ct := 0;
     compensation_add := 0; compensation_remove := 0;
     num_consecutive_same_value := 0; prev_value := first |}.

Definition add_cells (st : mean_state) (win : list float) : mean_state :=
  foldl (λ st val, add_mean val st) st win.

(** The state of [roll_mean] after row [i], for the bounds of a fixed
    window of [w] rows, [start[i] = max(0, i + 1 - w)] and [end[i] = i + 1]:
    the sum starts anew at row 0 and whenever [start[i] >= end[i - 1]];
    otherwise the cells from [start[i - 1]] up to [start[i]] leave and the
    cell of row [i] enters. *)
Fixpoint state_at (w : nat) (xs : list float) (i : nat) : mean_state :=
  let setup := add_cells (fresh_state (cell xs (S i - w))) (window_at w i xs) in
  match i with
  | O => setup
  | S j =>
      if (w <=? 1)%nat then setup
      else
        let st := state_at w xs j in
        let st := if (w <=? S j)%nat then remove_mean (cell xs (S j - w)) st else st in
        add_mean (cell xs (S j)) st
  end.

(** Fixed window of [w] rows on the cells of a [float64] column;
    [min_periods] defaults to the window size. *)
Definition rolling_mean (w : nat) (xs : list float) : list float :=
  imap (λ i _, calc_mean (Z.of_nat w) (state_at w xs i)) xs.

(** [s.rolling(window=window).mean()]: the window is validated when the
    rolling object is built, the column type when the mean is taken, and the
    window must fit a 64-bit integer when the bounds of the windows are
    computed. *)
Definition series_rolling_mean (window : pyval) (s : Series) : result Series :=
  match window with
  | PInt z =>
      if (z <? 0)%Z then Raise (ValueError "window must be an integer 0 or greater")
      else match ensure_float64 s with
           | Some xs =>
               if (2 ^ 63 <=? z)%Z then Raise (InterpreterError (TooLarge window))
               else Ok (SFloat (rolling_mean (Z.to_nat z) xs))
           | None => Raise (DataError "No numeric types to aggregate")
           end
  | _ => Raise (ValueError "window must be an integer 0 or greater")
  end.

(** *** Comparison, cast and mean *)

(** [a > b], element by element. *)
Definition gt_cells (xs ys : list float) : list bool := zip_with float_gt xs ys.

(** [(a > b).astype(int)] *)
Definition astype_int (bs : list bool) : list Z := Z_of_bool <$> bs.

(** [(a > b).astype(int)] on two columns. *)
Definition series_gt_int (a b : Series) : result Series :=
  match ensure_float64 a, ensure_float64 b with
  | Some xs, Some ys => Ok (SInt (astype_int (gt_cells xs ys)))
  | _, _ => Raise (InterpreterError NotNumeric)
  end.

Definition Zsum (l : list Z) : Z := foldr Z.add 0%Z l.

(** [s.mean()]: NaN cells are skipped; the mean of no cell is NaN.  The
    sum is taken as it is: numpy adds the cells as [float64], without
    rounding for the one column whose mean the job takes, a column of 0
    and 1. *)
Definition cells_mean (obs : list Q) : float :=
  match obs with
  | [] => nan
  | _ => Some (fdiv (Qsum obs) (inject_Z (Z.of_nat (length obs))))
  end.

Definition series_mean (s : Series) : result float :=
  match s with
  | SInt cells => Ok (cells_mean (inject_Z <$> cells))
  | SFloat cells => Ok (cells_mean (observations cells))
  | SBool cells => Ok (cells_mean ((λ b, inject_Z (Z_of_bool b)) <$> cells))
  | SObject _ => Raise (InterpreterError NotNumeric)
  end.

(** The signal column of a numeric close column with the cells [close], as
    lines 110 and 114 compute it. *)
Definition signal_cells (w : nat) (close : list float) : list Z :=
  astype_int (gt_cells close (rolling_mean w close)).

(** ** numpy *)

(** [np.random.seed(seed)]: the legacy seeding takes an integer between 0
    and 2**32 - 1. *)
Definition np_random_seed (seed : pyval) : result unit :=
  match int_value seed with
  | Some z =>
      if (z <? 0)%Z || (2 ^ 32 - 1 <? z)%Z
      then Raise (ValueError "Seed must be between 0 and 2**32 - 1")
      else Ok tt
  | None => Raise (InterpreterError (BadSeed seed))
  end.

(** ** The process and its world *)

(** The command line: the four required flags. *)
Record Args : Type := {
  input : string;
  config : string;
  output : string;
  log_file : string
}.

(** What a run can read and change: the files, the file handler of the root
    logger, and the lines printed so far. *)
Record World : Type := {
  files : gmap string string;
  log_handler : option string;
  stdout : list string
}.

(** The records the job logs, with the values their messages show. *)
Inductive log_event : Type :=
| JobStarted
| ConfigLoaded (seed window version : pyval)
| DataLoaded (rows : nat)
| RollingMeanCalculated (window : pyval)
| SignalsGenerated
| Metrics (signal_rate : float) (rows : nat)
| JobCompleted (latency_ms : Z)
| ErrorLogged (msg : string).

(** A computation of the job: it may change the world and may raise. *)
Definition Job (A : Type) : Type := World → World * result A.

#[global] Instance job_ret : MRet Job := λ A a w, (w, Ok a).
#[global] Instance job_bind : MBind Job :=
  λ A B f m w,
    match m w with
    | (w', Ok a) => f a w'
    | (w', Raise e) => (w', Raise e)
    end.

Definition job_of_result {A} (r : result A) : Job A := λ w, (w, r).

Definition read_files {A} (f : gmap string string → result A) : Job A :=
  λ w, (w, f (files w)).

(** [open(path, "w")] followed by one write: the file holds [text]. *)
Definition put_file (path text : string) (w : World) : World :=
  {| files := <[path := text]> (files w);
     log_handler := log_handler w;
     stdout := stdout w |}.

(** A write through a handle opened for appending. *)
Definition append_file (path text : string) (w : World) : World :=
  {| files := <[path := default "" (files w !! path) +:+ text]> (files w);
     log_handler := log_handler w;
     stdout := stdout w |}.

Definition put_line (line : string) (w : World) : World :=
  {| files := files w;
     log_handler := log_handler w;
     stdout := stdout w ++ [line] |}.

Definition print (line : string) : Job unit :=
  λ w, (put_line line w, Ok tt).

(** [logging.basicConfig(filename=log_file, ...)]: nothing is done when the
    root logger has a handler already; otherwise the file is opened for
    appending, which creates it, and becomes the handler. *)
Definition setup_logging (log_file : string) (w : World) : World :=
  match log_handler w with
  | Some _ => w
  | None =>
      {| files := <[log_file := default "" (files w !! log_file)]> (files w);
         log_handler := Some log_file;
         stdout := stdout w |}
  end.

Definition required_keys : list string := ["seed"; "window"; "version"].

(** The libraries and the clock of a run. *)
Record Env : Type := {
  (** [yaml.safe_load] on the text of a file *)
  safe_load : string → result pyval;
  (** [pd.read_csv] on the text of a file *)
  read_csv : string → result DataFrame;
  (** the line the log handler writes for a record: time stamp, level and
      message *)
  format_record : log_event → string;
  (** [str(e)] for the errors of type [fault] *)
  fault_text : fault → string;
  (** [json.dumps(v, indent=2)] for a value [v] that json can encode;
      [json.dump] writes the same text *)
  json_dumps : pyval → string;
  (** what [json.dump(v, f, indent=2)] has written to [f] when it raises:
      the encoder writes piece by piece, and fails when it comes to a part
      of [v] that it cannot encode *)
  json_fragment : pyval → string;
  (** the two readings of [time.time()], at lines 86 and 120: seconds
      since the epoch, far from the largest binary64 number *)
  time_start : Q;
  time_end : Q
}.

(** *** Sample environment

    A few configurations and tables, with loaders that know exactly these
    texts; they serve to run the job on concrete inputs. *)
Module Sample.

Definition nl : string := String (Ascii.ascii_of_nat 10) EmptyString.

Definition config_text : string :=
  "seed: 42" +:+ nl +:+ "window: 3" +:+ nl +:+ "version: v1" +:+ nl.

Definition config_doc : pyval :=
  PDict [(PStr "seed", PInt 42); (PStr "window", PInt 3); (PStr "version", PStr "v1")].

(** The version is the number 2, not a string. *)
Definition config_text_numeric_version : string :=
  "seed: 42" +:+ nl +:+ "window: 3" +:+ nl +:+ "version: 2" +:+ nl.

Definition config_doc_numeric_version : pyval :=
  PDict [(PStr "seed", PInt 42); (PStr "window", PInt 3); (PStr "version", PInt 2)].

(** No [window] and no [version]. *)
Definition config_text_seed_only : string := "seed: 42" +:+ nl.

Definition config_doc_seed_only : pyval := PDict [(PStr "seed", PInt 42)].

Definition yaml_load (text : string) : result pyval :=
  if String.eqb text config_text then Ok config_doc
  else if String.eqb text config_text_numeric_version then Ok config_doc_numeric_version
  else if String.eqb text config_text_seed_only then Ok config_doc_seed_only
  else if String.eqb text "" then Ok PNone
  else Raise (LibraryError "YAMLError" "could not parse the document").

Definition csv_text : string :=
  "close" +:+ nl +:+ "10" +:+ nl +:+ "20" +:+ nl +:+ "30" +:+ nl +:+ "40" +:+ nl
  +:+ "20" +:+ nl.

Definition csv_frame : DataFrame :=
  {| df_rows := 5; df_columns := [("close", SInt [10; 20; 30; 40; 20]%Z)] |}.

(** A close column that is text. *)
Definition csv_text_words : string :=
  "close" +:+ nl +:+ "high" +:+ nl +:+ "low" +:+ nl.

Definition csv_frame_words : DataFrame :=
  {| df_rows := 2; df_columns := [("close", SObject ["high"; "low"])] |}.

(** A header and no row. *)
Definition csv_text_header_only : string := "close" +:+ nl.

Definition csv_frame_header_only : DataFrame :=
  {| df_rows := 0; df_columns := [("close", SObject [])] |}.

(** No close column. *)
Definition csv_text_open : string := "open" +:+ nl +:+ "10" +:+ nl.

Definition csv_frame_open : DataFrame :=
  {| df_rows := 1; df_columns := [("open", SInt [10]%Z)] |}.

Definition csv_load (text : string) : result DataFrame :=
  if String.eqb text csv_text then Ok csv_frame
  else if String.eqb text csv_text_words then Ok csv_frame_words
  else if String.eqb text csv_text_header_only then Ok csv_frame_header_only
  else if String.eqb text csv_text_open then Ok csv_frame_open
  else Raise (LibraryError "ParserError" "could not parse the table").

Definition log_line (ev : log_event) : string :=
  match ev with
  | JobStarted => "INFO - Job started"
  | ConfigLoaded _ _ _ => "INFO - Config loaded"
  | DataLoaded _ => "INFO - Data loaded"
  | RollingMeanCalculated _ => "INFO - Rolling mean calculated"
  | SignalsGenerated => "INFO - Signals generated"
  | Metrics _ _ => "INFO - Metrics"
  | JobCompleted _ => "INFO - Job completed successfully"
  | ErrorLogged msg => "ERROR - " +:+ msg
  end +:+ nl.

Definition fault_line (f : fault) : string := "TypeError".

(** A stand-in serialiser: one line, a float as a fraction. *)
Fixpoint dumps (v : pyval) : string :=
  match v with
  | PNone => "null"
  | PBool b => if b then "true" else "false"
  | PInt z => NilZero.string_of_int (Z.to_int z)
  | PFloat None => "NaN"
  | PFloat (Some q) =>
      NilZero.string_of_int (Z.to_int (Qnum q)) +:+ "/"
      +:+ NilZero.string_of_uint (Pos.to_uint (Qden q))
  | PStr s => s
  | PList l => foldr (λ x acc, dumps x +:+ "," +:+ acc) "" l
  | PDict items =>
      foldr (λ kv acc, dumps kv.1 +:+ ":" +:+ dumps kv.2 +:+ ";" +:+ acc) "" items
  | PDate _ | PBytes _ | PSet _ | PCycle _ => ""
  end.

(** A stand-in for the text written before the encoder fails: the pieces up
    to the first value of a dict. *)
Definition fragment (v : pyval) : string :=
  match v with
  | PDict ((k, _) :: _) => "{" +:+ dumps k +:+ ":"
  | _ => ""
  end.

(** The run takes a second and a half. *)
Definition env : Env :=
  {| safe_load := yaml_load; read_csv := csv_load; format_record := log_line;
     fault_text := fault_line; json_dumps := dumps; json_fragment := fragment;
     time_start := 0; time_end := 3 # 2 |}.

Definition args : Args :=
  {| input := "data.csv"; config := "config.yaml";
     output := "metrics.json"; log_file := "run.log" |}.

Definition disk (config_text csv_text : string) : gmap string string :=
  <["config.yaml" := config_text]> (<["data.csv" := csv_text]> ∅).

End Sample.

(** *** More sample configurations *)
Module Cases.

(** The window is the boolean [true]. *)
Definition config_text_true_window : string :=
  "seed: 42" +:+ Sample.nl +:+ "window: true" +:+ Sample.nl +:+ "version: v1"
  +:+ Sample.nl.

Definition config_doc_true_window : pyval :=
  PDict [(PStr "seed", PInt 42); (PStr "window", PBool true); (PStr "version", PStr "v1")].

(** A negative seed. *)
Definition config_text_negative_seed : string :=
  "seed: -1" +:+ Sample.nl +:+ "window: 3" +:+ Sample.nl +:+ "version: v1"
  +:+ Sample.nl.

Definition config_doc_negative_seed : pyval :=
  PDict [(PStr "seed", PInt (-1)); (PStr "window", PInt 3); (PStr "version", PStr "v1")].

(** No seed. *)
Definition config_text_no_seed : string :=
  "window: 3" +:+ Sample.nl +:+ "version: v1" +:+ Sample.nl.

Definition config_doc_no_seed : pyval :=
  PDict [(PStr "window", PInt 3); (PStr "version", PStr "v1")].

(** The seed is text, and the window is 0. *)
Definition config_text_bad_seed_and_window : string :=
  "seed: abc" +:+ Sample.nl +:+ "window: 0" +:+ Sample.nl +:+ "version: v1"
  +:+ Sample.nl.

Definition config_doc_bad_seed_and_window : pyval :=
  PDict [(PStr "seed", PStr "abc"); (PStr "window", PInt 0); (PStr "version", PStr "v1")].

(** The window is 9, longer than the sample table. *)
Definition config_text_window_9 : string :=
  "seed: 42" +:+ Sample.nl +:+ "window: 9" +:+ Sample.nl +:+ "version: v1"
  +:+ Sample.nl.

Definition config_doc_window_9 : pyval :=
  PDict [(PStr "seed", PInt 42); (PStr "window", PInt 9); (PStr "version", PStr "v1")].

(** One line of plain text: the document is a string. *)
Definition config_text_plain : string := "seed window version".

(** The version is a date. *)
Definition config_text_date_version : string :=
  "seed: 42" +:+ Sample.nl +:+ "window: 3" +:+ Sample.nl +:+ "version: 2024-01-15"
  +:+ Sample.nl.

Definition config_doc_date_version : pyval :=
  PDict [(PStr "seed", PInt 42); (PStr "window", PInt 3);
         (PStr "version", PDate "2024-01-15")].

Definition yaml_load (text : string) : result pyval :=
  if String.eqb text config_text_plain then Ok (PStr config_text_plain)
  else if String.eqb text config_text_true_window then Ok config_doc_true_window
  else if String.eqb text config_text_negative_seed then Ok config_doc_negative_seed
  else if String.eqb text config_text_no_seed then Ok config_doc_no_seed
  else if String.eqb text config_text_bad_seed_and_window
       then Ok config_doc_bad_seed_and_window
  else if String.eqb text config_text_window_9 then Ok config_doc_window_9
  else if String.eqb text config_text_date_version then Ok config_doc_date_version
  else Sample.yaml_load text.

Definition env : Env :=
  {| safe_load := yaml_load; read_csv := Sample.csv_load;
     format_record := Sample.log_line; fault_text := Sample.fault_line;
     json_dumps := Sample.dumps; json_fragment := Sample.fragment;
     time_start := 0; time_end := 3 # 2 |}.

(** A disk with the sample table and no configuration. *)
Definition disk_without_config : gmap string string :=
  <["data.csv" := Sample.csv_text]> ∅.

End Cases.

(** ** The job *)

Section Pipeline.

Variable env : Env.

(** [str(e)] *)
Definition exception_str (e : exception) : string :=
  match e with
  | FileNotFoundError msg => msg
  | ValueError msg => msg
  | DataError msg => msg
  | InterpreterError f => fault_text env f
  | LibraryError _ msg => msg
  end.

(** One record through the root logger: its line is appended to the file
    of the handler. *)
Definition emit_record (ev : log_event) (w : World) : World :=
  match log_handler w with
  | Some path => append_file path (format_record env ev) w
  | None => w
  end.

Definition logging_emit (ev : log_event) : Job unit :=
  λ w, (emit_record ev w, Ok tt).

Definition logging_info (ev : log_event) : Job unit := logging_emit ev.

Definition logging_error (msg : string) : Job unit := logging_emit (ErrorLogged msg).

(** The loop of lines 41-43. *)
Fixpoint check_keys (keys : list string) (config : pyval) : result unit :=
  match keys with
  | [] => Ok tt
  | key :: rest =>
      present ← py_contains key config;
      if negb present
      then Raise (ValueError ("Missing config key: " +:+ key))
      else check_keys rest config
  end.

(** [load_config], lines 29-54. *)
Definition load_config (fs : gmap string string) (config_path : string)
  : result pyval :=
  match fs !! config_path with
  | None => Raise (FileNotFoundError "Config file not found")
  | Some text =>
      config ← safe_load env text;
      match config with
      | PNone => Raise (ValueError "Config file is empty")
      | _ =>
          _ ← check_keys required_keys config;
          seed ← py_getitem config "seed";
          if negb (is_int seed) then Raise (ValueError "Seed must be integer")
          else
            window ← py_getitem config "window";
            if negb (is_int window) || (default 0 (int_value window) <=? 0)%Z
            then Raise (ValueError "Window must be positive integer")
            else
              version ← py_getitem config "version";
              if negb (is_str version) then Raise (ValueError "Version must be string")
              else Ok config
      end
  end.

(** [load_data], lines 57-72. *)
Definition load_data (fs : gmap string string) (input_path : string)
  : result DataFrame :=
  match fs !! input_path with
  | None => Raise (FileNotFoundError "Input CSV file not found")
  | Some text =>
      match read_csv env text with
      | Raise _ => Raise (ValueError "Invalid CSV file format")
      | Ok df =>
          if df_empty df then Raise (ValueError "Input CSV file is empty")
          else if negb (has_column "close" df)
               then Raise (ValueError "Missing required column: close")
               else Ok df
      end
  end.

Definition error_output (version : pyval) (message : string) : pyval :=
  PDict [(PStr "version", version);
         (PStr "status", PStr "error");
         (PStr "error_message", PStr message)].

(** [with open(path, "w") as f: json.dump(v, f, indent=2)]: the file is
    emptied, then the encoder writes the text piece by piece.  When it
    comes to a value that it cannot encode it raises, and the file keeps
    the pieces written before. *)
Definition json_dump (path : string) (v : pyval) : Job unit :=
  λ w, if json_encodable v
       then (put_file path (json_dumps env v) w, Ok tt)
       else (put_file path (json_fragment env v) w,
             Raise (InterpreterError (NotSerializable v))).

(** [write_error], lines 75-82. *)
Definition write_error (output_path : string) (version : pyval) (message : string)
  : Job unit :=
  json_dump output_path (error_output version message).

Definition success_output (version : pyval) (rows_processed : nat)
    (signal_rate : float) (latency_ms : Z) (seed : pyval) : pyval :=
  PDict [(PStr "version", version);
         (PStr "rows_processed", PInt (Z.of_nat rows_processed));
         (PStr "metric", PStr "signal_rate");
         (PStr "value", PFloat (round4 signal_rate));
         (PStr "latency_ms", PInt latency_ms);
         (PStr "seed", seed);
         (PStr "status", PStr "success")].

(** Line 120: the difference of the two readings of the clock, times 1000,
    both in floating point, cut to an integer. *)
Definition elapsed_ms : Z := Qtrunc (fmul (fsub (time_end env) (time_start env)) 1000).

(** What the [try] block of [main] has in hand when it ends. *)
Record Locals : Type := {
  l_df : DataFrame;
  l_signal_rate : float;
  l_output : pyval
}.

(** The [try] block of [main], lines 93-140. *)
Definition main_try (args : Args) : Job Locals :=
  (* 1. Load Config *)
  cfg ← read_files (λ fs, load_config fs (config args));
  seed ← job_of_result (py_getitem cfg "seed");
  window ← job_of_result (py_getitem cfg "window");
  version ← job_of_result (py_getitem cfg "version");
  _ ← job_of_result (np_random_seed seed);
  _ ← logging_info (ConfigLoaded seed window version);
  (* 2. Load Data *)
  df ← read_files (λ fs, load_data fs (input args));
  let rows_processed := df_rows df in
  _ ← logging_info (DataLoaded rows_processed);
  (* 3. Rolling Mean *)
  close ← job_of_result (df_getitem df "close");
  rolling ← job_of_result (series_rolling_mean window close);
  let df := df_setitem df "rolling_mean" rolling in
  _ ← logging_info (RollingMeanCalculated window);
  (* 4. Signal Generation *)
  close ← job_of_result (df_getitem df "close");
  rolling ← job_of_result (df_getitem df "rolling_mean");
  signal ← job_of_result (series_gt_int close rolling);
  let df := df_setitem df "signal" signal in
  _ ← logging_info SignalsGenerated;
  (* 5. Metrics Calculation *)
  signal ← job_of_result (df_getitem df "signal");
  signal_rate ← job_of_result (series_mean signal);
  let latency_ms := elapsed_ms in
  _ ← logging_info (Metrics signal_rate rows_processed);
  let out := success_output version rows_processed signal_rate latency_ms seed in
  _ ← json_dump (output args) out;
  _ ← print (json_dumps env out);
  _ ← logging_info (JobCompleted latency_ms);
  mret {| l_df := df; l_signal_rate := signal_rate; l_output := out |}.

(** Lines 147-152: the version for an error report, read again from the
    configuration file; any failure leaves ["unknown"]. *)
Definition recover_version (fs : gmap string string) (config_path : string) : pyval :=
  match fs !! config_path with
  | None => PStr "unknown"
  | Some text =>
      match doc ← safe_load env text; py_getitem doc "version" with
      | Ok version => version
      | Raise _ => PStr "unknown"
      end
  end.

(** The [except] block of [main], lines 144-155.  It raises when
    [write_error] does, and then nothing is printed. *)
Definition main_except (args : Args) (e : exception) : Job unit :=
  _ ← logging_error (exception_str e);
  version ← read_files (λ fs, Ok (recover_version fs (config args)));
  _ ← write_error (output args) version (exception_str e);
  print ("Error: " +:+ exception_str e).

(** A process starts with the files it finds, no log handler and nothing
    printed. *)
Definition start_process (fs : gmap string string) : World :=
  {| files := fs; log_handler := None; stdout := [] |}.

(** Lines 86-90: the world in which the [try] block starts. *)
Definition enter (args : Args) (fs : gmap string string) : World :=
  emit_record JobStarted (setup_logging (log_file args) (start_process fs)).

(** [main], lines 85-157, run in a fresh process: the final world and the
    exit code.  The [except] block ends with [sys.exit(1)]; when it raises
    itself, the interpreter reports the exception on stderr and the exit
    code is 1 as well. *)
Definition main (args : Args) (fs : gmap string string) : World * Z :=
  match main_try args (enter args fs) with
  | (w, Ok _) => (w, 0%Z)
  | (w, Raise e) => ((main_except args e w).1, 1%Z)
  end.

(** The local variables of a run whose [try] block ends normally. *)
Definition main_locals (args : Args) (fs : gmap string string) : result Locals :=
  (main_try args (enter args fs)).2.

(** *** Readings of the specification *)

(** A column has a value (not NaN) at row [i]. *)
Definition defined_at (col : list float) (i : nat) : Prop :=
  ∃ m, col !! i = Some (Some m).

(** The signal rate as the specification words it: the mean of the signal
    over the rows from [w - 1] on, the warm-up rows left out. *)
Definition signal_rate_after_warmup (w : nat) (close : list float) : float :=
  cells_mean (inject_Z <$> drop (w - 1) (signal_cells w close)).





(** Once a cell has entered, [prev_value] is a number. *)
Definition has_prev (st : mean_state) : Prop :=
  (0 < nobs st)%Z → ∃ p, prev_value st = Some p.

(** The first required key, in the order seed, window, version, that a
    mapping lacks. *)
Definition first_missing_key (items : list (pyval * pyval)) : option string :=
  List.find (λ key, negb (existsb (λ kv, eq_str key kv.1) items)) required_keys.

(** A run gets past the configuration: the log goes to a file of its own,
    the configuration is valid with window [wz], and numpy accepts the
    seed. *)
Definition config_loads (args : Args) (fs : gmap string string)
    (seed : pyval) (wz : Z) (version : pyval) : Prop :=
  log_file args ≠ config args
  ∧ (∃ cfg, load_config fs (config args) = Ok cfg
            ∧ py_getitem cfg "seed" = Ok seed
            ∧ py_getitem cfg "window" = Ok (PInt wz)
            ∧ py_getitem cfg "version" = Ok version)
  ∧ np_random_seed seed = Ok tt.

(** A run gets past loading: moreover the table is read from a file
    other than the log and has a numeric close column with the cells
    [close], one per row. *)
Definition loads (args : Args) (fs : gmap string string)
    (seed : pyval) (wz : Z) (version : pyval) (df : DataFrame) (close : list float)
  : Prop :=
  config_loads args fs seed wz version
  ∧ log_file args ≠ input args
  ∧ load_data fs (input args) = Ok df
  ∧ (∃ column, df_getitem df "close" = Ok column ∧ ensure_float64 column = Some close)
  ∧ length close = df_rows df.

(** The world in which a successful [try] block ends. *)
Definition success_world (args : Args) (w : World)
    (seed : pyval) (wz : Z) (version : pyval) (rows : nat) (rate : float) : World :=
  let latency := elapsed_ms in
  let text := json_dumps env (success_output version rows rate latency seed) in
  emit_record (JobCompleted latency)
    (put_line text
       (put_file (output args) text
          (emit_record (Metrics rate rows)
             (emit_record SignalsGenerated
                (emit_record (RollingMeanCalculated (PInt wz))
                   (emit_record (DataLoaded rows)
                      (emit_record (ConfigLoaded seed (PInt wz) version) w))))))).

(** Two worlds agree on the paths in [P]: same log handler, same printed
    lines, and the same file, or no file, at each path in [P]. *)
Definition agree (P : string → Prop) (w1 w2 : World) : Prop :=
  log_handler w1 = log_handler w2
  ∧ stdout w1 = stdout w2
  ∧ ∀ p, P p → files w1 !! p = files w2 !! p.

(** Run from two worlds that agree on [P], the computation [m] ends the
    same way: with the same value, in worlds that agree on [Q], or with
    the same exception, in worlds that agree on [P]. *)
Definition job_rel {A} (P : string → Prop) (m : Job A) (Q : string → Prop) : Prop :=
  ∀ w1 w2, agree P w1 w2 →
    match m w1, m w2 with
    | (w1', Ok a1), (w2', Ok a2) => a1 = a2 ∧ agree Q w1' w2'
    | (w1', Raise e1), (w2', Raise e2) => e1 = e2 ∧ agree P w1' w2'
    | _, _ => False
    end.

(** The environment [e] with another clock: other time stamps in the log
    lines and other readings of the time. *)
Definition with_clock (e : Env) (stamp : log_event → string) (t_start t_end : Q) : Env :=
  {| safe_load := safe_load e; read_csv := read_csv e; format_record := stamp;
     fault_text := fault_text e; json_dumps := json_dumps e;
     json_fragment := json_fragment e;
     time_start := t_start; time_end := t_end |}.

(** A report without its latency_ms field. *)
Definition without_latency (report : pyval) : pyval :=
  match report with
  | PDict items => PDict (List.filter (λ kv, negb (eq_str "latency_ms" kv.1)) items)
  | _ => report
  end.

(** Two worlds whose log handler writes to [l] agree on the paths in [P]. *)
Definition agree_off_log (l : string) (P : string → Prop) (w1 w2 : World) : Prop :=
  log_handler w1 = Some l ∧ log_handler w2 = Some l
  ∧ ∀ p, P p → files w1 !! p = files w2 !! p.

(** Two worlds hold, at [path], reports that differ at most in latency_ms. *)
Definition same_report (dumps : pyval → string) (path : string) (w1 w2 : World) : Prop :=
  ∃ r1 r2,
    files w1 !! path = Some (dumps r1) ∧ files w2 !! path = Some (dumps r2)
    ∧ without_latency r1 = without_latency r2.

(** Run from two worlds that agree off the log, [m1] and [m2] end the same
    way: with values related by [R], in worlds related by [Post], or with
    the same exception, in worlds that still agree. *)
Definition job_rel2 {A} (l : string) (P : string → Prop) (m1 m2 : Job A)
    (R : A → A → Prop) (Post : World → World → Prop) : Prop :=
  ∀ w1 w2, agree_off_log l P w1 w2 →
    match m1 w1, m2 w2 with
    | (w1', Ok a1), (w2', Ok a2) => R a1 a2 ∧ Post w1' w2'
    | (w1', Raise e1), (w2', Raise e2) => e1 = e2 ∧ agree_off_log l P w1' w2'
    | _, _ => False
    end.

(** Run from a world in [I], the computation [m] ends with a value and a
    world in [Q], or with an exception and a world in [E]. *)
Definition job_hoare {A} (I : World → Prop) (m : Job A)
    (Q : A → World → Prop) (E : exception → World → Prop) : Prop :=
  ∀ w, I w →
    match m w with
    | (w', Ok a) => Q a w'
    | (w', Raise e) => E e w'
    end.

(** ** Rounding *)

Lemma Qpow2_pos (e : Z) : 0 < Qpow2 e.
Proof.
  destruct e as [|p|p]; simpl; [reflexivity | | reflexivity].
  change 0 with (inject_Z 0). rewrite <- Zlt_Qlt. lia.
Qed.

Lemma Qpow2_nonneg_exp (e : Z) : (0 ≤ e)%Z → Qpow2 e = inject_Z (2 ^ e).
Proof. destruct e as [|p|p]; [reflexivity | reflexivity | lia]. Qed.

Lemma Qpow2_neg_exp (e : Z) : (e ≤ 0)%Z → Qpow2 e * inject_Z (2 ^ (- e)) == 1.
Proof.
  destruct e as [|p|p]; [reflexivity | lia |]. intros _.
  change (- Z.neg p)%Z with (Z.pos p). unfold Qeq. simpl.
  rewrite Pos.mul_1_r, Pos2Z.inj_pow. lia.
Qed.

Lemma Qround_half_even_Z (x : Q) (z : Z) :
  x == inject_Z z → Qround_half_even x = z.
Proof.
  intros Hx. unfold Qround_half_even.
  assert (Qfloor x = z) as -> by (rewrite Hx; apply Qfloor_Z).
  assert (x - inject_Z z == 0) as Hzero by (rewrite Hx; ring).
  assert ((x - inject_Z z ?= 1 # 2) = Lt) as ->; [|done].
  rewrite <- Qlt_alt, Hzero. reflexivity.
Qed.

Lemma Qround_half_even_nonneg (x : Q) : 0 <= x → (0 ≤ Qround_half_even x)%Z.
Proof.
  intros Hx. unfold Qround_half_even.
  assert (0 ≤ Qfloor x)%Z as Hf.
  { change 0%Z with (Qfloor 0). by apply Qfloor_resp_le. }
  destruct (x - inject_Z (Qfloor x) ?= 1 # 2); [destruct (Z.even _)| |]; lia.
Qed.


Lemma round_binary64_comp (x y : Q) : x == y → round_binary64 x = round_binary64 y.
Proof. intros Hxy. unfold round_binary64. by rewrite (Qred_complete x y Hxy). Qed.

Lemma Qred_inject_Z (z : Z) : Qred (inject_Z z) = inject_Z z.
Proof.
  unfold Qred, inject_Z.
  pose proof (Z.ggcd_gcd z 1) as Hg. pose proof (Z.ggcd_correct_divisors z 1) as Hd.
  destruct (Z.ggcd z 1) as [g [a b]]. simpl in *.
  rewrite Z.gcd_1_r in Hg. subst g. destruct Hd as [-> Hb].
  assert (b = 1%Z) as -> by lia. f_equal. lia.
Qed.

Lemma Qlog2_inject_Z (z : Z) : z ≠ 0%Z → Qlog2 (inject_Z z) = Z.log2 (Z.abs z).
Proof.
  intros Hz. unfold Qlog2. simpl Qnum. simpl Qden.
  change (Z.log2 1) with 0%Z. rewrite Z.sub_0_r.
  assert (Qle_bool (Qpow2 (Z.log2 (Z.abs z))) (Qabs (inject_Z z)) = true) as ->; [|done].
  apply Qle_bool_iff. rewrite Qpow2_nonneg_exp by apply Z.log2_nonneg.
  change (Qabs (inject_Z z)) with (inject_Z (Z.abs z)).
  rewrite <- Zle_Qle. apply Z.log2_spec. lia.
Qed.

(** An integer of magnitude up to [2 ^ 53] is a binary64 number. *)
Lemma round_binary64_Z (x : Q) (z : Z) :
  x == inject_Z z → (Z.abs z ≤ 2 ^ 53)%Z → round_binary64 x = inject_Z z.
Proof.
  intros Hx Hz. rewrite (round_binary64_comp x (inject_Z z) Hx).
  unfold round_binary64. rewrite Qred_inject_Z.
  destruct (Z.eq_dec z 0%Z) as [->|Hnz]; [reflexivity|].
  set (u := ulp_exponent (inject_Z z)).
  transitivity (Qred (inject_Z (Qround_half_even (inject_Z z / Qpow2 u)) * Qpow2 u));
    [simpl Qnum; by destruct z|].
  transitivity (Qred (inject_Z z)); [|apply Qred_inject_Z]. apply Qred_complete.
  pose proof (Z.log2_nonneg (Z.abs z)) as Hlo.
  assert (Z.log2 (Z.abs z) ≤ 53)%Z as Hhi.
  { change 53%Z with (Z.log2 (2 ^ 53)). by apply Z.log2_le_mono. }
  assert (u = Z.log2 (Z.abs z) - 52)%Z as Hu.
  { unfold u, ulp_exponent. rewrite Qlog2_inject_Z by done. lia. }
  clearbody u.
  destruct (Z.le_gt_cases u 0%Z) as [Hu0|Hu0].
  - pose proof (Qpow2_neg_exp u Hu0) as Hinv. pose proof (Qpow2_pos u) as Hpos.
    assert (¬ Qpow2 u == 0) as Hne by lra.
    assert (/ Qpow2 u == inject_Z (2 ^ (- u))) as Hinv'.
    { transitivity ((Qpow2 u * inject_Z (2 ^ (- u))) * / Qpow2 u);
        [rewrite Hinv; ring | field; exact Hne]. }
    assert (inject_Z z / Qpow2 u == inject_Z (z * 2 ^ (- u))) as Hdiv.
    { unfold Qdiv. rewrite Hinv', inject_Z_mult. reflexivity. }
    rewrite (Qround_half_even_Z _ _ Hdiv), inject_Z_mult.
    rewrite <- Qmult_assoc, (Qmult_comm (inject_Z (2 ^ (- u)))), Hinv. ring.
  - assert (Z.log2 (Z.abs z) = 53)%Z as Hl by lia.
    assert (u = 1)%Z as -> by lia.
    assert (Z.abs z = 2 ^ 53)%Z as Habs.
    { apply Z.le_antisymm; [done|].
      pose proof (Z.log2_spec (Z.abs z)) as Hs. rewrite Hl in Hs.
      apply Hs. lia. }
    change (2 ^ 53)%Z with 9007199254740992%Z in Habs.
    assert (z = 9007199254740992 ∨ z = - 9007199254740992)%Z as [-> | ->] by lia;
      vm_compute; reflexivity.
Qed.

Lemma Qround_half_even_comp (x y : Q) :
  x == y → Qround_half_even x = Qround_half_even y.
Proof.
  intros Hxy. unfold Qround_half_even.
  rewrite (Qfloor_comp x y Hxy).
  assert ((x - inject_Z (Qfloor y) ?= 1 # 2) = (y - inject_Z (Qfloor y) ?= 1 # 2)) as ->;
    [|done].
  apply Qcompare_comp; [by rewrite Hxy | reflexivity].
Qed.

Lemma round_binary64_eq (x : Q) :
  round_binary64 x
  == inject_Z (Qround_half_even (x / Qpow2 (ulp_exponent (Qred x))))
     * Qpow2 (ulp_exponent (Qred x)).
Proof.
  unfold round_binary64.
  set (u := ulp_exponent (Qred x)).
  pose proof (Qpow2_pos u) as Hpos.
  assert (Qround_half_even (Qred x / Qpow2 u) = Qround_half_even (x / Qpow2 u)) as Hr.
  { apply Qround_half_even_comp. by rewrite Qred_correct. }
  destruct (Qnum (Qred x)) eqn:Hnum; [|by rewrite Qred_correct, Hr..].
  assert (x == 0) as Hx.
  { rewrite <- (Qred_correct x). unfold Qeq. rewrite Hnum. reflexivity. }
  assert (x / Qpow2 u == inject_Z 0) as Hdiv.
  { rewrite Hx. unfold Qdiv. change (inject_Z 0) with 0. ring. }
  rewrite (Qround_half_even_Z _ _ Hdiv). change (inject_Z 0) with 0. ring.
Qed.

Lemma round_binary64_nonneg (x : Q) : 0 <= x → 0 <= round_binary64 x.
Proof.
  intros Hx. rewrite round_binary64_eq.
  pose proof (Qpow2_pos (ulp_exponent (Qred x))) as Hpos.
  apply Qmult_le_0_compat; [|lra].
  change 0 with (inject_Z 0). rewrite <- Zle_Qle.
  apply Qround_half_even_nonneg. apply Qle_shift_div_l; [done | lra].
Qed.


Lemma Qpow2_Qpower (e : Z) : Qpow2 e == 2 ^ e.
Proof.
  destruct e as [|p|p]; [reflexivity | |].
  - apply (Zpower_Qpower 2). lia.
  - assert (inject_Z (2 ^ Z.pos p) == 2 ^ Z.pos p) as Hpos
      by (apply (Zpower_Qpower 2); lia).
    change (2 ^ Z.neg p) with (/ (2 ^ Z.pos p)). rewrite <- Hpos.
    rewrite <- Pos2Z.inj_pow. reflexivity.
Qed.

Lemma Qpow2_le (u v : Z) : (u ≤ v)%Z → Qpow2 u <= Qpow2 v.
Proof.
  intros Huv. rewrite !Qpow2_Qpower. by apply Qpower_le_compat_l.
Qed.

Lemma Qpow2_sub (a b : Z) : Qpow2 (a - b) == Qpow2 a / Qpow2 b.
Proof. rewrite !Qpow2_Qpower. by apply Qpower_minus. Qed.

(** [Qlog2 q] is not above the binade of [q]. *)
Lemma Qlog2_lower (q : Q) : Qnum q ≠ 0%Z → Qpow2 (Qlog2 q) <= Qabs q.
Proof.
  intros Hq. unfold Qlog2. destruct q as [n d]. simpl Qnum in *. simpl Qden.
  set (a := Z.log2 (Z.abs n)). set (b := Z.log2 (Z.pos d)).
  destruct (Qle_bool (Qpow2 (a - b)) (Qabs (n # d))) eqn:Hle;
    [by apply Qle_bool_iff|].
  pose proof (Z.log2_nonneg (Z.abs n)) as Ha. pose proof (Z.log2_nonneg (Z.pos d)) as Hb.
  fold a in Ha. fold b in Hb.
  destruct (Z.log2_spec (Z.abs n) ltac:(lia)) as [Hn _].
  destruct (Z.log2_spec (Z.pos d) ltac:(lia)) as [_ Hd].
  fold a in Hn. fold b in Hd.
  replace (a - b - 1)%Z with (a - (b + 1))%Z by lia.
  rewrite Qpow2_sub, !Qpow2_nonneg_exp by lia.
  change (Qabs (n # d)) with (Z.abs n # d). rewrite (Qmake_Qdiv (Z.abs n) d).
  replace (Z.succ b) with (b + 1)%Z in Hd by lia.
  assert (0 < 2 ^ (b + 1))%Z as Hpow by (apply Z.pow_pos_nonneg; lia).
  assert (0 < 2 ^ a)%Z as Hpowa by (apply Z.pow_pos_nonneg; lia).
  apply Qle_shift_div_l.
  - change 0 with (inject_Z 0). rewrite <- Zlt_Qlt. lia.
  - unfold Qdiv. rewrite <- Qmult_assoc, (Qmult_comm (/ _)), Qmult_assoc.
    apply Qle_shift_div_r.
    + change 0 with (inject_Z 0). rewrite <- Zlt_Qlt. lia.
    + rewrite <- !inject_Z_mult, <- Zle_Qle. nia.
Qed.

Lemma Qround_half_even_near (x : Q) :
  x - (1 # 2) <= inject_Z (Qround_half_even x) <= x + (1 # 2).
Proof.
  unfold Qround_half_even.
  pose proof (Qfloor_le x) as Hlo. pose proof (Qlt_floor x) as Hhi.
  rewrite inject_Z_plus in Hhi. change (inject_Z 1) with 1 in Hhi.
  destruct (Qcompare_spec (x - inject_Z (Qfloor x)) (1 # 2)) as [Heq|Hlt|Hgt].
  - destruct (Z.even (Qfloor x)).
    + lra.
    + rewrite inject_Z_plus. change (inject_Z 1) with 1. lra.
  - lra.
  - rewrite inject_Z_plus. change (inject_Z 1) with 1. lra.
Qed.

Lemma Qround_half_even_range (x : Q) (n : Z) :
  0 <= x <= inject_Z n → (0 ≤ Qround_half_even x ≤ n)%Z.
Proof.
  intros [Hlo Hhi]. pose proof (Qround_half_even_near x) as [Hnear1 Hnear2].
  split.
  - assert (inject_Z (-1) < inject_Z (Qround_half_even x)) as Hlt.
    { change (inject_Z (-1)) with (-1). lra. }
    rewrite <- Zlt_Qlt in Hlt. lia.
  - assert (inject_Z (Qround_half_even x) < inject_Z (n + 1)) as Hlt.
    { rewrite inject_Z_plus. change (inject_Z 1) with 1. lra. }
    rewrite <- Zlt_Qlt in Hlt. lia.
Qed.

(** Rounding a number of the unit interval: the result is in the unit
    interval, within [2 ^ -54] of the number. *)
Lemma round_binary64_unit (x : Q) :
  0 <= x <= 1 →
  0 <= round_binary64 x <= 1
  ∧ x - (1 # 18014398509481984) <= round_binary64 x <= x + (1 # 18014398509481984).
Proof.
  intros [H0 H1].
  destruct (Qlt_le_dec 0 x) as [Hpos|Hzero].
  2:{ rewrite (round_binary64_Z x 0);
        [|change (inject_Z 0) with 0; lra | simpl; lia].
      change (inject_Z 0) with 0. lra. }
  destruct (Qlt_le_dec x 1) as [Hlt|Hone].
  2:{ rewrite (round_binary64_Z x 1);
        [|change (inject_Z 1) with 1; lra | simpl; lia].
      change (inject_Z 1) with 1. lra. }
  assert (Qnum (Qred x) ≠ 0%Z) as Hnum.
  { intros Hn. assert (Qred x == 0) as Hz by (unfold Qeq; rewrite Hn; reflexivity).
    rewrite Qred_correct in Hz. lra. }
  pose proof (Qlog2_lower (Qred x) Hnum) as Hlog.
  assert (Qabs (Qred x) == x) as Habs
    by (rewrite (Qabs_wd _ _ (Qred_correct x)); apply Qabs_pos; lra).
  rewrite Habs in Hlog.
  assert (Qlog2 (Qred x) < 0)%Z as Hneg.
  { destruct (Z.lt_ge_cases (Qlog2 (Qred x)) 0) as [|Hge]; [done|].
    pose proof (Qpow2_le 0 _ Hge) as Hle. change (Qpow2 0) with 1 in Hle. lra. }
  rewrite round_binary64_eq.
  set (u := ulp_exponent (Qred x)).
  assert (u ≤ -53)%Z as Hu by (unfold u, ulp_exponent; lia).
  pose proof (Qpow2_pos u) as Hp.
  pose proof (Qpow2_le u (-53) Hu) as Hsmall.
  change (Qpow2 (-53)) with (1 # 9007199254740992) in Hsmall.
  pose proof (Qpow2_neg_exp u ltac:(lia)) as Hinv.
  pose proof (Qround_half_even_near (x / Qpow2 u)) as [Hn1 Hn2].
  assert (x / Qpow2 u * Qpow2 u == x) as Hback by (field; lra).
  assert (0 <= x / Qpow2 u <= inject_Z (2 ^ (- u))) as Hrange.
  { split; [apply Qle_shift_div_l; lra|].
    apply Qle_shift_div_r; [done|]. rewrite Qmult_comm, Hinv. lra. }
  apply Qround_half_even_range in Hrange as [Hr0 Hr1].
  rewrite Zle_Qle in Hr0, Hr1. change (inject_Z 0) with 0 in Hr0.
  set (r := inject_Z (Qround_half_even (x / Qpow2 u))) in *.
  set (y := x / Qpow2 u) in *. set (N := inject_Z (2 ^ (- u))) in *.
  set (P := Qpow2 u) in *.
  split; split; nra.
Qed.

(** The error of rounding: half a unit in the last place, which is at most
    [2 ^ -53] of the number, or [2 ^ -1075] for the smallest numbers. *)
Lemma round_binary64_error (x : Q) :
  0 <= x →
  x - (x * (1 # 9007199254740992) + Qpow2 (-1075)) <= round_binary64 x
  ∧ round_binary64 x <= x + (x * (1 # 9007199254740992) + Qpow2 (-1075)).
Proof.
  intros H0. pose proof (Qpow2_pos (-1075)) as Heta.
  destruct (Qlt_le_dec 0 x) as [Hpos|Hzero].
  2:{ rewrite (round_binary64_Z x 0);
        [|change (inject_Z 0) with 0; lra | simpl; lia].
      change (inject_Z 0) with 0. split; nra. }
  assert (Qnum (Qred x) ≠ 0%Z) as Hnum.
  { intros Hn. assert (Qred x == 0) as Hz by (unfold Qeq; rewrite Hn; reflexivity).
    rewrite Qred_correct in Hz. lra. }
  pose proof (Qlog2_lower (Qred x) Hnum) as Hlog.
  assert (Qabs (Qred x) == x) as Habs
    by (rewrite (Qabs_wd _ _ (Qred_correct x)); apply Qabs_pos; lra).
  rewrite Habs in Hlog.
  rewrite round_binary64_eq.
  set (u := ulp_exponent (Qred x)).
  pose proof (Qpow2_pos u) as Hp.
  pose proof (Qround_half_even_near (x / Qpow2 u)) as [Hn1 Hn2].
  assert (x / Qpow2 u * Qpow2 u == x) as Hback by (field; lra).
  assert (Qpow2 u <= x * (1 # 4503599627370496) ∨ Qpow2 u == 2 * Qpow2 (-1075)) as Hulp.
  { unfold u, ulp_exponent.
    destruct (Z.max_spec (Qlog2 (Qred x) - 52) (-1074)) as [[_ ->]|[_ ->]].
    - right. reflexivity.
    - left. rewrite Qpow2_sub.
      change (Qpow2 52) with (inject_Z 4503599627370496).
      apply Qle_shift_div_r; [reflexivity|].
      change (inject_Z 4503599627370496) with (4503599627370496 # 1).
      assert (x * (1 # 4503599627370496) * (4503599627370496 # 1) == x) as -> by field.
      done. }
  set (r := inject_Z (Qround_half_even (x / Qpow2 u))) in *.
  set (y := x / Qpow2 u) in *. set (P := Qpow2 u) in *.
  set (eta := Qpow2 (-1075)) in *.
  assert (x * (1 # 4503599627370496) == 2 * (x * (1 # 9007199254740992))) as Hhalf
    by field.
  clearbody r y P eta.
  destruct Hulp as [Hulp|Hulp]; split; nra.
Qed.

(** ** Properties of the rolling mean *)

Example rolling_mean_scenario :
  rolling_mean 3 (float_of_Z <$> [10; 20; 30; 40; 20]%Z)
  = [nan; nan; Some 20; Some 30; Some 30].
Proof. vm_compute. reflexivity. Qed.

Example signal_scenario :
  signal_cells 3 (float_of_Z <$> [10; 20; 30; 40; 20]%Z) = [0; 0; 1; 1; 0]%Z.
Proof. vm_compute. reflexivity. Qed.

(** The running sum rounds: on 0.1, 0.5, 0.9, 0.7 with a window of 3 rows
    the last mean is 0.6999999999999998, below the binary64 number 0.7,
    which is the close of that row. *)
Example rolling_mean_rounds :
  let close := Some <$> (round_binary64 <$> [1 # 10; 1 # 2; 9 # 10; 7 # 10]) in
  rolling_mean 3 close
  = [nan; nan; Some (1 # 2); Some (6305039478318693 # 9007199254740992)]
  ∧ 6305039478318693 # 9007199254740992 < round_binary64 (7 # 10)
  ∧ signal_cells 3 close = [0; 0; 1; 1]%Z.
Proof. vm_compute. repeat split; reflexivity. Qed.

Lemma window_at_length (w i : nat) (xs : list float) :
  (i < length xs)%nat → length (window_at w i xs) = (w `min` S i)%nat.
Proof.
  intros Hi. unfold window_at. rewrite length_take, length_drop. lia.
Qed.

Lemma window_at_lookup (w i k : nat) (xs : list float) :
  (k < w `min` S i)%nat → window_at w i xs !! k = xs !! (S i - w + k)%nat.
Proof.
  intros Hk. unfold window_at.
  rewrite lookup_take_lt by lia. by rewrite lookup_drop.
Qed.

(** A window only holds rows up to [i]. *)
Lemma window_at_take (w i n : nat) (xs : list float) :
  (S i ≤ n)%nat → window_at w i (take n xs) = window_at w i xs.
Proof.
  intros Hn. unfold window_at. rewrite !take_drop_commute, take_take.
  do 2 f_equal. lia.
Qed.

Lemma cell_lookup (xs : list float) (j : nat) (x : float) :
  xs !! j = Some x → cell xs j = x.
Proof. unfold cell. by intros ->. Qed.

Lemma cell_take (xs : list float) (j n : nat) :
  (j < n)%nat → cell (take n xs) j = cell xs j.
Proof. intros Hj. unfold cell. by rewrite lookup_take_lt. Qed.

(** From one row to the next the window takes the cell of the new row and,
    once it is complete, loses its oldest cell. *)
Lemma window_at_slide (w j : nat) (xs : list float) :
  (S j < length xs)%nat →
  window_at w j xs ++ [cell xs (S j)]
  = (if (w <=? S j)%nat then [cell xs (S j - w)] else []) ++ window_at w (S j) xs.
Proof.
  intros Hj.
  destruct (lookup_lt_is_Some_2 xs (S j) Hj) as [x Hx].
  rewrite (cell_lookup _ _ _ Hx). unfold window_at.
  destruct (Nat.leb_spec w (S j)) as [Hle|Hgt].
  - destruct (lookup_lt_is_Some_2 xs (S j - w)) as [y Hy]; [lia|].
    rewrite (cell_lookup _ _ _ Hy).
    replace (S j - (S j - w))%nat with w by lia.
    replace (S (S j) - w)%nat with (S (S j - w)) by lia.
    replace (S (S j) - S (S j - w))%nat with w by lia.
    rewrite (drop_S _ _ _ Hy). simpl app.
    change (y :: take w (drop (S (S j - w)) xs))
      with (take (S w) (y :: drop (S (S j - w)) xs)).
    rewrite <- (drop_S _ _ _ Hy).
    symmetry. apply take_S_r. rewrite lookup_drop, <- Hx. f_equal. lia.
  - replace (S j - w)%nat with 0%nat by lia.
    replace (S (S j) - w)%nat with 0%nat by lia.
    rewrite !drop_0, !Nat.sub_0_r. simpl app.
    symmetry. by apply take_S_r.
Qed.

Lemma observations_length_le (win : list float) :
  (length (observations win) ≤ length win)%nat.
Proof.
  induction win as [|[x|] win IH]; simpl; lia.
Qed.

Lemma observations_full (win : list float) :
  length (observations win) = length win → win = Some <$> observations win.
Proof.
  induction win as [|[x|] win IH]; simpl; intros Hlen.
  - reflexivity.
  - f_equal. apply IH. lia.
  - pose proof (observations_length_le win). lia.
Qed.


Lemma observations_app (l k : list float) :
  observations (l ++ k) = observations l ++ observations k.
Proof. apply omap_app. Qed.

Lemma observations_all_defined (win : list float) :
  (∀ k, (k < length win)%nat → defined_at win k) →
  length (observations win) = length win.
Proof.
  induction win as [|[x|] win IH]; simpl; intros Hall.
  - reflexivity.
  - f_equal. apply IH. intros k Hk. apply (Hall (S k)). lia.
  - destruct (Hall 0%nat) as [m Hm]; [lia | discriminate].
Qed.

Lemma add_cells_app (st : mean_state) (l k : list float) :
  add_cells st (l ++ k) = add_cells (add_cells st l) k.
Proof. apply foldl_app. Qed.

Lemma add_cells_snoc (st : mean_state) (l : list float) (x : float) :
  add_cells st (l ++ [x]) = add_mean x (add_cells st l).
Proof. by rewrite add_cells_app. Qed.

(** One step of [state_at]. *)
Lemma state_at_S (w j : nat) (xs : list float) :
  (2 ≤ w)%nat →
  state_at w xs (S j)
  = add_mean (cell xs (S j))
      (if (w <=? S j)%nat then remove_mean (cell xs (S j - w)) (state_at w xs j)
       else state_at w xs j).
Proof.
  intros Hw. simpl. destruct (Nat.leb_spec w 1); [lia | done].
Qed.

Lemma state_at_setup (w i : nat) (xs : list float) :
  (w ≤ 1)%nat ∨ i = 0%nat →
  state_at w xs i = add_cells (fresh_state (cell xs (S i - w))) (window_at w i xs).
Proof.
  intros [Hw | ->]; [|done]. destruct i; [done|]. simpl.
  destruct (Nat.leb_spec w 1); [done | lia].
Qed.

(** With a window of one row or more, the state after row [i] does not
    depend on the rows after [i]. *)
Lemma state_at_take (w i n : nat) (xs : list float) :
  (0 < w)%nat → (S i ≤ n)%nat → state_at w (take n xs) i = state_at w xs i.
Proof.
  intros Hw0 Hn. induction i as [|j IH].
  - simpl. by rewrite window_at_take, cell_take by lia.
  - destruct (Nat.le_gt_cases w 1) as [Hw|Hw].
    + rewrite !state_at_setup by auto. by rewrite window_at_take, cell_take by lia.
    + rewrite !state_at_S by lia. rewrite IH by lia.
      rewrite !cell_take by lia. done.
Qed.

(** *** The number of observations *)

Lemma nobs_add_mean (val : float) (st : mean_state) :
  nobs (add_mean val st) = (nobs st + Z.of_nat (length (observations [val])))%Z.
Proof. destruct val; simpl; lia. Qed.

Lemma nobs_remove_mean (val : float) (st : mean_state) :
  nobs (remove_mean val st) = (nobs st - Z.of_nat (length (observations [val])))%Z.
Proof. destruct val; simpl; lia. Qed.

Lemma nobs_add_cells (st : mean_state) (win : list float) :
  nobs (add_cells st win) = (nobs st + Z.of_nat (length (observations win)))%Z.
Proof.
  revert st. induction win as [|x win IH]; intros st; simpl; [lia|].
  unfold add_cells in *. simpl. rewrite IH, nobs_add_mean.
  destruct x; simpl; lia.
Qed.

(** [nobs] counts the cells of the window that are not NaN. *)
Lemma state_at_nobs (w i : nat) (xs : list float) :
  (i < length xs)%nat →
  nobs (state_at w xs i) = Z.of_nat (length (observations (window_at w i xs))).
Proof.
  induction i as [|j IH]; intros Hi.
  - rewrite state_at_setup by auto. by rewrite nobs_add_cells.
  - destruct (Nat.le_gt_cases w 1) as [Hw|Hw].
    + rewrite state_at_setup by auto. by rewrite nobs_add_cells.
    + rewrite state_at_S by lia.
      pose proof (f_equal (λ l, length (observations l))
                    (window_at_slide w j xs Hi)) as Hslide.
      cbv beta in Hslide. rewrite !observations_app, !length_app in Hslide.
      rewrite nobs_add_mean.
      destruct (w <=? S j)%nat; [rewrite nobs_remove_mean|]; rewrite IH by lia;
        [|change (length (observations [])) with 0%nat in Hslide]; lia.
Qed.

Lemma has_prev_add (val : float) (st : mean_state) :
  has_prev st → has_prev (add_mean val st).
Proof. intros Hst. destruct val as [v|]; [|done]. intros _. by exists v. Qed.

Lemma has_prev_remove (val : float) (st : mean_state) :
  has_prev st → has_prev (remove_mean val st).
Proof.
  intros Hst. destruct val as [v|]; [|done]. unfold has_prev. simpl.
  intros Hpos. apply Hst. lia.
Qed.

Lemma has_prev_add_cells (st : mean_state) (win : list float) :
  has_prev st → has_prev (add_cells st win).
Proof.
  revert st. induction win as [|x win IH]; intros st Hst; [done|].
  apply IH. by apply has_prev_add.
Qed.

Lemma state_at_has_prev (w i : nat) (xs : list float) : has_prev (state_at w xs i).
Proof.
  assert (∀ first, has_prev (fresh_state first)) as Hfresh.
  { intros first Hpos. simpl in Hpos. lia. }
  induction i as [|j IH].
  - rewrite state_at_setup by auto. by apply has_prev_add_cells.
  - destruct (Nat.le_gt_cases w 1) as [Hw|Hw].
    + rewrite state_at_setup by auto. by apply has_prev_add_cells.
    + rewrite state_at_S by lia. apply has_prev_add.
      destruct (w <=? S j)%nat; [by apply has_prev_remove | done].
Qed.

Lemma calc_mean_Some (minp : Z) (st : mean_state) :
  has_prev st →
  (∃ m, calc_mean minp st = Some m) ↔ (minp ≤ nobs st)%Z ∧ (0 < nobs st)%Z.
Proof.
  intros Hprev. unfold calc_mean.
  destruct (Z.leb_spec minp (nobs st)); destruct (Z.ltb_spec 0 (nobs st)); simpl;
    try (split; [intros [m Hm]; discriminate | lia]).
  split; [done|]. intros _.
  destruct (nobs st <=? num_consecutive_same_value st)%Z; [by apply Hprev|].
  destruct (_ && _); [by eexists|]. destruct (_ && _); by eexists.
Qed.

Lemma rolling_mean_length (w : nat) (xs : list float) :
  length (rolling_mean w xs) = length xs.
Proof. unfold rolling_mean. apply length_imap. Qed.

Lemma rolling_mean_lookup (w i : nat) (xs : list float) :
  (i < length xs)%nat →
  rolling_mean w xs !! i = Some (calc_mean (Z.of_nat w) (state_at w xs i)).
Proof.
  intros Hi. unfold rolling_mean. rewrite list_lookup_imap.
  destruct (lookup_lt_is_Some_2 xs i Hi) as [x ->]. reflexivity.
Qed.

(** The rolling mean has a value at row [i] exactly when the window holds
    [w] cells that are not NaN. *)
Lemma rolling_mean_observations (w i : nat) (xs : list float) :
  (i < length xs)%nat →
  defined_at (rolling_mean w xs) i ↔
  (w ≤ length (observations (window_at w i xs)))%nat
  ∧ (0 < length (observations (window_at w i xs)))%nat.
Proof.
  intros Hi. unfold defined_at. rewrite rolling_mean_lookup by done.
  pose proof (calc_mean_Some (Z.of_nat w) _ (state_at_has_prev w i xs)) as Hcalc.
  rewrite state_at_nobs in Hcalc by done.
  split.
  - intros [m [= Hm]]. destruct (proj1 Hcalc) as [H1 H2]; [by exists m | lia].
  - intros [H1 H2]. destruct (proj2 Hcalc) as [m Hm]; [lia|]. exists m. by rewrite Hm.
Qed.

(** The rolling mean has a value at row [i] exactly when the window is
    complete and every cell of it has one. *)
Lemma rolling_mean_defined (w i : nat) (close : list float) :
  (0 < w)%nat → (i < length close)%nat →
  defined_at (rolling_mean w close) i ↔
  (w - 1 ≤ i)%nat ∧ ∀ j, (i + 1 - w ≤ j ≤ i)%nat → defined_at close j.
Proof.
  intros Hw Hi. rewrite rolling_mean_observations by done.
  pose proof (window_at_length w i close Hi) as Hlen.
  pose proof (observations_length_le (window_at w i close)) as Hobs.
  split.
  - intros [Hle _]. split; [lia|]. intros j Hj.
    assert (length (observations (window_at w i close)) = length (window_at w i close))
      as Hfull by lia.
    apply observations_full in Hfull.
    destruct (lookup_lt_is_Some_2 (observations (window_at w i close)) (j - (S i - w)))
      as [v Hv]; [lia|].
    exists v.
    assert (window_at w i close !! (j - (S i - w))%nat = Some (Some v)) as Hlook.
    { rewrite Hfull, list_lookup_fmap, Hv. done. }
    rewrite window_at_lookup in Hlook by lia.
    rewrite <- Hlook. f_equal. lia.
  - intros [Hle Hall].
    assert (length (observations (window_at w i close)) = length (window_at w i close))
      as Hfull.
    { apply observations_all_defined. intros k Hk.
      destruct (Hall (S i - w + k)%nat) as [v Hv]; [lia|].
      exists v. rewrite window_at_lookup by lia. done. }
    lia.
Qed.

(** The rows before [w - 1] have no rolling mean. *)
Lemma rolling_mean_warmup (w i : nat) (close : list float) :
  (i < length close)%nat → (i < w - 1)%nat →
  rolling_mean w close !! i = Some nan.
Proof.
  intros Hi Hwarm.
  destruct (lookup_lt_is_Some_2 (rolling_mean w close) i) as [r Hr];
    [by rewrite rolling_mean_length|].
  destruct r as [m|]; [|done].
  assert (defined_at (rolling_mean w close) i) as Hdef by (by exists m).
  apply rolling_mean_observations in Hdef as [Hle _]; [|done].
  pose proof (observations_length_le (window_at w i close)).
  pose proof (window_at_length w i close Hi). lia.
Qed.

(** A window of no row has no mean. *)
Lemma rolling_mean_0 (i : nat) (xs : list float) :
  (i < length xs)%nat → rolling_mean 0 xs !! i = Some nan.
Proof.
  intros Hi.
  destruct (lookup_lt_is_Some_2 (rolling_mean 0 xs) i) as [r Hr];
    [by rewrite rolling_mean_length|].
  destruct r as [m|]; [|done].
  assert (defined_at (rolling_mean 0 xs) i) as Hdef by (by exists m).
  apply rolling_mean_observations in Hdef as [_ Hpos]; [|done].
  pose proof (observations_length_le (window_at 0 i xs)).
  pose proof (window_at_length 0 i xs Hi). lia.
Qed.

(** Two columns that agree up to row [i] have the same rolling mean at
    row [i]. *)
Lemma rolling_mean_no_lookahead (w i : nat) (close close' : list float) :
  (i < length close)%nat →
  take (S i) close' = take (S i) close →
  rolling_mean w close' !! i = rolling_mean w close !! i.
Proof.
  intros Hi Htake.
  assert (i < length close')%nat as Hi'.
  { assert (length (take (S i) close') = S i) as Hl
      by (rewrite Htake, length_take; lia).
    rewrite length_take in Hl. lia. }
  destruct (Nat.eq_dec w 0%nat) as [->|Hw]; [by rewrite !rolling_mean_0|].
  rewrite !rolling_mean_lookup by done.
  rewrite <- (state_at_take w i (S i) close'), Htake, state_at_take by lia. done.
Qed.

(** With a window of one row the mean is the cell itself. *)
Lemma rolling_mean_1 (close : list float) (i : nat) (c : Q) :
  close !! i = Some (Some c) → rolling_mean 1 close !! i = Some (Some c).
Proof.
  intros Hc.
  assert (i < length close)%nat as Hi by (by eapply lookup_lt_Some).
  rewrite rolling_mean_lookup by done. f_equal.
  rewrite state_at_setup by (left; lia).
  assert (window_at 1 i close = [Some c]) as ->.
  { apply list_eq. intros [|k].
    - rewrite window_at_lookup by lia.
      replace (S i - 1 + 0)%nat with i by lia. exact Hc.
    - simpl. apply lookup_ge_None_2. rewrite window_at_length by done. lia. }
  replace (S i - 1)%nat with i by lia. rewrite (cell_lookup _ _ _ Hc).
  unfold calc_mean. simpl.
  assert (Qeq_bool c c = true) as -> by (by apply Qeq_bool_iff).
  reflexivity.
Qed.

(** *** Sums without rounding error *)


















(** *** The run of equal cells *)










Lemma inject_Z_of_nat_pos (w : nat) : (0 < w)%nat → 0 < inject_Z (Z.of_nat w).
Proof.
  intros Hw. change 0 with (inject_Z 0). rewrite <- Zlt_Qlt. lia.
Qed.




(** ** Properties of the signal *)

Lemma signal_cells_length (w : nat) (close : list float) :
  length (signal_cells w close) = length close.
Proof.
  unfold signal_cells, astype_int, gt_cells.
  rewrite length_fmap, length_zip_with, rolling_mean_length. lia.
Qed.

Lemma signal_cells_lookup (w i : nat) (close : list float) (c r : float) :
  close !! i = Some c → rolling_mean w close !! i = Some r →
  signal_cells w close !! i = Some (if float_gt c r then 1%Z else 0%Z).
Proof.
  intros Hc Hr. unfold signal_cells, astype_int, gt_cells.
  rewrite list_lookup_fmap, lookup_zip_with, Hc, Hr. reflexivity.
Qed.

(** Where the rolling mean is NaN the signal is 0. *)
Lemma signal_cells_nan (w i : nat) (close : list float) :
  (i < length close)%nat → rolling_mean w close !! i = Some nan →
  signal_cells w close !! i = Some 0%Z.
Proof.
  intros Hi Hr. destruct (lookup_lt_is_Some_2 close i Hi) as [c Hc].
  rewrite (signal_cells_lookup w i close c nan Hc Hr).
  by destruct c.
Qed.

Lemma rolling_mean_Some_inv (w i : nat) (close : list float) (m : Q) :
  rolling_mean w close !! i = Some (Some m) →
  (0 < w)%nat ∧ (i < length close)%nat.
Proof.
  intros Hm.
  assert (i < length close)%nat as Hi.
  { rewrite <- (rolling_mean_length w). by eapply lookup_lt_Some. }
  split; [|done]. destruct w; [|lia].
  rewrite rolling_mean_0 in Hm by done. discriminate Hm.
Qed.

(** The cells of a column as [float64]. *)
Lemma ensure_float64_lookup (column : Series) (close : list float) (i : nat) (c : Q) :
  ensure_float64 column = Some close → close !! i = Some (Some c) →
  (∀ cells, column = SFloat cells → cells !! i = Some (Some c))
  ∧ (∀ cells z, column = SInt cells → cells !! i = Some z →
       c = round_binary64 (inject_Z z)
       ∧ ((Z.abs z ≤ 2 ^ 53)%Z → c = inject_Z z)).
Proof.
  intros Hfloat Hc. split.
  - intros cells ->. simpl in Hfloat. by injection Hfloat as ->.
  - intros cells z -> Hz. simpl in Hfloat. injection Hfloat as <-.
    rewrite list_lookup_fmap, Hz in Hc. injection Hc as <-.
    split; [done|]. intros Hsmall. by apply round_binary64_Z.
Qed.

(** C5, as amended: at a row where the rolling mean has a value [m], the
    close cell has a value, and the signal compares that value as a
    [float64], [c]: it is 1 when [c > m] and 0 otherwise, so 0 when [c]
    equals [m].  For a float column [c] is the cell itself; an integer cell
    is rounded to a binary64 number, which changes it only beyond
    [2 ^ 53]. *)
Theorem signal_where_defined (w i : nat) (column : Series) (close : list float) (m : Q) :
  ensure_float64 column = Some close →
  rolling_mean w close !! i = Some (Some m) →
  ∃ c : Q,
    close !! i = Some (Some c)
    ∧ (m < c → signal_cells w close !! i = Some 1%Z)
    ∧ (c <= m → signal_cells w close !! i = Some 0%Z)
    ∧ (c == m → signal_cells w close !! i = Some 0%Z)
    ∧ (∀ cells, column = SFloat cells → cells !! i = Some (Some c))
    ∧ (∀ cells z, column = SInt cells → cells !! i = Some z →
         c = round_binary64 (inject_Z z)
         ∧ ((Z.abs z ≤ 2 ^ 53)%Z → c = inject_Z z)).
Proof.
  intros Hfloat Hm.
  destruct (rolling_mean_Some_inv w i close m Hm) as [Hw Hi].
  assert (defined_at close i) as [c Hc].
  { apply (rolling_mean_defined w i close Hw Hi); [by exists m | lia]. }
  exists c. split; [done|].
  pose proof (ensure_float64_lookup column close i c Hfloat Hc) as [Hcells Hints].
  assert ((m < c → signal_cells w close !! i = Some 1%Z)
          ∧ (c <= m → signal_cells w close !! i = Some 0%Z)
          ∧ (c == m → signal_cells w close !! i = Some 0%Z)) as (Hgt & Hle & Heq).
  { rewrite (signal_cells_lookup w i close _ _ Hc Hm). simpl.
    destruct (Qle_bool c m) eqn:Hcm; simpl.
    - apply Qle_bool_iff in Hcm. repeat split; try done. intros Hlt. lra.
    - assert (¬ c <= m) as Hn by (rewrite <- Qle_bool_iff; congruence).
      repeat split; try done; intros H; exfalso; lra. }
  split; [exact Hgt|]. split; [exact Hle|]. split; [exact Heq|].
  split; [exact Hcells | exact Hints].
Qed.

(** C2, as amended: the signal column has an integer, 0 or 1, at every
    row; it is 0 at every row where the rolling mean is undefined, and so
    at every warm-up row [i < w - 1]. *)
Theorem signal_never_undefined (w i : nat) (close : list float) :
  (i < length close)%nat →
  (signal_cells w close !! i = Some 0%Z ∨ signal_cells w close !! i = Some 1%Z)
  ∧ (¬ defined_at (rolling_mean w close) i → signal_cells w close !! i = Some 0%Z)
  ∧ ((i < w - 1)%nat →
       ¬ defined_at (rolling_mean w close) i ∧ signal_cells w close !! i = Some 0%Z).
Proof.
  intros Hi.
  destruct (lookup_lt_is_Some_2 close i Hi) as [c Hc].
  destruct (lookup_lt_is_Some_2 (rolling_mean w close) i) as [r Hr];
    [by rewrite rolling_mean_length|].
  rewrite (signal_cells_lookup w i close c r Hc Hr).
  split; [|split].
  - destruct (float_gt c r); auto.
  - intros Hundef. destruct r as [m|]; [|by destruct c].
    exfalso. apply Hundef. by exists m.
  - intros Hwarm. pose proof (rolling_mean_warmup w i close Hi Hwarm) as Hnan.
    rewrite Hr in Hnan. injection Hnan as ->. split; [|by destruct c].
    intros [m Hm]. congruence.
Qed.

(** ** Properties of the loaders *)

Lemma check_keys_dict (items : list (pyval * pyval)) :
  check_keys required_keys (PDict items)
  = match first_missing_key items with
    | Some key => Raise (ValueError ("Missing config key: " +:+ key))
    | None => Ok tt
    end.
Proof.
  unfold first_missing_key, required_keys. simpl.
  destruct (existsb (λ kv, eq_str "seed" kv.1) items); simpl; [|done].
  destruct (existsb (λ kv, eq_str "window" kv.1) items); simpl; [|done].
  destruct (existsb (λ kv, eq_str "version" kv.1) items); simpl; done.
Qed.

Lemma first_missing_key_Some (items : list (pyval * pyval)) (key : string) :
  In key required_keys → existsb (λ kv, eq_str key kv.1) items = false →
  is_Some (first_missing_key items).
Proof.
  intros Hin Hmiss. unfold first_missing_key.
  destruct (List.find _ required_keys) as [k|] eqn:Hfind; [by exists k|].
  pose proof (List.find_none _ _ Hfind key Hin) as Hnone. simpl in Hnone.
  rewrite Hmiss in Hnone. discriminate Hnone.
Qed.

(** C6: when the parsed configuration is a mapping that lacks one of the
    keys seed, window, version, [load_config] raises [ValueError] with the
    message that names the first missing key in that order. *)
Theorem load_config_missing_key
    (fs : gmap string string) (path text : string) (items : list (pyval * pyval)) :
  fs !! path = Some text →
  safe_load env text = Ok (PDict items) →
  (∃ key, In key required_keys ∧ existsb (λ kv, eq_str key kv.1) items = false) →
  ∃ key,
    first_missing_key items = Some key
    ∧ load_config fs path = Raise (ValueError ("Missing config key: " +:+ key)).
Proof.
  intros Hfile Hload (k & Hin & Hmiss).
  destruct (first_missing_key_Some items k Hin Hmiss) as [key Hkey].
  exists key. split; [done|].
  unfold load_config. rewrite Hfile, Hload.
  change (Ok (PDict items) ≫= ?f) with (f (PDict items)). cbv beta iota.
  rewrite check_keys_dict, Hkey. reflexivity.
Qed.

(** C7: [load_data] raises [FileNotFoundError] for a path that does not
    exist; else [ValueError("Invalid CSV file format")] when the parser
    raises; else [ValueError("Input CSV file is empty")] for a table
    without rows; else [ValueError("Missing required column: close")] for
    a table without a close column; else it returns the table.  A table
    read from a file has the columns of its header, at least one. *)
Theorem load_data_checks (fs : gmap string string) (path : string) :
  (fs !! path = None →
     load_data fs path = Raise (FileNotFoundError "Input CSV file not found"))
  ∧ (∀ text e,
       fs !! path = Some text → read_csv env text = Raise e →
       load_data fs path = Raise (ValueError "Invalid CSV file format"))
  ∧ (∀ text df,
       fs !! path = Some text → read_csv env text = Ok df → df_rows df = 0%nat →
       load_data fs path = Raise (ValueError "Input CSV file is empty"))
  ∧ (∀ text df,
       fs !! path = Some text → read_csv env text = Ok df → df_rows df ≠ 0%nat →
       df_columns df ≠ [] → has_column "close" df = false →
       load_data fs path = Raise (ValueError "Missing required column: close"))
  ∧ (∀ text df,
       fs !! path = Some text → read_csv env text = Ok df → df_rows df ≠ 0%nat →
       has_column "close" df = true →
       load_data fs path = Ok df).
Proof.
  unfold load_data. repeat split.
  - by intros ->.
  - intros text e -> ->. done.
  - intros text df -> -> Hrows. unfold df_empty. by rewrite Hrows.
  - intros text df -> -> Hrows Hcols Hclose.
    assert (df_empty df = false) as ->.
    { unfold df_empty. destruct (df_rows df); [done|].
      by destruct (df_columns df). }
    by rewrite Hclose.
  - intros text df -> -> Hrows Hclose.
    assert (df_empty df = false) as ->.
    { unfold df_empty, has_column in *. destruct (df_rows df); [done|].
      by destruct (df_columns df). }
    by rewrite Hclose.
Qed.

(** What [load_config] has checked when it returns. *)
Lemma load_config_Ok (fs : gmap string string) (path : string) (cfg : pyval) :
  load_config fs path = Ok cfg →
  ∃ text seed window version,
    fs !! path = Some text ∧ safe_load env text = Ok cfg
    ∧ py_getitem cfg "seed" = Ok seed ∧ is_int seed = true
    ∧ py_getitem cfg "window" = Ok window ∧ is_int window = true
    ∧ (0 < default 0 (int_value window))%Z
    ∧ py_getitem cfg "version" = Ok version ∧ is_str version = true.
Proof.
  unfold load_config. intros Hload.
  destruct (fs !! path) as [text|]; [|done].
  destruct (safe_load env text) as [doc|] eqn:Hdoc; [|done].
  change (Ok doc ≫= ?f) with (f doc) in Hload. cbv beta in Hload.
  assert (doc ≠ PNone) as Hnone by (by intros ->).
  assert ((_ ← check_keys required_keys doc;
           seed ← py_getitem doc "seed";
           if negb (is_int seed) then Raise (ValueError "Seed must be integer")
           else
             window ← py_getitem doc "window";
             if negb (is_int window) || (default 0 (int_value window) <=? 0)%Z
             then Raise (ValueError "Window must be positive integer")
             else
               version ← py_getitem doc "version";
               if negb (is_str version)
               then Raise (ValueError "Version must be string")
               else Ok doc) = Ok cfg) as Hrest
    by (by destruct doc).
  clear Hload.
  destruct (check_keys required_keys doc) as [[]|]; [|done].
  change (Ok () ≫= ?f) with (f ()) in Hrest. cbv beta in Hrest.
  destruct (py_getitem doc "seed") as [seed|] eqn:Hgseed; [|done].
  change (Ok seed ≫= ?f) with (f seed) in Hrest. cbv beta in Hrest.
  destruct (is_int seed) eqn:Hseed; [|done]. simpl negb in Hrest. cbv iota in Hrest.
  destruct (py_getitem doc "window") as [window|] eqn:Hgwindow; [|done].
  change (Ok window ≫= ?f) with (f window) in Hrest. cbv beta in Hrest.
  destruct (is_int window) eqn:Hwindow; [|done].
  destruct (Z.leb_spec (default 0%Z (int_value window)) 0) as [|Hpos]; [done|].
  simpl in Hrest.
  destruct (py_getitem doc "version") as [version|] eqn:Hgversion; [|done].
  change (Ok version ≫= ?f) with (f version) in Hrest. cbv beta in Hrest.
  destruct (is_str version) eqn:Hversion; [|done].
  simpl in Hrest. injection Hrest as <-.
  exists text, seed, window, version. repeat split; done.
Qed.

Lemma load_data_Ok (fs : gmap string string) (path : string) (df : DataFrame) :
  load_data fs path = Ok df →
  ∃ text, fs !! path = Some text ∧ read_csv env text = Ok df
          ∧ df_rows df ≠ 0%nat ∧ has_column "close" df = true.
Proof.
  unfold load_data. intros Hload.
  destruct (fs !! path) as [text|]; [|done].
  destruct (read_csv env text) as [df'|] eqn:Hread; [|done].
  destruct (df_empty df') eqn:Hempty; [done|].
  destruct (has_column "close" df') eqn:Hclose; [|done].
  injection Hload as <-. exists text. repeat split; try done.
  unfold df_empty in Hempty. intros Hrows. by rewrite Hrows in Hempty.
Qed.

(** *** What json can encode *)

Lemma is_int_encodable (v : pyval) : is_int v = true → json_encodable v = true.
Proof. by destruct v. Qed.

Lemma is_str_encodable (v : pyval) : is_str v = true → json_encodable v = true.
Proof. by destruct v. Qed.

(** The success report of a validated configuration can be encoded. *)
Lemma success_output_encodable (version : pyval) (rows : nat) (rate : float)
    (latency : Z) (seed : pyval) :
  is_str version = true → is_int seed = true →
  json_encodable (success_output version rows rate latency seed) = true.
Proof.
  intros Hversion Hseed. simpl.
  by rewrite (is_str_encodable _ Hversion), (is_int_encodable _ Hseed).
Qed.

(** The error report can be encoded when its version can. *)
Lemma error_output_encodable (version : pyval) (message : string) :
  json_encodable (error_output version message) = json_encodable version.
Proof. simpl. by rewrite andb_true_r. Qed.

(** ** Running the job *)

Lemma load_config_ext (fs fs' : gmap string string) (path : string) :
  fs !! path = fs' !! path → load_config fs path = load_config fs' path.
Proof. unfold load_config. by intros ->. Qed.

Lemma load_data_ext (fs fs' : gmap string string) (path : string) :
  fs !! path = fs' !! path → load_data fs path = load_data fs' path.
Proof. unfold load_data. by intros ->. Qed.

Lemma recover_version_ext (fs fs' : gmap string string) (path : string) :
  fs !! path = fs' !! path → recover_version fs path = recover_version fs' path.
Proof. unfold recover_version. by intros ->. Qed.

Lemma emit_record_handler (ev : log_event) (w : World) :
  log_handler (emit_record ev w) = log_handler w.
Proof.
  unfold emit_record. destruct (log_handler w) eqn:Hl; simpl; congruence.
Qed.

Lemma emit_record_files_ne (ev : log_event) (w : World) (l p : string) :
  log_handler w = Some l → p ≠ l →
  files (emit_record ev w) !! p = files w !! p.
Proof.
  intros Hl Hne. unfold emit_record. rewrite Hl. simpl.
  by rewrite lookup_insert_ne.
Qed.

Lemma enter_handler (args : Args) (fs : gmap string string) :
  log_handler (enter args fs) = Some (log_file args).
Proof. unfold enter. by rewrite emit_record_handler. Qed.

Lemma enter_files_ne (args : Args) (fs : gmap string string) (p : string) :
  p ≠ log_file args → files (enter args fs) !! p = fs !! p.
Proof.
  intros Hne. unfold enter.
  rewrite (emit_record_files_ne _ _ (log_file args)) by done.
  simpl. by rewrite lookup_insert_ne.
Qed.

Lemma column_get_set_eq (name : string) (s : Series) (cols : list (string * Series)) :
  column_get name (column_set name s cols) = Some s.
Proof.
  induction cols as [|[n old] cols IH]; simpl.
  - by rewrite String.eqb_refl.
  - destruct (String.eqb name n) eqn:Heq; simpl; by rewrite Heq.
Qed.

Lemma column_get_set_ne (name name' : string) (s : Series) (cols : list (string * Series)) :
  name ≠ name' →
  column_get name (column_set name' s cols) = column_get name cols.
Proof.
  intros Hne. induction cols as [|[n old] cols IH]; simpl.
  - by apply String.eqb_neq in Hne as ->.
  - destruct (String.eqb name' n) eqn:Heq; simpl.
    + apply String.eqb_eq in Heq as <-. by apply String.eqb_neq in Hne as ->.
    + by rewrite IH.
Qed.

Lemma column_get_Some (name : string) (cols : list (string * Series)) (s : Series) :
  column_get name cols = Some s →
  existsb (λ c, String.eqb name c.1) cols = true.
Proof.
  induction cols as [|[n c] cols IH]; simpl; [done|].
  destruct (String.eqb name n); [done|]. apply IH.
Qed.

Lemma df_getitem_set_eq (df : DataFrame) (name : string) (s : Series) :
  df_getitem (df_setitem df name s) name = Ok s.
Proof. unfold df_getitem, df_setitem. simpl. by rewrite column_get_set_eq. Qed.

Lemma df_getitem_set_ne (df : DataFrame) (name name' : string) (s : Series) :
  name ≠ name' → df_getitem (df_setitem df name' s) name = df_getitem df name.
Proof.
  intros Hne. unfold df_getitem, df_setitem. simpl.
  by rewrite column_get_set_ne.
Qed.

(** The [try] block of a run that loads its inputs: every step succeeds. *)
Lemma main_try_ok (args : Args) (w : World) (l : string)
    (cfg seed : pyval) (wz : Z) (version : pyval)
    (df : DataFrame) (column : Series) (close : list float) :
  log_handler w = Some l → l ≠ input args →
  load_config (files w) (config args) = Ok cfg →
  py_getitem cfg "seed" = Ok seed →
  py_getitem cfg "window" = Ok (PInt wz) →
  py_getitem cfg "version" = Ok version →
  np_random_seed seed = Ok tt →
  (0 ≤ wz < 2 ^ 63)%Z →
  load_data (files w) (input args) = Ok df →
  df_getitem df "close" = Ok column →
  ensure_float64 column = Some close →
  let n := Z.to_nat wz in
  let rate := cells_mean (inject_Z <$> signal_cells n close) in
  let latency := elapsed_ms in
  let out := success_output version (df_rows df) rate latency seed in
  main_try args w
  = (emit_record (JobCompleted latency)
       (put_line (json_dumps env out)
          (put_file (output args) (json_dumps env out)
             (emit_record (Metrics rate (df_rows df))
                (emit_record SignalsGenerated
                   (emit_record (RollingMeanCalculated (PInt wz))
                      (emit_record (DataLoaded (df_rows df))
                         (emit_record (ConfigLoaded seed (PInt wz) version) w))))))),
     Ok {| l_df := df_setitem (df_setitem df "rolling_mean" (SFloat (rolling_mean n close)))
                              "signal" (SInt (signal_cells n close));
           l_signal_rate := rate;
           l_output := out |}).
Proof.
  intros Hl Hne Hcfg Hseed Hwindow Hversion Hnp Hwz Hdata Hcol Hfloat n rate latency out.
  destruct (load_config_Ok _ _ _ Hcfg)
    as (_ & seed' & _ & version' & _ & _ & Hseed' & Hiseed & _ & _ & _ & Hversion' & Hiversion).
  rewrite Hseed in Hseed'. injection Hseed' as <-.
  rewrite Hversion in Hversion'. injection Hversion' as <-.
  unfold main_try, mbind, job_bind, read_files, job_of_result, logging_info,
    logging_emit, json_dump, print, mret, job_ret.
  rewrite Hcfg, Hseed, Hwindow, Hversion, Hnp.
  rewrite (load_data_ext _ (files w)) by (by eapply emit_record_files_ne).
  rewrite Hdata, Hcol.
  unfold series_rolling_mean. rewrite Hfloat.
  destruct (Z.ltb_spec wz 0) as [?|_]; [lia|].
  destruct (Z.leb_spec (2 ^ 63) wz) as [?|_]; [lia|].
  rewrite df_getitem_set_ne, Hcol by done.
  rewrite df_getitem_set_eq.
  unfold series_gt_int. rewrite Hfloat. simpl ensure_float64. cbv iota.
  rewrite df_getitem_set_eq. simpl series_mean. cbv iota.
  by rewrite success_output_encodable.
Qed.

(** ** Properties of the signal rate *)

Lemma Qsum_inject_Z (l : list Z) : Qsum (inject_Z <$> l) == inject_Z (Zsum l).
Proof.
  induction l as [|z l IH]; simpl; [reflexivity|].
  rewrite IH, inject_Z_plus. reflexivity.
Qed.

Lemma Zsum_app (l k : list Z) : Zsum (l ++ k) = (Zsum l + Zsum k)%Z.
Proof. induction l as [|z l IH]; simpl; lia. Qed.

Lemma Zsum_zeros (l : list Z) : Forall (λ z, z = 0%Z) l → Zsum l = 0%Z.
Proof. induction 1; simpl; lia. Qed.

(** The warm-up rows add nothing to the sum of the signal. *)
Lemma signal_cells_sum (w : nat) (close : list float) :
  Zsum (signal_cells w close) = Zsum (drop (w - 1) (signal_cells w close)).
Proof.
  rewrite <- (take_drop (w - 1) (signal_cells w close)) at 1.
  rewrite Zsum_app, Zsum_zeros; [done|].
  apply Forall_lookup. intros i z Hz.
  apply lookup_take_Some in Hz as [Hz Hi].
  assert (i < length close)%nat as Hlen.
  { rewrite <- (signal_cells_length w). by eapply lookup_lt_Some. }
  rewrite (signal_cells_nan w i close Hlen) in Hz by (by apply rolling_mean_warmup).
  congruence.
Qed.

Lemma cells_mean_Some (obs : list Q) :
  obs ≠ [] →
  cells_mean obs = Some (fdiv (Qsum obs) (inject_Z (Z.of_nat (length obs)))).
Proof. by destruct obs. Qed.

(** The mean of the signal column: its 1s from row [w - 1] on, over the
    number of all rows, as a binary64 number. *)
Lemma signal_rate_value (w : nat) (close : list float) :
  close ≠ [] →
  cells_mean (inject_Z <$> signal_cells w close)
  = Some (round_binary64
            (inject_Z (Zsum (drop (w - 1) (signal_cells w close)))
             / inject_Z (Z.of_nat (length close)))).
Proof.
  intros Hne. rewrite cells_mean_Some.
  - f_equal. apply round_binary64_comp.
    rewrite Qsum_inject_Z, length_fmap, signal_cells_length.
    rewrite <- signal_cells_sum. reflexivity.
  - intros Hnil. apply fmap_nil_inv in Hnil.
    apply (f_equal length) in Hnil. rewrite signal_cells_length in Hnil.
    by destruct close.
Qed.

(** Every cell of the signal is 0 or 1. *)
Lemma signal_cells_bits (w : nat) (close : list float) :
  Forall (λ z, z = 0%Z ∨ z = 1%Z) (signal_cells w close).
Proof.
  unfold signal_cells, astype_int. apply Forall_fmap, Forall_forall.
  intros b _. destruct b; simpl; auto.
Qed.

(** The signal is 0 at the warm-up rows. *)
Lemma signal_cells_warmup (w i : nat) (close : list float) :
  (i < length close)%nat → (i < w - 1)%nat → signal_cells w close !! i = Some 0%Z.
Proof.
  intros Hi Hwarm. apply signal_cells_nan; [done|]. by apply rolling_mean_warmup.
Qed.

(** A run that loads its inputs, seen from the files it starts with. *)
Lemma main_try_loads (args : Args) (fs : gmap string string)
    (seed : pyval) (wz : Z) (version : pyval) (df : DataFrame) (close : list float) :
  loads args fs seed wz version df close →
  (wz < 2 ^ 63)%Z →
  let n := Z.to_nat wz in
  let rate := cells_mean (inject_Z <$> signal_cells n close) in
  let latency := elapsed_ms in
  main_try args (enter args fs)
  = (success_world args (enter args fs) seed wz version (df_rows df) rate,
     Ok {| l_df := df_setitem (df_setitem df "rolling_mean" (SFloat (rolling_mean n close)))
                              "signal" (SInt (signal_cells n close));
           l_signal_rate := rate;
           l_output := success_output version (df_rows df) rate latency seed |}).
Proof.
  intros ((Hlc & (cfg & Hcfg & Hseed & Hwindow & Hversion) & Hnp) & Hli & Hdata
          & (column & Hcol & Hfloat) & Hlen) Hbound n rate latency.
  destruct (load_config_Ok _ _ _ Hcfg)
    as (_ & _ & window & _ & _ & _ & _ & _ & Hw & _ & Hpos & _).
  rewrite Hwindow in Hw. injection Hw as <-. simpl in Hpos.
  assert (load_config (files (enter args fs)) (config args) = Ok cfg) as Hcfg'.
  { by rewrite (load_config_ext _ fs) by (by apply enter_files_ne). }
  assert (load_data (files (enter args fs)) (input args) = Ok df) as Hdata'.
  { by rewrite (load_data_ext _ fs) by (by apply enter_files_ne). }
  assert (0 ≤ wz < 2 ^ 63)%Z as Hwz by lia.
  by rewrite (main_try_ok args (enter args fs) (log_file args) cfg seed wz version
                df column close (enter_handler args fs) Hli Hcfg' Hseed Hwindow
                Hversion Hnp Hwz Hdata' Hcol Hfloat).
Qed.

Lemma success_world_output (args : Args) (w : World)
    (seed : pyval) (wz : Z) (version : pyval) (rows : nat) (rate : float) :
  log_handler w = Some (log_file args) → log_file args ≠ output args →
  files (success_world args w seed wz version rows rate) !! output args
  = Some (json_dumps env (success_output version rows rate
                        (elapsed_ms) seed)).
Proof.
  intros Hl Hne. unfold success_world.
  rewrite (emit_record_files_ne _ _ (log_file args)).
  - simpl. by rewrite lookup_insert_eq.
  - simpl. by rewrite !emit_record_handler.
  - done.
Qed.

(** The two columns that a run attaches to the table. *)
Lemma main_columns (args : Args) (fs : gmap string string)
    (seed : pyval) (wz : Z) (version : pyval) (df : DataFrame) (close : list float) :
  loads args fs seed wz version df close →
  (wz < 2 ^ 63)%Z →
  ∃ locals,
    main_locals args fs = Ok locals
    ∧ df_rows (l_df locals) = df_rows df
    ∧ df_getitem (l_df locals) "close" = df_getitem df "close"
    ∧ df_getitem (l_df locals) "rolling_mean"
      = Ok (SFloat (rolling_mean (Z.to_nat wz) close))
    ∧ df_getitem (l_df locals) "signal" = Ok (SInt (signal_cells (Z.to_nat wz) close)).
Proof.
  intros Hloads Hbound. pose proof (main_try_loads _ _ _ _ _ _ _ Hloads Hbound) as Hrun.
  eexists. unfold main_locals. rewrite Hrun. split; [reflexivity|].
  cbn [l_df]. split; [reflexivity|].
  split; [by rewrite !df_getitem_set_ne by done|].
  split; [|apply df_getitem_set_eq].
  rewrite df_getitem_set_ne by done. apply df_getitem_set_eq.
Qed.

(** C1, as amended: in a run that loads its inputs, with a window that
    fits a 64-bit integer, the signal column holds 0 or 1 at every row and 0
    at the warm-up rows, and [signal_rate] is its mean over all rows, as a
    binary64 number: the numerator is the sum of the signal from row
    [w - 1] on, the denominator is the number of all rows.  The reported
    value is this number rounded to 4 decimals. *)
Theorem signal_rate_over_all_rows (args : Args) (fs : gmap string string)
    (seed : pyval) (wz : Z) (version : pyval) (df : DataFrame) (close : list float) :
  loads args fs seed wz version df close →
  (wz < 2 ^ 63)%Z →
  ∃ locals signal q,
    main_locals args fs = Ok locals
    ∧ df_getitem (l_df locals) "signal" = Ok (SInt signal)
    ∧ length signal = df_rows df
    ∧ Forall (λ z, z = 0%Z ∨ z = 1%Z) signal
    ∧ (∀ i, (i < df_rows df)%nat → (i < Z.to_nat wz - 1)%nat → signal !! i = Some 0%Z)
    ∧ l_signal_rate locals = Some q
    ∧ q = round_binary64
            (inject_Z (Zsum (drop (Z.to_nat wz - 1) signal))
             / inject_Z (Z.of_nat (df_rows df)))
    ∧ l_output locals = success_output version (df_rows df) (Some q) elapsed_ms seed.
Proof.
  intros Hloads Hbound.
  pose proof (main_try_loads _ _ _ _ _ _ _ Hloads Hbound) as Hrun.
  destruct Hloads as (_ & _ & Hdata & _ & Hlen).
  apply load_data_Ok in Hdata as (_ & _ & _ & Hrows & _).
  assert (close ≠ []) as Hne by (intros ->; simpl in Hlen; congruence).
  pose proof (signal_rate_value (Z.to_nat wz) close Hne) as Hrate.
  eexists _, (signal_cells (Z.to_nat wz) close), _.
  unfold main_locals. rewrite Hrun. split; [reflexivity|].
  cbn [l_df l_signal_rate l_output].
  split; [apply df_getitem_set_eq|].
  split; [by rewrite signal_cells_length|].
  split; [apply signal_cells_bits|].
  split; [intros i Hi Hwarm; apply signal_cells_warmup; [by rewrite Hlen | done]|].
  split; [exact Hrate|]. split; [by rewrite Hlen|]. by rewrite Hrate.
Qed.

(** C3, as amended: a run with the configuration seed 42, window 3,
    version "v1" on a table of 5 rows with the close column
    10, 20, 30, 40, 20 attaches the rolling mean NaN, NaN, 20, 30, 30 and
    the signal 0, 0, 1, 1, 0, has the signal rate 0.4, the binary64 number
    nearest to 2/5, and ends with exit code 0 and the report: version "v1",
    rows_processed 5, value 0.4, seed 42, status "success". *)
Theorem scenario_window_3 (args : Args) (fs : gmap string string) (df : DataFrame) :
  loads args fs (PInt 42) 3 (PStr "v1") df (float_of_Z <$> [10; 20; 30; 40; 20]%Z) →
  log_file args ≠ output args →
  (∃ locals,
     main_locals args fs = Ok locals
     ∧ df_getitem (l_df locals) "rolling_mean"
       = Ok (SFloat [nan; nan; Some 20; Some 30; Some 30])
     ∧ df_getitem (l_df locals) "signal" = Ok (SInt [0; 0; 1; 1; 0]%Z)
     ∧ l_signal_rate locals = Some (round_binary64 (2 # 5)))
  ∧ (main args fs).2 = 0%Z
  ∧ files (main args fs).1 !! output args
    = Some (json_dumps env
              (PDict [(PStr "version", PStr "v1");
                      (PStr "rows_processed", PInt 5);
                      (PStr "metric", PStr "signal_rate");
                      (PStr "value", PFloat (Some (round_binary64 (2 # 5))));
                      (PStr "latency_ms", PInt (elapsed_ms));
                      (PStr "seed", PInt 42);
                      (PStr "status", PStr "success")])).
Proof.
  intros Hloads Hout.
  pose proof (main_try_loads _ _ _ _ _ _ _ Hloads eq_refl) as Hrun.
  cbv zeta in Hrun.
  destruct Hloads as (_ & _ & _ & _ & Hlen). simpl in Hlen.
  assert (rolling_mean (Z.to_nat 3) (float_of_Z <$> [10; 20; 30; 40; 20]%Z)
          = [nan; nan; Some 20; Some 30; Some 30]) as Hroll
    by (vm_compute; reflexivity).
  assert (signal_cells (Z.to_nat 3) (float_of_Z <$> [10; 20; 30; 40; 20]%Z)
          = [0; 0; 1; 1; 0]%Z) as Hsignal by (vm_compute; reflexivity).
  assert (cells_mean (inject_Z <$> [0; 0; 1; 1; 0]%Z) = Some (round_binary64 (2 # 5)))
    as Hrate by (vm_compute; reflexivity).
  assert (round4 (Some (round_binary64 (2 # 5))) = Some (round_binary64 (2 # 5)))
    as Hvalue by (vm_compute; reflexivity).
  rewrite Hroll, Hsignal, Hrate in Hrun.
  split.
  - eexists. unfold main_locals. rewrite Hrun. split; [reflexivity|].
    cbn [l_df l_signal_rate l_output].
    split; [|split; [apply df_getitem_set_eq | done]].
    rewrite df_getitem_set_ne by done. apply df_getitem_set_eq.
  - unfold main. rewrite Hrun. cbn [fst snd]. split; [done|].
    rewrite success_world_output by (done || apply enter_handler).
    unfold success_output. by rewrite Hvalue, <- Hlen.
Qed.

(** ** Failing runs *)

(** The world in which the [except] block ends: with the error report in
    the output file and the line printed, or, when json cannot encode the
    version, with the pieces that were written before the encoder failed,
    and no line printed. *)
Lemma main_except_world (args : Args) (e : exception) (w : World) :
  (main_except args e w).1
  = let w1 := emit_record (ErrorLogged (exception_str e)) w in
    let report := error_output (recover_version (files w1) (config args))
                    (exception_str e) in
    if json_encodable (recover_version (files w1) (config args))
    then put_line ("Error: " +:+ exception_str e)
           (put_file (output args) (json_dumps env report) w1)
    else put_file (output args) (json_fragment env report) w1.
Proof.
  unfold main_except, logging_error, logging_emit, write_error, json_dump, read_files,
    print, mbind, job_bind. cbv zeta.
  rewrite error_output_encodable. by destruct (json_encodable _).
Qed.

(** The [except] block raises exactly when json cannot encode the version. *)
Lemma main_except_result (args : Args) (e : exception) (w : World) :
  (main_except args e w).2
  = let w1 := emit_record (ErrorLogged (exception_str e)) w in
    let report := error_output (recover_version (files w1) (config args))
                    (exception_str e) in
    if json_encodable (recover_version (files w1) (config args))
    then Ok tt
    else Raise (InterpreterError (NotSerializable report)).
Proof.
  unfold main_except, logging_error, logging_emit, write_error, json_dump, read_files,
    print, mbind, job_bind. cbv zeta.
  rewrite error_output_encodable. by destruct (json_encodable _).
Qed.

(** The output file of a run whose [try] block raises [e] in a world that
    still has the configuration file as it was. *)
Lemma main_raise_output (args : Args) (fs : gmap string string) (w : World)
    (e : exception) :
  log_file args ≠ config args →
  main_try args (enter args fs) = (w, Raise e) →
  log_handler w = Some (log_file args) →
  files w !! config args = fs !! config args →
  let report := error_output (recover_version fs (config args)) (exception_str e) in
  (main args fs).2 = 1%Z
  ∧ files (main args fs).1 !! output args
    = Some (if json_encodable (recover_version fs (config args))
            then json_dumps env report else json_fragment env report).
Proof.
  intros Hlc Htry Hl Hfiles report. unfold main. rewrite Htry. cbn [fst snd].
  split; [done|]. rewrite main_except_world. cbv zeta.
  rewrite (recover_version_ext _ fs)
    by (by rewrite (emit_record_files_ne _ _ (log_file args))).
  destruct (json_encodable _); cbn [files put_line put_file];
    by rewrite lookup_insert_eq.
Qed.

(** The report of such a run, when json can encode the version. *)
Lemma main_raise (args : Args) (fs : gmap string string) (w : World) (e : exception) :
  log_file args ≠ config args →
  main_try args (enter args fs) = (w, Raise e) →
  log_handler w = Some (log_file args) →
  files w !! config args = fs !! config args →
  json_encodable (recover_version fs (config args)) = true →
  (main args fs).2 = 1%Z
  ∧ files (main args fs).1 !! output args
    = Some (json_dumps env (error_output (recover_version fs (config args))
                                     (exception_str e))).
Proof.
  intros Hlc Htry Hl Hfiles Henc.
  destruct (main_raise_output args fs w e Hlc Htry Hl Hfiles) as [Hcode Hfile].
  by rewrite Henc in Hfile.
Qed.

Lemma main_try_config_raise (args : Args) (w : World) (e : exception) :
  load_config (files w) (config args) = Raise e →
  main_try args w = (w, Raise e).
Proof.
  intros Hcfg. unfold main_try, mbind, job_bind, read_files. by rewrite Hcfg.
Qed.

Lemma dict_get_Some (key : string) (items : list (pyval * pyval)) (v : pyval) :
  dict_get key items = Some v → existsb (λ kv, eq_str key kv.1) items = true.
Proof.
  induction items as [|[k x] items IH]; simpl; [done|].
  destruct (eq_str key k); [done|]. apply IH.
Qed.

(** The version that the [except] block reads again is the version of a
    configuration that loaded. *)
Lemma recover_version_loaded (fs : gmap string string) (path : string)
    (cfg version : pyval) :
  load_config fs path = Ok cfg → py_getitem cfg "version" = Ok version →
  recover_version fs path = version.
Proof.
  intros Hcfg Hversion.
  destruct (load_config_Ok _ _ _ Hcfg) as (text & _ & _ & _ & Hfile & Hdoc & _).
  unfold recover_version. rewrite Hfile, Hdoc.
  change (Ok cfg ≫= ?f) with (f cfg). cbv beta. by rewrite Hversion.
Qed.

(** A version that passed [load_config] is a string, which json encodes. *)
Lemma recover_version_encodable (fs : gmap string string) (path : string)
    (cfg : pyval) :
  load_config fs path = Ok cfg → json_encodable (recover_version fs path) = true.
Proof.
  intros Hcfg.
  destruct (load_config_Ok _ _ _ Hcfg)
    as (_ & _ & _ & version & _ & _ & _ & _ & _ & _ & _ & Hversion & Hstr).
  rewrite (recover_version_loaded fs path cfg version Hcfg Hversion).
  by apply is_str_encodable.
Qed.

(** C10: when the configuration is valid but for its version [v], which
    is not a string, [load_config] raises
    [ValueError("Version must be string")] and the error report that the
    run writes has [v] as its version, not "unknown": the [except] block
    reads the file again and takes whatever value the key has.  When [v] is
    a value that json cannot encode (a date, for one), the output file
    holds the pieces of this report that were written before the encoder
    failed. *)
Theorem error_report_keeps_version (args : Args) (fs : gmap string string)
    (text : string) (items : list (pyval * pyval)) (seed window v : pyval) :
  log_file args ≠ config args →
  fs !! config args = Some text →
  safe_load env text = Ok (PDict items) →
  dict_get "seed" items = Some seed → is_int seed = true →
  dict_get "window" items = Some window → is_int window = true →
  (0 < default 0 (int_value window))%Z →
  dict_get "version" items = Some v → is_str v = false →
  let report := PDict [(PStr "version", v);
                       (PStr "status", PStr "error");
                       (PStr "error_message", PStr "Version must be string")] in
  load_config fs (config args) = Raise (ValueError "Version must be string")
  ∧ (main args fs).2 = 1%Z
  ∧ files (main args fs).1 !! output args
    = Some (if json_encodable v then json_dumps env report
            else json_fragment env report).
Proof.
  intros Hlc Hfile Hdoc Hseed Hiseed Hwindow Hiwindow Hpos Hversion Hstr report.
  assert (load_config fs (config args) = Raise (ValueError "Version must be string"))
    as Hload.
  { unfold load_config. rewrite Hfile, Hdoc.
    change (Ok (PDict items) ≫= ?f) with (f (PDict items)). cbv beta iota.
    rewrite check_keys_dict. unfold first_missing_key, required_keys.
    cbn [List.find]. rewrite !(dict_get_Some _ _ _ Hseed).
    rewrite !(dict_get_Some _ _ _ Hwindow), !(dict_get_Some _ _ _ Hversion).
    cbn [negb]. change (Ok () ≫= ?f) with (f ()). cbv beta.
    unfold py_getitem. rewrite Hseed, Hwindow, Hversion.
    change (Ok seed ≫= ?f) with (f seed). cbv beta. rewrite Hiseed. cbn [negb].
    change (Ok window ≫= ?f) with (f window). cbv beta. rewrite Hiwindow.
    destruct (Z.leb_spec (default 0%Z (int_value window)) 0); [lia|].
    cbn [negb orb]. change (Ok v ≫= ?f) with (f v). cbv beta.
    by rewrite Hstr. }
  split; [done|].
  assert (recover_version fs (config args) = v) as Hrecover.
  { unfold recover_version. rewrite Hfile, Hdoc.
    change (Ok (PDict items) ≫= ?f) with (f (PDict items)). cbv beta.
    unfold py_getitem. by rewrite Hversion. }
  unfold report. rewrite <- Hrecover.
  apply (main_raise_output args fs (enter args fs) (ValueError "Version must be string"));
    [done | | apply enter_handler | by apply enter_files_ne].
  apply main_try_config_raise.
  by rewrite (load_config_ext _ fs) by (by apply enter_files_ne).
Qed.

(** The [try] block of a run whose rolling mean raises. *)
Lemma main_try_rolling_raise (args : Args) (w : World) (l : string)
    (cfg seed window version : pyval) (df : DataFrame) (column : Series)
    (e : exception) :
  log_handler w = Some l → l ≠ input args →
  load_config (files w) (config args) = Ok cfg →
  py_getitem cfg "seed" = Ok seed →
  py_getitem cfg "window" = Ok window →
  py_getitem cfg "version" = Ok version →
  np_random_seed seed = Ok tt →
  load_data (files w) (input args) = Ok df →
  df_getitem df "close" = Ok column →
  series_rolling_mean window column = Raise e →
  main_try args w
  = (emit_record (DataLoaded (df_rows df))
       (emit_record (ConfigLoaded seed window version) w),
     Raise e).
Proof.
  intros Hl Hne Hcfg Hseed Hwindow Hversion Hnp Hdata Hcol Hroll.
  unfold main_try, mbind, job_bind, read_files, job_of_result, logging_info,
    logging_emit.
  rewrite Hcfg, Hseed, Hwindow, Hversion, Hnp.
  rewrite (load_data_ext _ (files w)) by (by eapply emit_record_files_ne).
  by rewrite Hdata, Hcol, Hroll.
Qed.

(** C9: [load_data] returns a table whose close column is text, not
    numbers; the run fails afterwards, when the rolling mean is taken, and
    its error report carries the message of that failure. *)
Theorem load_data_accepts_text_close (args : Args) (fs : gmap string string)
    (text : string) (df : DataFrame) (cells : list string) :
  fs !! input args = Some text →
  read_csv env text = Ok df →
  df_rows df ≠ 0%nat →
  df_getitem df "close" = Ok (SObject cells) →
  load_data fs (input args) = Ok df
  ∧ (∀ window, ∃ e, series_rolling_mean window (SObject cells) = Raise e)
  ∧ (∀ seed wz version,
       config_loads args fs seed wz version → log_file args ≠ input args →
       (main args fs).2 = 1%Z
       ∧ files (main args fs).1 !! output args
         = Some (json_dumps env
                   (PDict [(PStr "version", version);
                           (PStr "status", PStr "error");
                           (PStr "error_message",
                            PStr "No numeric types to aggregate")]))).
Proof.
  intros Hfile Hread Hrows Hcol.
  assert (load_data fs (input args) = Ok df) as Hdata.
  { unfold load_data. rewrite Hfile, Hread.
    unfold df_getitem in Hcol.
    assert (has_column "close" df = true) as ->.
    { destruct (column_get "close" (df_columns df)) eqn:Hget; [|done].
      by eapply column_get_Some. }
    assert (df_empty df = false) as ->; [|done].
    unfold df_empty. destruct (df_rows df); [done|].
    by destruct (df_columns df). }
  split; [done|]. split.
  - intros window. unfold series_rolling_mean.
    destruct window; eauto. destruct (z <? 0)%Z; eauto.
  - intros seed wz version (Hlc & (cfg & Hcfg & Hseed & Hwindow & Hversion) & Hnp) Hli.
    destruct (load_config_Ok _ _ _ Hcfg)
      as (_ & _ & window & _ & _ & _ & _ & _ & Hw & _ & Hpos & _).
    rewrite Hwindow in Hw. injection Hw as <-. simpl in Hpos.
    rewrite <- (recover_version_loaded fs (config args) cfg version Hcfg Hversion).
    apply (main_raise args fs
             (emit_record (DataLoaded (df_rows df))
                (emit_record (ConfigLoaded seed (PInt wz) version) (enter args fs)))
             (DataError "No numeric types to aggregate")); [done | | | |].
    + assert (load_config (files (enter args fs)) (config args) = Ok cfg) as Hcfg'.
      { by rewrite (load_config_ext _ fs) by (by apply enter_files_ne). }
      assert (load_data (files (enter args fs)) (input args) = Ok df) as Hdata'.
      { by rewrite (load_data_ext _ fs) by (by apply enter_files_ne). }
      apply (main_try_rolling_raise args _ (log_file args) cfg seed (PInt wz) version
               df (SObject cells) _ (enter_handler args fs) Hli Hcfg' Hseed Hwindow
               Hversion Hnp Hdata' Hcol).
      unfold series_rolling_mean. simpl.
      destruct (Z.ltb_spec wz 0); [lia | done].
    + by rewrite !emit_record_handler, enter_handler.
    + rewrite !(emit_record_files_ne _ _ (log_file args));
        rewrite ?emit_record_handler, ?enter_handler; try done.
      by apply enter_files_ne.
    + by eapply recover_version_encodable.
Qed.

(** ** Two runs *)

Lemma agree_weaken (P Q : string → Prop) (w1 w2 : World) :
  (∀ p, P p → Q p) → agree Q w1 w2 → agree P w1 w2.
Proof. intros Hsub (Hl & Hs & Hf). repeat split; auto. Qed.

Lemma job_rel_bind {A B} (P Q R : string → Prop) (m : Job A) (f : A → Job B) :
  job_rel P m Q → (∀ p, P p → Q p) → (∀ a, job_rel Q (f a) R) →
  job_rel P (m ≫= f) R.
Proof.
  intros Hm Hsub Hf w1 w2 Hagree. specialize (Hm w1 w2 Hagree).
  unfold mbind, job_bind.
  destruct (m w1) as [w1' [a1|e1]], (m w2) as [w2' [a2|e2]]; try done.
  destruct Hm as [<- Hagree']. specialize (Hf a1 w1' w2' Hagree').
  destruct (f a1 w1') as [w1'' [b1|e1]], (f a1 w2') as [w2'' [b2|e2]]; try done.
  destruct Hf as [<- Hagree'']. split; [done|]. by eapply agree_weaken.
Qed.

Lemma job_rel_ret {A} (P : string → Prop) (a : A) : job_rel P (mret a) P.
Proof. by intros w1 w2 Hagree. Qed.

Lemma job_rel_of_result {A} (P : string → Prop) (r : result A) :
  job_rel P (job_of_result r) P.
Proof. intros w1 w2 Hagree. unfold job_of_result. by destruct r. Qed.

Lemma job_rel_read {A} (P : string → Prop) (f : gmap string string → result A)
    (path : string) :
  P path → (∀ fs fs', fs !! path = fs' !! path → f fs = f fs') →
  job_rel P (read_files f) P.
Proof.
  intros Hpath Hext w1 w2 Hagree. unfold read_files.
  rewrite (Hext (files w1) (files w2)) by (by apply Hagree).
  by destruct (f (files w2)).
Qed.

Lemma agree_emit (P : string → Prop) (ev : log_event) (w1 w2 : World) :
  agree P w1 w2 → agree P (emit_record ev w1) (emit_record ev w2).
Proof.
  intros Hagree. pose proof Hagree as (Hl & Hs & Hf).
  unfold emit_record. rewrite <- Hl.
  destruct (log_handler w1) as [l|] eqn:Hl1; [|done].
  repeat split; simpl; [congruence | done |].
  intros p Hp. destruct (decide (l = p)) as [->|Hne].
  - rewrite !lookup_insert_eq. by rewrite (Hf p Hp).
  - rewrite !lookup_insert_ne by done. by apply Hf.
Qed.

Lemma job_rel_emit (P : string → Prop) (ev : log_event) :
  job_rel P (logging_emit ev) P.
Proof. intros w1 w2 Hagree. split; [done|]. by apply agree_emit. Qed.

Lemma agree_put_file (P : string → Prop) (path text : string) (w1 w2 : World) :
  agree P w1 w2 →
  agree (λ p, P p ∨ p = path) (put_file path text w1) (put_file path text w2).
Proof.
  intros (Hl & Hs & Hf). repeat split; simpl; try done.
  intros p Hp. destruct (decide (path = p)) as [->|Hne].
  - by rewrite !lookup_insert_eq.
  - rewrite !lookup_insert_ne by done. destruct Hp as [Hp | ->]; [by apply Hf | done].
Qed.

Lemma job_rel_json_dump (P : string → Prop) (path : string) (v : pyval) :
  job_rel P (json_dump path v) (λ p, P p ∨ p = path).
Proof.
  intros w1 w2 Hagree. unfold json_dump.
  destruct (json_encodable v); (split; [done|]).
  - by apply agree_put_file.
  - eapply agree_weaken; [|by apply agree_put_file]. by left.
Qed.

Lemma job_rel_print (P : string → Prop) (line : string) :
  job_rel P (print line) P.
Proof.
  intros w1 w2 (Hl & Hs & Hf). split; [done|]. repeat split; simpl; try done.
  by rewrite Hs.
Qed.

(** One step of a block that keeps the paths agreed on. *)
Lemma job_rel_step {A B} (P R : string → Prop) (m : Job A) (f : A → Job B) :
  job_rel P m P → (∀ a, job_rel P (f a) R) → job_rel P (m ≫= f) R.
Proof. intros Hm Hf. by eapply job_rel_bind. Qed.

Lemma main_try_rel (args : Args) (P : string → Prop) :
  P (config args) → P (input args) →
  job_rel P (main_try args) (λ p, P p ∨ p = output args).
Proof.
  intros Hconfig Hinput. unfold main_try.
  apply job_rel_step;
    [apply (job_rel_read P _ (config args)); [done|];
     intros fs fs' Hfs; by apply load_config_ext | intros cfg].
  do 4 (apply job_rel_step; [apply job_rel_of_result | intros ?]).
  apply job_rel_step; [apply job_rel_emit | intros _].
  apply job_rel_step;
    [apply (job_rel_read P _ (input args)); [done|];
     intros fs fs' Hfs; by apply load_data_ext | intros df].
  cbv zeta.
  apply job_rel_step; [apply job_rel_emit | intros _].
  do 2 (apply job_rel_step; [apply job_rel_of_result | intros ?]).
  apply job_rel_step; [apply job_rel_emit | intros _].
  do 3 (apply job_rel_step; [apply job_rel_of_result | intros ?]).
  apply job_rel_step; [apply job_rel_emit | intros _].
  do 2 (apply job_rel_step; [apply job_rel_of_result | intros ?]).
  apply job_rel_step; [apply job_rel_emit | intros _].
  eapply job_rel_bind; [apply job_rel_json_dump | by left | intros _].
  apply job_rel_step; [apply job_rel_print | intros _].
  apply job_rel_step; [apply job_rel_emit | intros _].
  apply job_rel_ret.
Qed.

(** Run from two worlds that agree on the configuration, the [except]
    block prints the same and leaves the same output file, whether it
    raises or not. *)
Lemma main_except_rel (args : Args) (P : string → Prop) (e : exception)
    (w1 w2 : World) :
  P (config args) → agree P w1 w2 →
  stdout (main_except args e w1).1 = stdout (main_except args e w2).1
  ∧ files (main_except args e w1).1 !! output args
    = files (main_except args e w2).1 !! output args.
Proof.
  intros Hconfig Hagree. rewrite !main_except_world. cbv zeta.
  pose proof (agree_emit P (ErrorLogged (exception_str e)) w1 w2 Hagree)
    as (_ & Hs & Hf).
  rewrite (recover_version_ext _ (files (emit_record (ErrorLogged (exception_str e)) w2))
             (config args)) by (by apply Hf).
  destruct (json_encodable _); cbn [stdout files put_line put_file];
    rewrite !lookup_insert_eq; by rewrite Hs.
Qed.

Lemma agree_enter (args : Args) (P : string → Prop) (fs1 fs2 : gmap string string) :
  (∀ p, P p → fs1 !! p = fs2 !! p) →
  agree P (enter args fs1) (enter args fs2).
Proof.
  intros Hfs. unfold enter. apply agree_emit.
  repeat split; simpl; try done.
  intros p Hp. destruct (decide (log_file args = p)) as [->|Hne].
  - rewrite !lookup_insert_eq. by rewrite (Hfs p Hp).
  - rewrite !lookup_insert_ne by done. by apply Hfs.
Qed.

(** C8: two runs with the same command line, the same libraries and the
    same clock, started on files that agree at the configuration path and
    at the input path, end with the same exit code, the same printed lines
    and the same content of the output file, byte for byte, the field
    latency_ms included; the other files, such as the log of an earlier
    run or an earlier report, have no influence. *)
Theorem main_deterministic (args : Args) (fs1 fs2 : gmap string string) :
  fs1 !! config args = fs2 !! config args →
  fs1 !! input args = fs2 !! input args →
  (main args fs1).2 = (main args fs2).2
  ∧ stdout (main args fs1).1 = stdout (main args fs2).1
  ∧ files (main args fs1).1 !! output args = files (main args fs2).1 !! output args.
Proof.
  intros Hconfig Hinput.
  set (P := λ p : string, p = config args ∨ p = input args).
  assert (agree P (enter args fs1) (enter args fs2)) as Hagree.
  { apply agree_enter. by intros p [->| ->]. }
  pose proof (main_try_rel args P (or_introl eq_refl) (or_intror eq_refl) _ _ Hagree)
    as Htry.
  unfold main.
  destruct (main_try args (enter args fs1)) as [w1 [l1|e1]],
           (main_try args (enter args fs2)) as [w2 [l2|e2]]; try done.
  - destruct Htry as (_ & _ & Hs & Hf). cbn [fst snd].
    repeat split; [done|]. apply Hf. by right.
  - destruct Htry as (<- & Hagree'). cbn [fst snd]. split; [done|].
    by apply (main_except_rel args P e1 w1 w2 (or_introl eq_refl)).
Qed.

(** ** More on the rolling mean and the signal *)

(** With a window of one row the rolling mean is the close itself, so no
    row signals. *)
Theorem window_one_never_signals (close : list float) (i : nat) :
  (i < length close)%nat →
  (∀ c, close !! i = Some (Some c) →
     ∃ m, rolling_mean 1 close !! i = Some (Some m) ∧ m == c)
  ∧ (close !! i = Some nan → rolling_mean 1 close !! i = Some nan)
  ∧ signal_cells 1 close !! i = Some 0%Z.
Proof.
  intros Hi.
  assert (close !! i = Some nan → rolling_mean 1 close !! i = Some nan) as Hnan.
  { intros Hc.
    destruct (lookup_lt_is_Some_2 (rolling_mean 1 close) i) as [[m|] Hr];
      [by rewrite rolling_mean_length | | done].
    assert (defined_at close i) as [c Hc'].
    { apply (rolling_mean_defined 1 i close); [lia | done | by exists m | lia]. }
    congruence. }
  split; [|split; [done|]].
  - intros c Hc. exists c. split; [by apply rolling_mean_1 | reflexivity].
  - destruct (lookup_lt_is_Some_2 close i Hi) as [[c|] Hc].
    + rewrite (signal_cells_lookup 1 i close _ _ Hc (rolling_mean_1 close i c Hc)).
      simpl. assert (c <= c) as Hle by lra. apply Qle_bool_iff in Hle. by rewrite Hle.
    + apply signal_cells_nan; [done | by apply Hnan].
Qed.

(** Rows appended to the table change no earlier signal. *)
Theorem signal_cells_append (w : nat) (close later : list float) :
  take (length close) (signal_cells w (close ++ later)) = signal_cells w close.
Proof.
  apply list_eq. intros i.
  destruct (decide (i < length close)%nat) as [Hi|Hi].
  - rewrite lookup_take_lt by done.
    destruct (lookup_lt_is_Some_2 close i Hi) as [c Hc].
    destruct (lookup_lt_is_Some_2 (rolling_mean w close) i) as [r Hr];
      [by rewrite rolling_mean_length|].
    rewrite (signal_cells_lookup w i close c r Hc Hr).
    apply signal_cells_lookup.
    + by rewrite lookup_app_l.
    + rewrite <- Hr. apply rolling_mean_no_lookahead; [done|].
      rewrite take_app_le by lia. done.
  - rewrite lookup_take_ge by lia.
    symmetry. apply lookup_ge_None. rewrite signal_cells_length. lia.
Qed.

(** ** The numbers of the report *)

(** [round(x, 4)] of a number of the unit interval stays in it, within half
    a unit of the fourth decimal and the rounding of the result to a
    binary64 number. *)
Lemma round4_near (x r : Q) :
  0 <= x <= 1 → round4 (Some x) = Some r →
  0 <= r <= 1
  ∧ x - (1 # 20000) - (1 # 18014398509481984) <= r
  ∧ r <= x + (1 # 20000) + (1 # 18014398509481984).
Proof.
  intros [H0 H1] [= <-].
  pose proof (Qround_half_even_near (x * 10000)) as [Hlo Hhi].
  destruct (Qround_half_even_range (x * 10000) 10000) as [Hr0 Hr1].
  { change (inject_Z 10000) with 10000. lra. }
  rewrite Zle_Qle in Hr0, Hr1.
  change (inject_Z 0) with 0 in Hr0. change (inject_Z 10000) with 10000 in Hr1.
  set (k := inject_Z (Qround_half_even (x * 10000))) in *.
  assert (0 <= k / 10000 <= 1) as Hunit.
  { split; [apply Qle_shift_div_l; lra | apply Qle_shift_div_r; lra]. }
  assert (x - (1 # 20000) <= k / 10000 <= x + (1 # 20000)) as Hnear.
  { split; [apply Qle_shift_div_l; lra | apply Qle_shift_div_r; lra]. }
  destruct (round_binary64_unit (k / 10000) Hunit) as [Hrange Herr].
  split; [done|]. lra.
Qed.

Lemma Zsum_bits (l : list Z) :
  Forall (λ z, z = 0%Z ∨ z = 1%Z) l → (0 ≤ Zsum l ≤ Z.of_nat (length l))%Z.
Proof. induction 1; simpl Zsum; simpl length; lia. Qed.

Lemma success_output_value (version : pyval) (rows : nat) (rate : float)
    (latency : Z) (seed : pyval) :
  py_getitem (success_output version rows rate latency seed) "value"
  = Ok (PFloat (round4 rate)).
Proof. reflexivity. Qed.

(** The signal rate is between 0 and 1. *)
Lemma signal_rate_unit (w : nat) (close : list float) :
  close ≠ [] →
  ∃ rate, cells_mean (inject_Z <$> signal_cells w close) = Some rate ∧ 0 <= rate <= 1.
Proof.
  intros Hne. eexists. split; [by apply signal_rate_value|].
  assert (0 < length close)%nat as Hn by (destruct close; [done | simpl; lia]).
  pose proof (inject_Z_of_nat_pos (length close) Hn) as Hpos.
  assert (Forall (λ z, z = 0%Z ∨ z = 1%Z) (drop (w - 1) (signal_cells w close)))
    as Hbits by apply Forall_drop, signal_cells_bits.
  apply Zsum_bits in Hbits as [Hs0 Hs1].
  rewrite length_drop, signal_cells_length in Hs1.
  assert (Zsum (drop (w - 1) (signal_cells w close)) ≤ Z.of_nat (length close))%Z
    as Hs1' by lia.
  rewrite Zle_Qle in Hs0, Hs1'. change (inject_Z 0) with 0 in Hs0.
  apply round_binary64_unit. split.
  - apply Qle_shift_div_l; lra.
  - apply Qle_shift_div_r; lra.
Qed.

(** In a run that loads its inputs, with a window that fits a 64-bit
    integer, the signal rate is between 0 and 1, and the reported value is
    between 0 and 1 and within 0.00005 of it, up to the rounding of the
    value to a binary64 number ([2 ^ -54]). *)
Theorem value_in_unit_interval (args : Args) (fs : gmap string string)
    (seed : pyval) (wz : Z) (version : pyval) (df : DataFrame) (close : list float) :
  loads args fs seed wz version df close →
  (wz < 2 ^ 63)%Z →
  ∃ locals rate value,
    main_locals args fs = Ok locals
    ∧ l_signal_rate locals = Some rate
    ∧ 0 <= rate <= 1
    ∧ py_getitem (l_output locals) "value" = Ok (PFloat (Some value))
    ∧ 0 <= value <= 1
    ∧ rate - (1 # 20000) - (1 # 18014398509481984) <= value
    ∧ value <= rate + (1 # 20000) + (1 # 18014398509481984).
Proof.
  intros Hloads Hbound.
  pose proof (main_try_loads _ _ _ _ _ _ _ Hloads Hbound) as Hrun.
  destruct Hloads as (_ & _ & Hdata & _ & Hlen).
  apply load_data_Ok in Hdata as (_ & _ & _ & Hrows & _).
  assert (close ≠ []) as Hne by (intros ->; simpl in Hlen; congruence).
  destruct (signal_rate_unit (Z.to_nat wz) close Hne) as (rate & Hrate & Hunit).
  destruct (round4 (Some rate)) as [value|] eqn:Hvalue; [|done].
  destruct (round4_near rate value Hunit Hvalue) as (Hrange & Hlo & Hhi).
  exists {| l_df := df_setitem
              (df_setitem df "rolling_mean" (SFloat (rolling_mean (Z.to_nat wz) close)))
              "signal" (SInt (signal_cells (Z.to_nat wz) close));
            l_signal_rate := Some rate;
            l_output := success_output version (df_rows df) (Some rate) elapsed_ms seed |},
         rate, value.
  unfold main_locals. cbv zeta in Hrun. rewrite Hrun, Hrate.
  cbn [snd l_signal_rate l_output].
  split; [done|]. split; [done|]. split; [done|].
  split; [by rewrite success_output_value, Hvalue|].
  split; [done|]. split; done.
Qed.

Lemma Qtrunc_floor (x : Q) : 0 <= x → Qtrunc x = Qfloor x.
Proof.
  destruct x as [n d]. unfold Qle, Qtrunc, Qfloor. simpl. intros Hn.
  apply Z.quot_div_nonneg; lia.
Qed.

(** With a clock that does not go back, and readings far enough from the
    largest binary64 number for the product of line 120 not to overflow,
    latency_ms is not negative.  It is the whole part of the product that
    line 120 computes in floating point, and that product is within one
    part in [2 ^ 51] (and [2 ^ -1065]) of the milliseconds elapsed. *)
Theorem elapsed_ms_floor :
  time_start env <= time_end env →
  (time_end env - time_start env) * 1000 < Qpow2 1023 →
  let elapsed := (time_end env - time_start env) * 1000 in
  let product := fmul (fsub (time_end env) (time_start env)) 1000 in
  (0 ≤ elapsed_ms)%Z
  ∧ inject_Z elapsed_ms <= product
  ∧ product < inject_Z (elapsed_ms + 1)
  ∧ elapsed - (elapsed * (1 # 2251799813685248) + Qpow2 (-1065)) <= product
  ∧ product <= elapsed + (elapsed * (1 # 2251799813685248) + Qpow2 (-1065)).
Proof.
  intros Hclock _ elapsed product.
  assert (0 <= time_end env - time_start env) as Hdiff by lra.
  pose proof (round_binary64_nonneg _ Hdiff) as Hsub.
  pose proof (round_binary64_error _ Hdiff) as [Hsub1 Hsub2].
  fold (fsub (time_end env) (time_start env)) in Hsub, Hsub1, Hsub2.
  assert (0 <= fsub (time_end env) (time_start env) * 1000) as Hprod by lra.
  pose proof (round_binary64_nonneg _ Hprod) as Hmul.
  pose proof (round_binary64_error _ Hprod) as [Hmul1 Hmul2].
  fold (fmul (fsub (time_end env) (time_start env)) 1000) in Hmul, Hmul1, Hmul2.
  fold product in Hmul, Hmul1, Hmul2.
  unfold elapsed_ms. fold product. rewrite (Qtrunc_floor _ Hmul).
  split; [change 0%Z with (Qfloor 0); by apply Qfloor_resp_le|].
  split; [apply Qfloor_le|]. split; [apply Qlt_floor|].
  assert (Qpow2 (-1065) == 1024 * Qpow2 (-1075)) as Hpow by (vm_compute; reflexivity).
  pose proof (Qpow2_pos (-1075)) as Heta.
  unfold elapsed. rewrite Hpow.
  set (d := time_end env - time_start env) in *.
  set (d' := fsub (time_end env) (time_start env)) in *.
  set (eta := Qpow2 (-1075)) in *.
  clearbody d d' product eta. clear Hpow.
  split; nra.
Qed.

(** ** A window longer than the table *)

Lemma rolling_mean_short (w : nat) (close : list float) :
  (length close < w)%nat → rolling_mean w close = replicate (length close) nan.
Proof.
  intros Hshort. apply list_eq. intros i.
  destruct (decide (i < length close)%nat) as [Hi|Hi].
  - rewrite lookup_replicate_2 by done. apply rolling_mean_warmup; [done | lia].
  - rewrite !(proj2 (lookup_ge_None _ _)); [done | |].
    + rewrite length_replicate. lia.
    + rewrite rolling_mean_length. lia.
Qed.

Lemma signal_cells_short (w : nat) (close : list float) :
  (length close < w)%nat → signal_cells w close = replicate (length close) 0%Z.
Proof.
  intros Hshort. apply list_eq. intros i.
  destruct (decide (i < length close)%nat) as [Hi|Hi].
  - rewrite lookup_replicate_2 by done.
    apply signal_cells_nan; [done|]. apply rolling_mean_warmup; [done | lia].
  - rewrite !(proj2 (lookup_ge_None _ _)); [done | |].
    + rewrite length_replicate. lia.
    + rewrite signal_cells_length. lia.
Qed.

Lemma Zsum_replicate_0 (n : nat) : Zsum (replicate n 0%Z) = 0%Z.
Proof. induction n as [|n IH]; simpl; [done | by rewrite IH]. Qed.

(** A window longer than the table, and short enough for a 64-bit integer,
    is no error: the rolling mean is NaN and the signal 0 at every row, and
    the run ends with exit code 0 and the value 0. *)
Theorem window_longer_than_table (args : Args) (fs : gmap string string)
    (seed : pyval) (wz : Z) (version : pyval) (df : DataFrame) (close : list float) :
  loads args fs seed wz version df close →
  (Z.of_nat (df_rows df) < wz < 2 ^ 63)%Z →
  (main args fs).2 = 0%Z
  ∧ ∃ locals,
      main_locals args fs = Ok locals
      ∧ df_getitem (l_df locals) "rolling_mean"
        = Ok (SFloat (replicate (df_rows df) nan))
      ∧ df_getitem (l_df locals) "signal" = Ok (SInt (replicate (df_rows df) 0%Z))
      ∧ l_signal_rate locals = Some 0
      ∧ l_output locals = success_output version (df_rows df) (Some 0) elapsed_ms seed.
Proof.
  intros Hloads [Hlong Hbound].
  pose proof (main_try_loads _ _ _ _ _ _ _ Hloads Hbound) as Hrun. cbv zeta in Hrun.
  destruct Hloads as (_ & _ & Hdata & _ & Hlen).
  apply load_data_Ok in Hdata as (_ & _ & _ & Hrows & _).
  assert (length close < Z.to_nat wz)%nat as Hshort by lia.
  assert (cells_mean (inject_Z <$> signal_cells (Z.to_nat wz) close) = Some 0) as Hrate.
  { rewrite cells_mean_Some.
    - f_equal. apply (round_binary64_Z _ 0); [|simpl; lia].
      rewrite Qsum_inject_Z, signal_cells_short, Zsum_replicate_0 by done.
      unfold Qdiv. change (inject_Z 0) with 0. ring.
    - rewrite signal_cells_short by done. rewrite <- Hlen in Hrows.
      by destruct (length close). }
  split; [unfold main; by rewrite Hrun|].
  eexists. unfold main_locals. rewrite Hrun. split; [reflexivity|].
  cbn [l_df l_signal_rate l_output]. rewrite Hrate.
  rewrite df_getitem_set_ne, !df_getitem_set_eq by done.
  rewrite rolling_mean_short, signal_cells_short, Hlen by done. done.
Qed.

(** ** What every run does *)

Lemma string_app_nil_r (s : string) : s +:+ "" = s.
Proof.
  induction s as [|a s IH]; [done|].
  change (String a (s +:+ "") = String a s). by f_equal.
Qed.

Lemma string_app_assoc (s t u : string) : (s +:+ t) +:+ u = s +:+ (t +:+ u).
Proof.
  induction s as [|a s IH]; [done|].
  change (String a ((s +:+ t) +:+ u) = String a (s +:+ (t +:+ u))). by f_equal.
Qed.

Lemma job_hoare_bind {A B} (I I' : World → Prop) (m : Job A) (f : A → Job B)
    (Q : B → World → Prop) (E : exception → World → Prop) :
  job_hoare I m (λ _, I') E → (∀ a, job_hoare I' (f a) Q E) →
  job_hoare I (m ≫= f) Q E.
Proof.
  intros Hm Hf w Hw. specialize (Hm w Hw). unfold mbind, job_bind.
  destruct (m w) as [w' [a|e]]; [by apply Hf | done].
Qed.

Lemma job_hoare_of_result {A} (I : World → Prop) (r : result A) :
  job_hoare I (job_of_result r) (λ _, I) (λ _, I).
Proof. intros w Hw. unfold job_of_result. by destruct r. Qed.

Lemma job_hoare_read {A} (I : World → Prop) (f : gmap string string → result A) :
  job_hoare I (read_files f) (λ _, I) (λ _, I).
Proof. intros w Hw. unfold read_files. by destruct (f (files w)). Qed.

Lemma job_hoare_emit (I : World → Prop) (E : exception → World → Prop)
    (ev : log_event) :
  (∀ w, I w → I (emit_record ev w)) →
  job_hoare I (logging_emit ev) (λ _, I) E.
Proof. intros Hkeep w Hw. by apply Hkeep. Qed.

(** The [try] block up to the report: line 93 to line 124. *)
Lemma main_try_hoare (args : Args) (I : World → Prop)
    (Q : Locals → World → Prop) :
  (∀ ev w, I w → I (emit_record ev w)) →
  (∀ version rows rate seed df,
     let out := success_output version rows rate elapsed_ms seed in
     job_hoare I
       (_ ← json_dump (output args) out;
        _ ← print (json_dumps env out);
        _ ← logging_info (JobCompleted elapsed_ms);
        mret {| l_df := df; l_signal_rate := rate; l_output := out |})
       Q (λ _, I)) →
  job_hoare I (main_try args) Q (λ _, I).
Proof.
  intros Hemit Htail. unfold main_try, logging_info.
  apply (job_hoare_bind I I); [apply job_hoare_read | intros cfg].
  do 4 (apply (job_hoare_bind I I); [apply job_hoare_of_result | intros ?]).
  apply (job_hoare_bind I I); [apply job_hoare_emit, Hemit | intros _].
  apply (job_hoare_bind I I); [apply job_hoare_read | intros df].
  cbv zeta.
  apply (job_hoare_bind I I); [apply job_hoare_emit, Hemit | intros _].
  do 2 (apply (job_hoare_bind I I); [apply job_hoare_of_result | intros ?]).
  apply (job_hoare_bind I I); [apply job_hoare_emit, Hemit | intros _].
  do 3 (apply (job_hoare_bind I I); [apply job_hoare_of_result | intros ?]).
  apply (job_hoare_bind I I); [apply job_hoare_emit, Hemit | intros _].
  do 2 (apply (job_hoare_bind I I); [apply job_hoare_of_result | intros ?]).
  apply (job_hoare_bind I I); [apply job_hoare_emit, Hemit | intros _].
  apply Htail.
Qed.

(** A property of the world that logging, printing and writing the output
    file keep holds when the run ends. *)
Lemma main_keeps (args : Args) (fs : gmap string string) (I : World → Prop) :
  (∀ ev w, I w → I (emit_record ev w)) →
  (∀ text w, I w → I (put_file (output args) text w)) →
  (∀ line w, I w → I (put_line line w)) →
  I (setup_logging (log_file args) (start_process fs)) →
  I (main args fs).1.
Proof.
  intros Hemit Hput Hline Hstart.
  assert (I (enter args fs)) as Henter by (by apply Hemit).
  assert (job_hoare I (main_try args) (λ _, I) (λ _, I)) as Htry.
  { apply main_try_hoare; [done|]. intros version rows rate seed df out w Hw.
    unfold mbind, job_bind, json_dump, print, logging_info, logging_emit, mret, job_ret.
    destruct (json_encodable out); [by apply Hemit, Hline, Hput | by apply Hput]. }
  specialize (Htry _ Henter). unfold main.
  destruct (main_try args (enter args fs)) as [w [locals|e]]; [done|].
  rewrite main_except_world. cbv zeta. cbn [fst].
  destruct (json_encodable _); [by apply Hline, Hput, Hemit | by apply Hput, Hemit].
Qed.

(** A run changes no file but its output file and its log file. *)
Theorem main_keeps_other_files (args : Args) (fs : gmap string string) (p : string) :
  p ≠ output args → p ≠ log_file args →
  files (main args fs).1 !! p = fs !! p.
Proof.
  intros Hout Hlog.
  apply (main_keeps args fs
           (λ w, (log_handler w = None ∨ log_handler w = Some (log_file args))
                 ∧ files w !! p = fs !! p)).
  - intros ev w [Hl Hp]. unfold emit_record.
    destruct Hl as [Hl|Hl]; rewrite Hl; [by split; [left|]|].
    split; [by right|]. simpl. by rewrite lookup_insert_ne.
  - intros text w [Hl Hp]. split; [done|]. simpl. by rewrite lookup_insert_ne.
  - by intros line w [Hl Hp].
  - split; [by right|]. simpl. by rewrite lookup_insert_ne.
Qed.

(** A run only appends to its log file: what the file held is still
    there, followed by the line of the first record and then the others. *)
Theorem main_appends_to_log (args : Args) (fs : gmap string string) :
  log_file args ≠ output args →
  ∃ more,
    files (main args fs).1 !! log_file args
    = Some (default "" (fs !! log_file args) +:+ format_record env JobStarted +:+ more).
Proof.
  intros Hne.
  set (old := default "" (fs !! log_file args)).
  pose (I := λ w : World,
          log_handler w = Some (log_file args)
          ∧ ∃ more, files w !! log_file args
                    = Some (old +:+ format_record env JobStarted +:+ more)).
  assert (∀ ev w, I w → I (emit_record ev w)) as Hemit.
  { intros ev w [Hl (more & Hmore)]. unfold I, emit_record. rewrite Hl.
    split; [done|]. exists (more +:+ format_record env ev). simpl.
    rewrite lookup_insert_eq, Hmore. simpl. by rewrite !string_app_assoc. }
  assert (I (enter args fs)) as Henter.
  { unfold I, enter, emit_record. simpl. split; [done|]. exists "".
    simpl. rewrite !lookup_insert_eq. simpl. by rewrite string_app_nil_r. }
  assert (job_hoare I (main_try args) (λ _, I) (λ _, I)) as Htry.
  { apply main_try_hoare; [done|]. intros version rows rate seed df out w Hw.
    assert (∀ text, I (put_file (output args) text w)) as Hput.
    { intros text. destruct Hw as [Hl (more & Hmore)]. split; [done|].
      exists more. simpl. by rewrite lookup_insert_ne. }
    unfold mbind, job_bind, json_dump, print, logging_info, logging_emit, mret, job_ret.
    destruct (json_encodable out); [|by apply Hput].
    apply Hemit. destruct (Hput (json_dumps env out)) as [Hl Hmore]. by split. }
  specialize (Htry _ Henter). unfold main.
  destruct (main_try args (enter args fs)) as [w [locals|e]]; [by destruct Htry|].
  rewrite main_except_world. cbv zeta. cbn [fst].
  apply (Hemit (ErrorLogged (exception_str e))) in Htry as [Hl (more & Hmore)].
  exists more. destruct (json_encodable _); simpl; by rewrite lookup_insert_ne.
Qed.

(** Every run ends in one of three ways: with exit code 0, a success
    report in the output file and the same text printed; with exit code 1,
    an error report in the output file and one line ["Error: ..."] printed
    with the same message; or, when json cannot encode the version that the
    [except] block has read again, with exit code 1, the output file
    holding the pieces of the error report written before the encoder
    failed, and nothing printed. *)
Theorem main_writes_one_report (args : Args) (fs : gmap string string) :
  log_file args ≠ output args →
  ((main args fs).2 = 0%Z
   ∧ ∃ version rows rate seed,
       let text := json_dumps env (success_output version rows rate elapsed_ms seed) in
       files (main args fs).1 !! output args = Some text
       ∧ stdout (main args fs).1 = [text])
  ∨ ((main args fs).2 = 1%Z
     ∧ ∃ version message,
         json_encodable version = true
         ∧ files (main args fs).1 !! output args
           = Some (json_dumps env (error_output version message))
         ∧ stdout (main args fs).1 = ["Error: " +:+ message])
  ∨ ((main args fs).2 = 1%Z
     ∧ ∃ version message,
         json_encodable version = false
         ∧ files (main args fs).1 !! output args
           = Some (json_fragment env (error_output version message))
         ∧ stdout (main args fs).1 = []).
Proof.
  intros Hne.
  pose (I := λ w : World, log_handler w = Some (log_file args) ∧ stdout w = []).
  pose (Q := λ (_ : Locals) (w : World),
          ∃ version rows rate seed,
            let text := json_dumps env (success_output version rows rate elapsed_ms seed) in
            files w !! output args = Some text ∧ stdout w = [text]).
  assert (∀ ev w, I w → I (emit_record ev w)) as Hemit.
  { intros ev w [Hl Hs]. unfold I, emit_record. by rewrite Hl. }
  assert (I (enter args fs)) as Henter by (by apply Hemit).
  assert (job_hoare I (main_try args) Q (λ _, I)) as Htry.
  { apply main_try_hoare; [done|]. intros version rows rate seed df out w [Hl Hs].
    unfold mbind, job_bind, json_dump, print, logging_info, logging_emit, mret, job_ret.
    destruct (json_encodable out); [|done].
    exists version, rows, rate, seed. unfold emit_record. simpl. rewrite Hl. simpl.
    rewrite lookup_insert_ne, lookup_insert_eq, Hs by done. done. }
  specialize (Htry _ Henter). unfold main.
  destruct (main_try args (enter args fs)) as [w [locals|e]].
  - left. split; [done|]. exact Htry.
  - right. destruct Htry as [Hl Hs].
    rewrite main_except_world. cbv zeta. cbn [fst snd].
    destruct (json_encodable (recover_version _ _)) eqn:Henc; [left | right];
      (split; [done|]); eexists _, (exception_str e); (split; [exact Henc|]);
      simpl; rewrite lookup_insert_eq; (split; [reflexivity|]);
      unfold emit_record; rewrite Hl; simpl; by rewrite Hs.
Qed.

(** ** What the loaders accept *)

Lemma load_config_mapping (fs : gmap string string) (path text : string)
    (items : list (pyval * pyval)) (seed window version : pyval) :
  fs !! path = Some text →
  safe_load env text = Ok (PDict items) →
  dict_get "seed" items = Some seed →
  dict_get "window" items = Some window →
  dict_get "version" items = Some version →
  load_config fs path
  = if negb (is_int seed) then Raise (ValueError "Seed must be integer")
    else if negb (is_int window) || (default 0 (int_value window) <=? 0)%Z
         then Raise (ValueError "Window must be positive integer")
         else if negb (is_str version) then Raise (ValueError "Version must be string")
              else Ok (PDict items).
Proof.
  intros Hfile Hdoc Hseed Hwindow Hversion.
  unfold load_config. rewrite Hfile, Hdoc.
  change (Ok (PDict items) ≫= ?f) with (f (PDict items)). cbv beta iota.
  rewrite check_keys_dict. unfold first_missing_key, required_keys.
  cbn [List.find]. rewrite !(dict_get_Some _ _ _ Hseed).
  rewrite !(dict_get_Some _ _ _ Hwindow), !(dict_get_Some _ _ _ Hversion).
  cbn [negb]. change (Ok () ≫= ?f) with (f ()). cbv beta.
  unfold py_getitem. rewrite Hseed, Hwindow, Hversion.
  change (Ok seed ≫= ?f) with (f seed). cbv beta.
  destruct (negb (is_int seed)); [done|].
  change (Ok window ≫= ?f) with (f window). cbv beta.
  destruct (negb (is_int window) || (default 0 (int_value window) <=? 0)%Z); [done|].
  change (Ok version ≫= ?f) with (f version). cbv beta. done.
Qed.

Lemma py_getitem_Ok (doc : pyval) (key : string) (v : pyval) :
  py_getitem doc key = Ok v →
  ∃ items, doc = PDict items ∧ dict_get key items = Some v.
Proof.
  destruct doc as [| | | | | |items| | | |]; try done. simpl.
  destruct (dict_get key items) as [x|] eqn:Hget; [|done].
  intros [= <-]. by exists items.
Qed.

(** [load_config] returns exactly when the document is a mapping with an
    integer (or boolean) seed, a positive integer (or [true]) window and a
    string version; what it returns is the parsed document, unchanged. *)
Theorem load_config_accepts_iff (fs : gmap string string) (path text : string)
    (doc : pyval) :
  fs !! path = Some text →
  safe_load env text = Ok doc →
  (∀ cfg, load_config fs path = Ok cfg → cfg = doc)
  ∧ (load_config fs path = Ok doc ↔
     ∃ items seed window version,
       doc = PDict items
       ∧ dict_get "seed" items = Some seed ∧ is_int seed = true
       ∧ dict_get "window" items = Some window ∧ is_int window = true
       ∧ (0 < default 0 (int_value window))%Z
       ∧ dict_get "version" items = Some version ∧ is_str version = true).
Proof.
  intros Hfile Hdoc. split; [|split].
  - intros cfg Hcfg.
    destruct (load_config_Ok _ _ _ Hcfg) as (text' & _ & _ & _ & Hfile' & Hdoc' & _).
    congruence.
  - intros Hcfg.
    destruct (load_config_Ok _ _ _ Hcfg)
      as (_ & seed & window & version & _ & _ & Hseed & Hiseed & Hwindow & Hiwindow
          & Hpos & Hversion & Hstr).
    apply py_getitem_Ok in Hseed as (items & -> & Hseed).
    apply py_getitem_Ok in Hwindow as (items' & [= <-] & Hwindow).
    apply py_getitem_Ok in Hversion as (items' & [= <-] & Hversion).
    by exists items, seed, window, version.
  - intros (items & seed & window & version & -> & Hseed & Hiseed & Hwindow & Hiwindow
            & Hpos & Hversion & Hstr).
    rewrite (load_config_mapping fs path text items seed window version) by done.
    rewrite Hiseed, Hiwindow, Hstr.
    destruct (Z.leb_spec (default 0%Z (int_value window)) 0); [lia | done].
Qed.

(** The values are checked in the order seed, window, version: a bad seed
    is reported whatever the window and the version are, and with a good
    seed a bad window is reported whatever the version is. *)
Theorem load_config_validation_order (fs : gmap string string) (path text : string)
    (items : list (pyval * pyval)) (seed window version : pyval) :
  fs !! path = Some text →
  safe_load env text = Ok (PDict items) →
  dict_get "seed" items = Some seed →
  dict_get "window" items = Some window →
  dict_get "version" items = Some version →
  (is_int seed = false →
     load_config fs path = Raise (ValueError "Seed must be integer"))
  ∧ (is_int seed = true →
     is_int window = false ∨ (default 0 (int_value window) ≤ 0)%Z →
     load_config fs path = Raise (ValueError "Window must be positive integer")).
Proof.
  intros Hfile Hdoc Hseed Hwindow Hversion.
  rewrite (load_config_mapping fs path text items seed window version) by done.
  split.
  - by intros ->.
  - intros -> Hbad. cbn [negb].
    destruct Hbad as [-> | Hle]; [done|].
    apply Z.leb_le in Hle. rewrite Hle. by rewrite orb_true_r.
Qed.

Lemma has_column_getitem (df : DataFrame) (name : string) :
  has_column name df = true → ∃ s, df_getitem df name = Ok s.
Proof.
  unfold has_column, df_getitem.
  induction (df_columns df) as [|[n c] cols IH]; simpl; [done|].
  destruct (String.eqb name n); [by eexists | apply IH].
Qed.

(** [load_data] returns a table exactly when the file exists and parses to
    that table, with at least one row and a close column; [df["close"]]
    then does not fail. *)
Theorem load_data_accepts_iff (fs : gmap string string) (path : string)
    (df : DataFrame) :
  (load_data fs path = Ok df ↔
   ∃ text, fs !! path = Some text ∧ read_csv env text = Ok df
           ∧ df_rows df ≠ 0%nat ∧ has_column "close" df = true)
  ∧ (load_data fs path = Ok df → ∃ column, df_getitem df "close" = Ok column).
Proof.
  assert (load_data fs path = Ok df →
          ∃ text, fs !! path = Some text ∧ read_csv env text = Ok df
                  ∧ df_rows df ≠ 0%nat ∧ has_column "close" df = true) as Hinv
    by apply load_data_Ok.
  split; [split; [done|]|].
  - intros (text & Hfile & Hread & Hrows & Hclose).
    unfold load_data. rewrite Hfile, Hread.
    assert (df_empty df = false) as ->.
    { unfold df_empty, has_column in *. destruct (df_rows df); [done|].
      by destruct (df_columns df). }
    by rewrite Hclose.
  - intros Hload. destruct (Hinv Hload) as (_ & _ & _ & _ & Hclose).
    by apply has_column_getitem.
Qed.

(** ** Error reports *)

(** The output file of a run whose configuration does not load. *)
Lemma main_config_raise_output (args : Args) (fs : gmap string string)
    (e : exception) :
  log_file args ≠ config args →
  load_config fs (config args) = Raise e →
  let report := error_output (recover_version fs (config args)) (exception_str e) in
  (main args fs).2 = 1%Z
  ∧ files (main args fs).1 !! output args
    = Some (if json_encodable (recover_version fs (config args))
            then json_dumps env report else json_fragment env report).
Proof.
  intros Hlc Hload.
  apply (main_raise_output args fs (enter args fs) e);
    [done | | apply enter_handler | by apply enter_files_ne].
  apply main_try_config_raise.
  by rewrite (load_config_ext _ fs) by (by apply enter_files_ne).
Qed.

(** The report of such a run, when json can encode the version. *)
Lemma main_config_raise (args : Args) (fs : gmap string string) (e : exception) :
  log_file args ≠ config args →
  load_config fs (config args) = Raise e →
  json_encodable (recover_version fs (config args)) = true →
  (main args fs).2 = 1%Z
  ∧ files (main args fs).1 !! output args
    = Some (json_dumps env (error_output (recover_version fs (config args))
                                         (exception_str e))).
Proof.
  intros Hlc Hload Henc.
  destruct (main_config_raise_output args fs e Hlc Hload) as [Hcode Hfile].
  by rewrite Henc in Hfile.
Qed.

(** Without a configuration file the run ends with exit code 1 and an
    error report with the version "unknown". *)
Theorem main_config_absent (args : Args) (fs : gmap string string) :
  log_file args ≠ config args →
  fs !! config args = None →
  (main args fs).2 = 1%Z
  ∧ files (main args fs).1 !! output args
    = Some (json_dumps env (error_output (PStr "unknown") "Config file not found")).
Proof.
  intros Hlc Hfile.
  assert (recover_version fs (config args) = PStr "unknown") as Hrecover
    by (unfold recover_version; by rewrite Hfile).
  rewrite <- Hrecover.
  apply (main_config_raise args fs (FileNotFoundError "Config file not found"));
    [done | | by rewrite Hrecover].
  unfold load_config. by rewrite Hfile.
Qed.

(** A configuration file that does not parse, or that is empty, gives an
    error report with the version "unknown"; the message is the one of the
    parser, passed on as it is, or "Config file is empty". *)
Theorem main_config_unreadable (args : Args) (fs : gmap string string) (text : string) :
  log_file args ≠ config args →
  fs !! config args = Some text →
  (∀ e, safe_load env text = Raise e →
     (main args fs).2 = 1%Z
     ∧ files (main args fs).1 !! output args
       = Some (json_dumps env (error_output (PStr "unknown") (exception_str e))))
  ∧ (safe_load env text = Ok PNone →
     (main args fs).2 = 1%Z
     ∧ files (main args fs).1 !! output args
       = Some (json_dumps env (error_output (PStr "unknown") "Config file is empty"))).
Proof.
  intros Hlc Hfile. split.
  - intros e Hdoc.
    assert (recover_version fs (config args) = PStr "unknown") as Hrecover
      by (unfold recover_version; by rewrite Hfile, Hdoc).
    rewrite <- Hrecover.
    apply main_config_raise; [done | | by rewrite Hrecover].
    unfold load_config. by rewrite Hfile, Hdoc.
  - intros Hdoc.
    assert (recover_version fs (config args) = PStr "unknown") as Hrecover
      by (unfold recover_version; by rewrite Hfile, Hdoc).
    rewrite <- Hrecover.
    apply (main_config_raise args fs (ValueError "Config file is empty"));
      [done | | by rewrite Hrecover].
    unfold load_config. by rewrite Hfile, Hdoc.
Qed.

(** When [load_config] rejects a mapping, for whatever reason, the run
    ends with exit code 1 and the error report has the value of the
    mapping's version key, and "unknown" when the mapping has no such key.
    When that value is one json cannot encode, the output file holds the
    pieces of this report that were written before the encoder failed. *)
Theorem main_config_rejected (args : Args) (fs : gmap string string) (text : string)
    (items : list (pyval * pyval)) (e : exception) :
  log_file args ≠ config args →
  fs !! config args = Some text →
  safe_load env text = Ok (PDict items) →
  load_config fs (config args) = Raise e →
  let version := default (PStr "unknown") (dict_get "version" items) in
  let report := error_output version (exception_str e) in
  (main args fs).2 = 1%Z
  ∧ files (main args fs).1 !! output args
    = Some (if json_encodable version then json_dumps env report
            else json_fragment env report).
Proof.
  intros Hlc Hfile Hdoc Hload version report.
  assert (recover_version fs (config args) = version) as Hrecover.
  { unfold recover_version. rewrite Hfile, Hdoc.
    change (Ok (PDict items) ≫= ?f) with (f (PDict items)). cbv beta.
    unfold py_getitem, version. by destruct (dict_get "version" items). }
  unfold report. rewrite <- Hrecover.
  by apply main_config_raise_output.
Qed.

Lemma main_try_seed_raise (args : Args) (w : World) (cfg seed window version : pyval)
    (e : exception) :
  load_config (files w) (config args) = Ok cfg →
  py_getitem cfg "seed" = Ok seed →
  py_getitem cfg "window" = Ok window →
  py_getitem cfg "version" = Ok version →
  np_random_seed seed = Raise e →
  main_try args w = (w, Raise e).
Proof.
  intros Hcfg Hseed Hwindow Hversion Hnp.
  unfold main_try, mbind, job_bind, read_files, job_of_result.
  by rewrite Hcfg, Hseed, Hwindow, Hversion, Hnp.
Qed.

(** [load_config] puts no bound on the seed, but numpy does: with a seed
    below 0 or above 2**32 - 1 the run ends with an error report before it
    reads the table. *)
Theorem main_seed_out_of_range (args : Args) (fs : gmap string string)
    (cfg : pyval) (z : Z) (version : pyval) :
  log_file args ≠ config args →
  load_config fs (config args) = Ok cfg →
  py_getitem cfg "seed" = Ok (PInt z) →
  py_getitem cfg "version" = Ok version →
  (z < 0 ∨ 2 ^ 32 - 1 < z)%Z →
  (main args fs).2 = 1%Z
  ∧ files (main args fs).1 !! output args
    = Some (json_dumps env
              (error_output version "Seed must be between 0 and 2**32 - 1")).
Proof.
  intros Hlc Hcfg Hseed Hversion Hrange.
  destruct (load_config_Ok _ _ _ Hcfg)
    as (_ & _ & window & _ & _ & _ & _ & _ & Hwindow & _).
  rewrite <- (recover_version_loaded fs (config args) cfg version Hcfg Hversion).
  apply (main_raise args fs (enter args fs)
           (ValueError "Seed must be between 0 and 2**32 - 1"));
    [done | | apply enter_handler | by apply enter_files_ne
     | by eapply recover_version_encodable].
  apply (main_try_seed_raise args _ cfg (PInt z) window version); try done.
  - by rewrite (load_config_ext _ fs) by (by apply enter_files_ne).
  - unfold np_random_seed. simpl.
    destruct (Z.ltb_spec z 0); [done|].
    destruct (Z.ltb_spec (2 ^ 32 - 1) z); [done | lia].
Qed.

Lemma main_try_data_raise (args : Args) (w : World) (l : string)
    (cfg seed window version : pyval) (e : exception) :
  log_handler w = Some l → l ≠ input args →
  load_config (files w) (config args) = Ok cfg →
  py_getitem cfg "seed" = Ok seed →
  py_getitem cfg "window" = Ok window →
  py_getitem cfg "version" = Ok version →
  np_random_seed seed = Ok tt →
  load_data (files w) (input args) = Raise e →
  main_try args w = (emit_record (ConfigLoaded seed window version) w, Raise e).
Proof.
  intros Hl Hne Hcfg Hseed Hwindow Hversion Hnp Hdata.
  unfold main_try, mbind, job_bind, read_files, job_of_result, logging_info,
    logging_emit.
  rewrite Hcfg, Hseed, Hwindow, Hversion, Hnp.
  rewrite (load_data_ext _ (files w)) by (by eapply emit_record_files_ne).
  by rewrite Hdata.
Qed.

(** When the configuration loads and [load_data] fails, the error report
    has the version of the configuration and the message of [load_data]. *)
Theorem main_data_rejected (args : Args) (fs : gmap string string)
    (seed : pyval) (wz : Z) (version : pyval) (e : exception) :
  config_loads args fs seed wz version →
  log_file args ≠ input args →
  load_data fs (input args) = Raise e →
  (main args fs).2 = 1%Z
  ∧ files (main args fs).1 !! output args
    = Some (json_dumps env (error_output version (exception_str e))).
Proof.
  intros (Hlc & (cfg & Hcfg & Hseed & Hwindow & Hversion) & Hnp) Hli Hdata.
  rewrite <- (recover_version_loaded fs (config args) cfg version Hcfg Hversion).
  assert (load_config (files (enter args fs)) (config args) = Ok cfg) as Hcfg'.
  { by rewrite (load_config_ext _ fs) by (by apply enter_files_ne). }
  assert (load_data (files (enter args fs)) (input args) = Raise e) as Hdata'.
  { by rewrite (load_data_ext _ fs) by (by apply enter_files_ne). }
  apply (main_raise args fs
           (emit_record (ConfigLoaded seed (PInt wz) version) (enter args fs)) e);
    [done | | | | by eapply recover_version_encodable].
  - exact (main_try_data_raise args _ (log_file args) cfg seed (PInt wz) version e
             (enter_handler args fs) Hli Hcfg' Hseed Hwindow Hversion Hnp Hdata').
  - by rewrite emit_record_handler, enter_handler.
  - rewrite (emit_record_files_ne _ _ (log_file args));
      [by apply enter_files_ne | apply enter_handler | done].
Qed.

(** A window written as the boolean [true] passes [load_config], [bool]
    being a kind of [int], and then fails in pandas: the run ends with an
    error report. *)
Theorem main_boolean_window (args : Args) (fs : gmap string string) (text : string)
    (items : list (pyval * pyval)) (seed version : pyval) (df : DataFrame) :
  log_file args ≠ config args → log_file args ≠ input args →
  fs !! config args = Some text →
  safe_load env text = Ok (PDict items) →
  dict_get "seed" items = Some seed → is_int seed = true →
  np_random_seed seed = Ok tt →
  dict_get "window" items = Some (PBool true) →
  dict_get "version" items = Some version → is_str version = true →
  load_data fs (input args) = Ok df →
  load_config fs (config args) = Ok (PDict items)
  ∧ (main args fs).2 = 1%Z
  ∧ files (main args fs).1 !! output args
    = Some (json_dumps env
              (error_output version "window must be an integer 0 or greater")).
Proof.
  intros Hlc Hli Hfile Hdoc Hseed Hiseed Hnp Hwindow Hversion Hstr Hdata.
  assert (load_config fs (config args) = Ok (PDict items)) as Hcfg.
  { rewrite (load_config_mapping fs _ text items seed (PBool true) version) by done.
    by rewrite Hiseed, Hstr. }
  split; [done|].
  assert (py_getitem (PDict items) "version" = Ok version) as Hgv
    by (simpl; by rewrite Hversion).
  rewrite <- (recover_version_loaded fs (config args) _ version Hcfg Hgv).
  destruct (load_data_Ok _ _ _ Hdata) as (_ & _ & _ & _ & Hclose).
  destruct (has_column_getitem df "close" Hclose) as [column Hcol].
  assert (load_config (files (enter args fs)) (config args) = Ok (PDict items)) as Hcfg'.
  { by rewrite (load_config_ext _ fs) by (by apply enter_files_ne). }
  assert (load_data (files (enter args fs)) (input args) = Ok df) as Hdata'.
  { by rewrite (load_data_ext _ fs) by (by apply enter_files_ne). }
  apply (main_raise args fs
           (emit_record (DataLoaded (df_rows df))
              (emit_record (ConfigLoaded seed (PBool true) version) (enter args fs)))
           (ValueError "window must be an integer 0 or greater"));
    [done | | | | by eapply recover_version_encodable].
  - apply (main_try_rolling_raise args _ (log_file args) (PDict items) seed
             (PBool true) version df column _ (enter_handler args fs) Hli Hcfg');
      try done; simpl; by rewrite ?Hseed, ?Hwindow, ?Hversion.
  - by rewrite !emit_record_handler, enter_handler.
  - rewrite !(emit_record_files_ne _ _ (log_file args));
      rewrite ?emit_record_handler, ?enter_handler; try done.
    by apply enter_files_ne.
Qed.

(** A document that is a string is never accepted.  Its text is searched
    for the three keys as substrings: without the word seed the error is
    the missing key, and with all three words it is the error of indexing
    a string with a key, not a [ValueError]. *)
Theorem load_config_string_document (fs : gmap string string) (path text s : string) :
  fs !! path = Some text →
  safe_load env text = Ok (PStr s) →
  (∀ cfg, load_config fs path ≠ Ok cfg)
  ∧ (is_substring "seed" s = false →
     load_config fs path = Raise (ValueError "Missing config key: seed"))
  ∧ (is_substring "seed" s = true → is_substring "window" s = true →
     is_substring "version" s = true →
     load_config fs path = Raise (InterpreterError (BadIndex (PStr s) (PStr "seed")))).
Proof.
  intros Hfile Hdoc.
  assert (load_config fs path
          = match List.find (λ key, negb (is_substring key s)) required_keys with
            | Some key => Raise (ValueError ("Missing config key: " +:+ key))
            | None => Raise (InterpreterError (BadIndex (PStr s) (PStr "seed")))
            end) as ->.
  { unfold load_config. rewrite Hfile, Hdoc.
    change (Ok (PStr s) ≫= ?f) with (f (PStr s)). cbv beta iota.
    unfold required_keys. simpl.
    destruct (is_substring "seed" s); simpl; [|done].
    destruct (is_substring "window" s); simpl; [|done].
    destruct (is_substring "version" s); simpl; done. }
  split; [|split].
  - intros cfg. by destruct (List.find _ required_keys).
  - intros Hseed. unfold required_keys. simpl. by rewrite Hseed.
  - intros Hseed Hwindow Hversion. unfold required_keys. simpl.
    by rewrite Hseed, Hwindow, Hversion.
Qed.

(** A run ends with exit code 0 only if the configuration loads, numpy
    takes the seed, the window is an integer and not a boolean, the table
    loads and its close column is numeric. *)
Theorem main_succeeds_only_if (args : Args) (fs : gmap string string) :
  log_file args ≠ config args → log_file args ≠ input args →
  (main args fs).2 = 0%Z →
  ∃ seed wz version df column close,
    config_loads args fs seed wz version
    ∧ load_data fs (input args) = Ok df
    ∧ df_getitem df "close" = Ok column
    ∧ ensure_float64 column = Some close.
Proof.
  intros Hlc Hli Hexit. unfold main in Hexit.
  destruct (main_try args (enter args fs)) as [w [locals|e]] eqn:Htry; [|done].
  clear Hexit. unfold main_try, mbind, job_bind, read_files, job_of_result,
    logging_info, logging_emit in Htry.
  rewrite (load_config_ext _ fs) in Htry by (by apply enter_files_ne).
  destruct (load_config fs (config args)) as [cfg|] eqn:Hcfg; [|done].
  destruct (py_getitem cfg "seed") as [seed|] eqn:Hseed; [|done].
  destruct (py_getitem cfg "window") as [window|] eqn:Hwindow; [|done].
  destruct (py_getitem cfg "version") as [version|] eqn:Hversion; [|done].
  destruct (np_random_seed seed) as [[]|] eqn:Hnp; [|done].
  rewrite (load_data_ext _ fs) in Htry.
  2:{ rewrite (emit_record_files_ne _ _ (log_file args));
        [by apply enter_files_ne | apply enter_handler | done]. }
  destruct (load_data fs (input args)) as [df|] eqn:Hdata; [|done].
  destruct (df_getitem df "close") as [column|] eqn:Hcol; [|done].
  destruct (series_rolling_mean window column) as [rolling|] eqn:Hroll; [|done].
  clear Htry. unfold series_rolling_mean in Hroll.
  destruct window as [| |wz| | | | | | | |]; try done.
  destruct (ensure_float64 column) as [close|] eqn:Hfloat;
    [|by destruct (wz <? 0)%Z].
  exists seed, wz, version, df, column, close.
  repeat split; try done. by exists cfg.
Qed.

(** ** What the log holds *)

Lemma emit_record_log (ev : log_event) (w : World) (l s : string) :
  log_handler w = Some l → files w !! l = Some s →
  files (emit_record ev w) !! l = Some (s +:+ format_record env ev).
Proof.
  intros Hl Hs. unfold emit_record. rewrite Hl. simpl.
  by rewrite lookup_insert_eq, Hs.
Qed.

Lemma enter_log (args : Args) (fs : gmap string string) :
  files (enter args fs) !! log_file args
  = Some (default "" (fs !! log_file args) +:+ format_record env JobStarted).
Proof.
  unfold enter. apply emit_record_log; [done|]. simpl. by rewrite lookup_insert_eq.
Qed.

(** The last record of the log tells how the run ended: the record of the
    completed job after exit code 0, and after exit code 1 the error record,
    with the message of the error report.  The output file then holds this
    report, or, when json cannot encode its version, the pieces of it that
    were written before the encoder failed. *)
Theorem main_last_log_record (args : Args) (fs : gmap string string) :
  log_file args ≠ output args →
  ((main args fs).2 = 0%Z
   ∧ ∃ before,
       files (main args fs).1 !! log_file args
       = Some (before +:+ format_record env (JobCompleted elapsed_ms)))
  ∨ ((main args fs).2 = 1%Z
     ∧ ∃ before version message,
         files (main args fs).1 !! log_file args
         = Some (before +:+ format_record env (ErrorLogged message))
         ∧ files (main args fs).1 !! output args
           = Some (if json_encodable version
                   then json_dumps env (error_output version message)
                   else json_fragment env (error_output version message))).
Proof.
  intros Hne.
  pose (I := λ w : World,
          log_handler w = Some (log_file args) ∧ ∃ s, files w !! log_file args = Some s).
  pose (Q := λ (_ : Locals) (w : World),
          ∃ before, files w !! log_file args
                    = Some (before +:+ format_record env (JobCompleted elapsed_ms))).
  assert (∀ ev w, I w → I (emit_record ev w)) as Hemit.
  { intros ev w [Hl (s & Hs)]. split; [by rewrite emit_record_handler|].
    eexists. by apply emit_record_log. }
  assert (I (enter args fs)) as Henter.
  { split; [apply enter_handler|]. eexists. apply enter_log. }
  assert (job_hoare I (main_try args) Q (λ _, I)) as Htry.
  { apply main_try_hoare; [done|]. intros version rows rate seed df out w [Hl (s & Hs)].
    unfold mbind, job_bind, json_dump, print, logging_info, logging_emit, mret, job_ret.
    destruct (json_encodable out).
    - exists s. apply emit_record_log; [done|]. simpl. by rewrite lookup_insert_ne.
    - split; [done|]. exists s. simpl. by rewrite lookup_insert_ne. }
  specialize (Htry _ Henter). unfold main.
  destruct (main_try args (enter args fs)) as [w [locals|e]].
  - left. split; [done|]. exact Htry.
  - right. split; [done|]. destruct Htry as [Hl (s & Hs)].
    rewrite main_except_world. cbv zeta. cbn [fst].
    exists s, (recover_version (files (emit_record (ErrorLogged (exception_str e)) w))
                 (config args)), (exception_str e).
    destruct (json_encodable (recover_version _ _)); simpl;
      rewrite lookup_insert_ne, lookup_insert_eq by done;
      (split; [|reflexivity]); by apply emit_record_log.
Qed.

(** A run that loads its inputs, with a window that fits a 64-bit integer,
    adds seven records to the log, in this order: job started,
    configuration loaded, data loaded, rolling mean calculated, signals
    generated, metrics, job completed.  The metrics record has the signal
    rate as computed, before it is rounded for the report. *)
Theorem main_log_of_success (args : Args) (fs : gmap string string)
    (seed : pyval) (wz : Z) (version : pyval) (df : DataFrame) (close : list float) :
  loads args fs seed wz version df close →
  (wz < 2 ^ 63)%Z →
  log_file args ≠ output args →
  ∃ locals,
    main_locals args fs = Ok locals
    ∧ files (main args fs).1 !! log_file args
      = Some (default "" (fs !! log_file args)
              +:+ format_record env JobStarted
              +:+ format_record env (ConfigLoaded seed (PInt wz) version)
              +:+ format_record env (DataLoaded (df_rows df))
              +:+ format_record env (RollingMeanCalculated (PInt wz))
              +:+ format_record env SignalsGenerated
              +:+ format_record env (Metrics (l_signal_rate locals) (df_rows df))
              +:+ format_record env (JobCompleted elapsed_ms)).
Proof.
  intros Hloads Hbound Hne.
  pose proof (main_try_loads _ _ _ _ _ _ _ Hloads Hbound) as Hrun. cbv zeta in Hrun.
  eexists. unfold main_locals, main. rewrite Hrun. cbn [fst snd].
  split; [reflexivity|]. cbn [l_signal_rate]. unfold success_world.
  rewrite <- !string_app_assoc.
  apply emit_record_log; [by rewrite ?emit_record_handler; apply enter_handler|].
  change (files (put_line ?t ?w)) with (files w).
  change (files (put_file ?p ?t ?w)) with (<[p := t]> (files w)).
  rewrite lookup_insert_ne by done.
  repeat (apply emit_record_log;
          [by rewrite ?emit_record_handler; apply enter_handler|]).
  apply enter_log.
Qed.


End Pipeline.


(** ** Two runs with different clocks *)

Section Clocks.

Variable env : Env.
Variable stamp : log_event → string.
Variables t_start t_end : Q.

#[local] Abbreviation env' := (with_clock env stamp t_start t_end).

Variable args : Args.
Variable P : string → Prop.

Hypothesis log_apart : ¬ P (log_file args).
Hypothesis log_not_output : log_file args ≠ output args.

Lemma agree_off_log_emit (ev1 ev2 : log_event) (w1 w2 : World) :
  agree_off_log (log_file args) P w1 w2 →
  agree_off_log (log_file args) P (emit_record env ev1 w1) (emit_record env' ev2 w2).
Proof.
  intros (Hl1 & Hl2 & Hf). unfold emit_record. rewrite Hl1, Hl2.
  repeat split; simpl; try done.
  intros p Hp. rewrite !lookup_insert_ne; [by apply Hf | |]; by intros <-.
Qed.

Lemma job_rel2_bind {A B} (m1 m2 : Job A) (f1 f2 : A → Job B)
    (R : B → B → Prop) (Post : World → World → Prop) :
  job_rel2 (log_file args) P m1 m2 eq (agree_off_log (log_file args) P) →
  (∀ a, job_rel2 (log_file args) P (f1 a) (f2 a) R Post) →
  job_rel2 (log_file args) P (m1 ≫= f1) (m2 ≫= f2) R Post.
Proof.
  intros Hm Hf w1 w2 Hagree. specialize (Hm w1 w2 Hagree).
  unfold mbind, job_bind.
  destruct (m1 w1) as [w1' [a1|e1]], (m2 w2) as [w2' [a2|e2]]; try done.
  destruct Hm as [<- Hagree']. by apply Hf.
Qed.

Lemma job_rel2_of_result {A} (r : result A) :
  job_rel2 (log_file args) P (job_of_result r) (job_of_result r) eq
    (agree_off_log (log_file args) P).
Proof. intros w1 w2 Hagree. unfold job_of_result. by destruct r. Qed.

Lemma job_rel2_read {A} (f1 f2 : gmap string string → result A) (path : string) :
  P path → (∀ fs fs', fs !! path = fs' !! path → f1 fs = f2 fs') →
  job_rel2 (log_file args) P (read_files f1) (read_files f2) eq
    (agree_off_log (log_file args) P).
Proof.
  intros Hpath Hext w1 w2 Hagree. unfold read_files.
  rewrite (Hext (files w1) (files w2)) by (by apply Hagree).
  by destruct (f2 (files w2)).
Qed.

Lemma job_rel2_emit (ev1 ev2 : log_event) :
  job_rel2 (log_file args) P (logging_emit env ev1) (logging_emit env' ev2) eq
    (agree_off_log (log_file args) P).
Proof. intros w1 w2 Hagree. split; [done|]. by apply agree_off_log_emit. Qed.

(** A step whose value the rest of the block may rely on. *)
Lemma job_rel2_read_bind {A B} (f1 f2 : gmap string string → result A) (path : string)
    (k1 k2 : A → Job B) (R : B → B → Prop) (Post : World → World → Prop) :
  P path → (∀ fs fs', fs !! path = fs' !! path → f1 fs = f2 fs') →
  (∀ a, (∃ fs, f1 fs = Ok a) → job_rel2 (log_file args) P (k1 a) (k2 a) R Post) →
  job_rel2 (log_file args) P (read_files f1 ≫= k1) (read_files f2 ≫= k2) R Post.
Proof.
  intros Hpath Hext Hk w1 w2 Hagree. unfold mbind, job_bind, read_files.
  rewrite <- (Hext (files w1) (files w2)) by (by apply Hagree).
  destruct (f1 (files w1)) as [a|e] eqn:Hf; [|done].
  apply Hk; [by exists (files w1) | done].
Qed.

Lemma job_rel2_of_result_bind {A B} (r : result A) (k1 k2 : A → Job B)
    (R : B → B → Prop) (Post : World → World → Prop) :
  (∀ a, r = Ok a → job_rel2 (log_file args) P (k1 a) (k2 a) R Post) →
  job_rel2 (log_file args) P (job_of_result r ≫= k1) (job_of_result r ≫= k2) R Post.
Proof.
  intros Hk w1 w2 Hagree. unfold mbind, job_bind, job_of_result.
  destruct r as [a|e]; [by apply Hk | done].
Qed.

(** Writing the two reports and the lines after them. *)
Lemma job_rel2_report {A} (r1 r2 : pyval) (ev1 ev2 : log_event) (a1 a2 : A) :
  json_encodable r1 = true → json_encodable r2 = true →
  without_latency r1 = without_latency r2 →
  job_rel2 (log_file args) P
    (_ ← json_dump env (output args) r1;
     _ ← print (json_dumps env r1);
     _ ← logging_emit env ev1;
     mret a1)
    (_ ← json_dump env' (output args) r2;
     _ ← print (json_dumps env' r2);
     _ ← logging_emit env' ev2;
     mret a2)
    (λ _ _, True)
    (same_report (json_dumps env) (output args)).
Proof.
  intros Henc1 Henc2 Hsame w1 w2 (Hl1 & Hl2 & Hf).
  unfold mbind, job_bind, json_dump, print, logging_emit, mret, job_ret.
  rewrite Henc1, Henc2.
  split; [done|]. exists r1, r2. unfold emit_record. simpl. rewrite Hl1, Hl2. simpl.
  rewrite !(lookup_insert_ne _ (log_file args) (output args)) by done.
  by rewrite !lookup_insert_eq.
Qed.

Lemma main_try_rel2 :
  P (config args) → P (input args) →
  job_rel2 (log_file args) P (main_try env args) (main_try env' args)
    (λ _ _, True) (same_report (json_dumps env) (output args)).
Proof.
  intros Hconfig Hinput. unfold main_try, logging_info.
  apply (job_rel2_read_bind _ _ (config args)); [done | |].
  { intros fs fs' Hfs. by rewrite (load_config_ext env fs fs'). }
  intros cfg [fs0 Hcfg].
  apply job_rel2_of_result_bind. intros seed Hseed.
  apply job_rel2_bind; [apply job_rel2_of_result | intros window].
  apply job_rel2_of_result_bind. intros version Hversion.
  assert (is_int seed = true ∧ is_str version = true) as [Hiseed Hiversion].
  { destruct (load_config_Ok env _ _ _ Hcfg)
      as (_ & seed' & _ & version' & _ & _ & Hseed' & Hiseed & _ & _ & _
          & Hversion' & Hiversion).
    rewrite Hseed in Hseed'. injection Hseed' as <-.
    rewrite Hversion in Hversion'. by injection Hversion' as <-. }
  apply job_rel2_bind; [apply job_rel2_of_result | intros ?].
  apply job_rel2_bind; [apply job_rel2_emit | intros _].
  apply job_rel2_bind;
    [apply (job_rel2_read _ _ (input args)); [done|];
     intros fs fs' Hfs; by rewrite (load_data_ext env fs fs') | intros df].
  cbv zeta.
  apply job_rel2_bind; [apply job_rel2_emit | intros _].
  do 2 (apply job_rel2_bind; [apply job_rel2_of_result | intros ?]).
  apply job_rel2_bind; [apply job_rel2_emit | intros _].
  do 3 (apply job_rel2_bind; [apply job_rel2_of_result | intros ?]).
  apply job_rel2_bind; [apply job_rel2_emit | intros _].
  do 2 (apply job_rel2_bind; [apply job_rel2_of_result | intros ?]).
  apply job_rel2_bind; [apply job_rel2_emit | intros _].
  apply job_rel2_report; [by apply success_output_encodable.. | done].
Qed.

(** The [except] blocks of the two runs leave the same output file. *)
Lemma main_except_rel2 (e : exception) (w1 w2 : World) :
  P (config args) →
  agree_off_log (log_file args) P w1 w2 →
  files (main_except env args e w1).1 !! output args
  = files (main_except env' args e w2).1 !! output args.
Proof.
  intros Hconfig Hagree.
  pose proof (agree_off_log_emit (ErrorLogged (exception_str env e))
                (ErrorLogged (exception_str env' e)) w1 w2 Hagree) as (_ & _ & Hf).
  rewrite !main_except_world. cbv zeta.
  rewrite (recover_version_ext env _ (files (emit_record env'
    (ErrorLogged (exception_str env' e)) w2)) (config args)) by (by apply Hf).
  change (recover_version env' ?fs ?p) with (recover_version env fs p).
  destruct (json_encodable _); cbn [files put_line put_file];
    by rewrite !lookup_insert_eq.
Qed.

(** Two runs started on files that agree at the configuration path and at
    the input path, with a log file of its own, but with different clocks:
    they end with the same exit code, and with reports that differ at most
    in the field latency_ms after exit code 0, with the same output file
    after exit code 1. *)
Lemma main_report_up_to_latency (fs1 fs2 : gmap string string) :
  P (config args) → P (input args) →
  (∀ p, P p → fs1 !! p = fs2 !! p) →
  (main env args fs1).2 = (main env' args fs2).2
  ∧ (((main env args fs1).2 = 0%Z
      ∧ same_report (json_dumps env) (output args)
          (main env args fs1).1 (main env' args fs2).1)
     ∨ ((main env args fs1).2 = 1%Z
        ∧ files (main env args fs1).1 !! output args
          = files (main env' args fs2).1 !! output args)).
Proof.
  intros Hconfig Hinput Hfs.
  assert (agree_off_log (log_file args) P (enter env args fs1) (enter env' args fs2))
    as Hagree.
  { unfold enter. apply agree_off_log_emit. repeat split; simpl; try done.
    intros p Hp. rewrite !lookup_insert_ne; [by apply Hfs | |]; by intros <-. }
  pose proof (main_try_rel2 Hconfig Hinput _ _ Hagree) as Htry.
  unfold main.
  destruct (main_try env args (enter env args fs1)) as [w1 [l1|e1]],
           (main_try env' args (enter env' args fs2)) as [w2 [l2|e2]]; try done.
  - destruct Htry as [_ Hreport]. split; [done|]. by left.
  - destruct Htry as [<- Hagree']. split; [done|]. right. split; [done|].
    by apply main_except_rel2.
Qed.

End Clocks.

(** ** The job on the sample environment *)

(** C1 fails as stated: in the sample run the signal rate is 0.4, the mean
    over all 5 rows (the binary64 number nearest to 2/5), where the mean
    over the 3 rows after the warm-up would be the one nearest to 2/3. *)
Lemma signal_rate_counts_warmup_rows :
  let close := float_of_Z <$> [10; 20; 30; 40; 20]%Z in
  ∃ locals,
    main_locals Sample.env Sample.args (Sample.disk Sample.config_text Sample.csv_text)
    = Ok locals
    ∧ l_signal_rate locals = Some (round_binary64 (2 # 5))
    ∧ signal_rate_after_warmup 3 close = Some (round_binary64 (2 # 3))
    ∧ ¬ (round_binary64 (2 # 5) == round_binary64 (2 # 3)).
Proof.
  intros close. eexists. split; [vm_compute; reflexivity|].
  split; [vm_compute; reflexivity|]. split; [vm_compute; reflexivity|].
  vm_compute. discriminate.
Qed.

(** C2 fails as stated: in the sample run, with window 3, the rolling mean
    is undefined at the warm-up rows 0 and 1 and the signal is 0 there. *)
Lemma signal_zero_in_warmup :
  let close := float_of_Z <$> [10; 20; 30; 40; 20]%Z in
  (∃ locals,
     main_locals Sample.env Sample.args (Sample.disk Sample.config_text Sample.csv_text)
     = Ok locals
     ∧ df_getitem (l_df locals) "rolling_mean"
       = Ok (SFloat [nan; nan; Some 20; Some 30; Some 30])
     ∧ df_getitem (l_df locals) "signal" = Ok (SInt [0; 0; 1; 1; 0]%Z))
  ∧ (0 < 3 - 1)%nat
  ∧ ¬ defined_at (rolling_mean 3 close) 0
  ∧ signal_cells 3 close !! 0%nat = Some 0%Z.
Proof.
  intros close. split.
  - eexists. split; [vm_compute; reflexivity|]. split; reflexivity.
  - split; [lia|]. split; [|reflexivity]. intros [m Hm]. discriminate Hm.
Qed.

(** C3 fails as stated: the sample run is the scenario, and it reports the
    value 0.4 (the binary64 number nearest to 2/5), not 0.3333, with the
    signal 0 at the two warm-up rows; the mean of 1, 1, 0 alone would round
    to 0.6667. *)
Lemma scenario_value_is_two_fifths :
  ∃ locals,
    main_locals Sample.env Sample.args (Sample.disk Sample.config_text Sample.csv_text)
    = Ok locals
    ∧ df_getitem (l_df locals) "signal" = Ok (SInt [0; 0; 1; 1; 0]%Z)
    ∧ l_output locals
      = PDict [(PStr "version", PStr "v1");
               (PStr "rows_processed", PInt 5);
               (PStr "metric", PStr "signal_rate");
               (PStr "value", PFloat (Some (round_binary64 (2 # 5))));
               (PStr "latency_ms", PInt 1500);
               (PStr "seed", PInt 42);
               (PStr "status", PStr "success")]
    ∧ ¬ (round_binary64 (2 # 5) == round_binary64 (3333 # 10000))
    ∧ round4 (cells_mean [1; 1; 0]) = Some (round_binary64 (6667 # 10000)).
Proof.
  eexists. split; [vm_compute; reflexivity|].
  split; [reflexivity|]. split; [vm_compute; reflexivity|].
  split; [|vm_compute; reflexivity].
  vm_compute. discriminate.
Qed.


(** C5 fails as stated: an integer close of [2 ^ 53 + 1] is compared as a
    [float64], that is as [2 ^ 53].  With window 1 the rolling mean is
    [2 ^ 53], below the close of the file, and the signal is 0. *)
Lemma signal_compares_as_float64 :
  let column := SInt [9007199254740993%Z] in
  ∃ close m,
    ensure_float64 column = Some close
    ∧ rolling_mean 1 close !! 0%nat = Some (Some m)
    ∧ m < inject_Z 9007199254740993
    ∧ signal_cells 1 close !! 0%nat = Some 0%Z.
Proof.
  intros column. eexists _, _. split; [reflexivity|].
  split; [vm_compute; reflexivity|]. split; [|vm_compute; reflexivity].
  vm_compute. reflexivity.
Qed.

Lemma signal_rate_over_all_rows_witness :
  let fs := Sample.disk Sample.config_text Sample.csv_text in
  let close := float_of_Z <$> [10; 20; 30; 40; 20]%Z in
  loads Sample.env Sample.args fs (PInt 42) 3 (PStr "v1") Sample.csv_frame close
  ∧ (3 < 2 ^ 63)%Z
  ∧ ∃ locals signal q,
      main_locals Sample.env Sample.args fs = Ok locals
      ∧ df_getitem (l_df locals) "signal" = Ok (SInt signal)
      ∧ length signal = df_rows Sample.csv_frame
      ∧ Forall (λ z, z = 0%Z ∨ z = 1%Z) signal
      ∧ (∀ i, (i < df_rows Sample.csv_frame)%nat → (i < Z.to_nat 3 - 1)%nat →
           signal !! i = Some 0%Z)
      ∧ l_signal_rate locals = Some q
      ∧ q = round_binary64
              (inject_Z (Zsum (drop (Z.to_nat 3 - 1) signal))
               / inject_Z (Z.of_nat (df_rows Sample.csv_frame)))
      ∧ l_output locals
        = success_output (PStr "v1") (df_rows Sample.csv_frame) (Some q)
            (elapsed_ms Sample.env) (PInt 42).
Proof.
  intros fs close.
  assert (loads Sample.env Sample.args fs (PInt 42) 3 (PStr "v1") Sample.csv_frame close)
    as Hloads.
  { split; [|split; [|split; [|split]]].
    - split; [discriminate|]. split; [|reflexivity].
      exists Sample.config_doc. repeat split; reflexivity.
    - discriminate.
    - reflexivity.
    - exists (SInt [10; 20; 30; 40; 20]%Z). split; reflexivity.
    - reflexivity. }
  assert (3 < 2 ^ 63)%Z as Hbound by reflexivity.
  split; [exact Hloads|]. split; [exact Hbound|].
  exact (signal_rate_over_all_rows Sample.env Sample.args fs (PInt 42) 3 (PStr "v1")
           Sample.csv_frame close Hloads Hbound).
Defined.

Lemma signal_never_undefined_witness :
  let close := float_of_Z <$> [10; 20; 30; 40; 20]%Z in
  (0 < length close)%nat
  ∧ (signal_cells 3 close !! 0%nat = Some 0%Z ∨ signal_cells 3 close !! 0%nat = Some 1%Z)
  ∧ (¬ defined_at (rolling_mean 3 close) 0 → signal_cells 3 close !! 0%nat = Some 0%Z)
  ∧ ((0 < 3 - 1)%nat →
       ¬ defined_at (rolling_mean 3 close) 0 ∧ signal_cells 3 close !! 0%nat = Some 0%Z).
Proof.
  intros close.
  assert (0 < length close)%nat as Hlen by (simpl; lia).
  split; [exact Hlen|].
  exact (signal_never_undefined 3 0 close Hlen).
Defined.

Lemma scenario_window_3_witness :
  let fs := Sample.disk Sample.config_text Sample.csv_text in
  loads Sample.env Sample.args fs (PInt 42) 3 (PStr "v1") Sample.csv_frame
    (float_of_Z <$> [10; 20; 30; 40; 20]%Z)
  ∧ log_file Sample.args ≠ output Sample.args
  ∧ (main Sample.env Sample.args fs).2 = 0%Z
  ∧ files (main Sample.env Sample.args fs).1 !! output Sample.args
    = Some (json_dumps Sample.env
              (PDict [(PStr "version", PStr "v1");
                      (PStr "rows_processed", PInt 5);
                      (PStr "metric", PStr "signal_rate");
                      (PStr "value", PFloat (Some (round_binary64 (2 # 5))));
                      (PStr "latency_ms", PInt (elapsed_ms Sample.env));
                      (PStr "seed", PInt 42);
                      (PStr "status", PStr "success")])).
Proof.
  intros fs.
  assert (loads Sample.env Sample.args fs (PInt 42) 3 (PStr "v1") Sample.csv_frame
            (float_of_Z <$> [10; 20; 30; 40; 20]%Z)) as Hloads.
  { split; [|split; [|split; [|split]]].
    - split; [discriminate|]. split; [|reflexivity].
      exists Sample.config_doc. repeat split; reflexivity.
    - discriminate.
    - reflexivity.
    - exists (SInt [10; 20; 30; 40; 20]%Z). split; reflexivity.
    - reflexivity. }
  assert (log_file Sample.args ≠ output Sample.args) as Hout by discriminate.
  split; [exact Hloads|]. split; [exact Hout|].
  exact (proj2 (scenario_window_3 Sample.env Sample.args fs Sample.csv_frame Hloads Hout)).
Defined.


Lemma signal_where_defined_witness :
  let column := SInt [10; 20; 30; 40; 20]%Z in
  let close := float_of_Z <$> [10; 20; 30; 40; 20]%Z in
  ensure_float64 column = Some close
  ∧ rolling_mean 3 close !! 4%nat = Some (Some 30)
  ∧ ∃ c : Q,
      close !! 4%nat = Some (Some c)
      ∧ (30 < c → signal_cells 3 close !! 4%nat = Some 1%Z)
      ∧ (c <= 30 → signal_cells 3 close !! 4%nat = Some 0%Z)
      ∧ (c == 30 → signal_cells 3 close !! 4%nat = Some 0%Z)
      ∧ (∀ cells, column = SFloat cells → cells !! 4%nat = Some (Some c))
      ∧ (∀ cells z, column = SInt cells → cells !! 4%nat = Some z →
           c = round_binary64 (inject_Z z)
           ∧ ((Z.abs z ≤ 2 ^ 53)%Z → c = inject_Z z)).
Proof.
  intros column close.
  assert (ensure_float64 column = Some close) as Hfloat by reflexivity.
  assert (rolling_mean 3 close !! 4%nat = Some (Some 30)) as Hm
    by (vm_compute; reflexivity).
  split; [exact Hfloat|]. split; [exact Hm|].
  exact (signal_where_defined 3 4 column close 30 Hfloat Hm).
Defined.

Lemma load_config_missing_key_witness :
  let fs := Sample.disk Sample.config_text_seed_only Sample.csv_text in
  let items := [(PStr "seed", PInt 42)] in
  fs !! "config.yaml" = Some Sample.config_text_seed_only
  ∧ safe_load Sample.env Sample.config_text_seed_only = Ok (PDict items)
  ∧ (∃ key, In key required_keys ∧ existsb (λ kv, eq_str key kv.1) items = false)
  ∧ ∃ key,
      first_missing_key items = Some key
      ∧ load_config Sample.env fs "config.yaml"
        = Raise (ValueError ("Missing config key: " +:+ key)).
Proof.
  intros fs items.
  assert (fs !! "config.yaml" = Some Sample.config_text_seed_only) as Hfile
    by reflexivity.
  assert (safe_load Sample.env Sample.config_text_seed_only = Ok (PDict items)) as Hdoc
    by reflexivity.
  assert (∃ key, In key required_keys ∧ existsb (λ kv, eq_str key kv.1) items = false)
    as Hmiss.
  { exists "version". split; [simpl; auto | reflexivity]. }
  split; [exact Hfile|]. split; [exact Hdoc|]. split; [exact Hmiss|].
  exact (load_config_missing_key Sample.env fs "config.yaml"
           Sample.config_text_seed_only items Hfile Hdoc Hmiss).
Defined.

Lemma load_data_checks_witness :
  let fs text := Sample.disk Sample.config_text text in
  load_data Sample.env (fs Sample.csv_text) "absent.csv"
  = Raise (FileNotFoundError "Input CSV file not found")
  ∧ load_data Sample.env (fs "no table") "data.csv"
    = Raise (ValueError "Invalid CSV file format")
  ∧ load_data Sample.env (fs Sample.csv_text_header_only) "data.csv"
    = Raise (ValueError "Input CSV file is empty")
  ∧ load_data Sample.env (fs Sample.csv_text_open) "data.csv"
    = Raise (ValueError "Missing required column: close")
  ∧ load_data Sample.env (fs Sample.csv_text) "data.csv" = Ok Sample.csv_frame.
Proof.
  intros fs. split; [|split; [|split; [|split]]].
  - apply (proj1 (load_data_checks Sample.env (fs Sample.csv_text) "absent.csv")).
    reflexivity.
  - apply (proj1 (proj2 (load_data_checks Sample.env (fs "no table") "data.csv"))
             "no table" (LibraryError "ParserError" "could not parse the table"));
      reflexivity.
  - apply (proj1 (proj2 (proj2 (load_data_checks Sample.env
                                  (fs Sample.csv_text_header_only) "data.csv")))
             Sample.csv_text_header_only Sample.csv_frame_header_only);
      reflexivity.
  - apply (proj1 (proj2 (proj2 (proj2 (load_data_checks Sample.env
                                         (fs Sample.csv_text_open) "data.csv"))))
             Sample.csv_text_open Sample.csv_frame_open);
      try reflexivity; discriminate.
  - apply (proj2 (proj2 (proj2 (proj2 (load_data_checks Sample.env
                                         (fs Sample.csv_text) "data.csv"))))
             Sample.csv_text Sample.csv_frame);
      try reflexivity; discriminate.
Defined.

Lemma main_deterministic_witness :
  let fs1 := Sample.disk Sample.config_text Sample.csv_text in
  let fs2 := <["run.log" := "a line of an earlier run"]>
               (<["metrics.json" := "an earlier report"]> fs1) in
  fs1 !! config Sample.args = fs2 !! config Sample.args
  ∧ fs1 !! input Sample.args = fs2 !! input Sample.args
  ∧ fs1 ≠ fs2
  ∧ (main Sample.env Sample.args fs1).2 = (main Sample.env Sample.args fs2).2
  ∧ stdout (main Sample.env Sample.args fs1).1 = stdout (main Sample.env Sample.args fs2).1
  ∧ files (main Sample.env Sample.args fs1).1 !! output Sample.args
    = files (main Sample.env Sample.args fs2).1 !! output Sample.args.
Proof.
  intros fs1 fs2.
  assert (fs1 !! config Sample.args = fs2 !! config Sample.args) as Hconfig
    by reflexivity.
  assert (fs1 !! input Sample.args = fs2 !! input Sample.args) as Hinput
    by reflexivity.
  split; [exact Hconfig|]. split; [exact Hinput|]. split.
  - intros Heq. apply (f_equal (λ fs : gmap string string, fs !! "run.log")) in Heq.
    discriminate Heq.
  - exact (main_deterministic Sample.env Sample.args fs1 fs2 Hconfig Hinput).
Defined.

Lemma load_data_accepts_text_close_witness :
  let fs := Sample.disk Sample.config_text Sample.csv_text_words in
  fs !! input Sample.args = Some Sample.csv_text_words
  ∧ read_csv Sample.env Sample.csv_text_words = Ok Sample.csv_frame_words
  ∧ df_rows Sample.csv_frame_words ≠ 0%nat
  ∧ df_getitem Sample.csv_frame_words "close" = Ok (SObject ["high"; "low"])
  ∧ config_loads Sample.env Sample.args fs (PInt 42) 3 (PStr "v1")
  ∧ log_file Sample.args ≠ input Sample.args
  ∧ load_data Sample.env fs (input Sample.args) = Ok Sample.csv_frame_words
  ∧ (main Sample.env Sample.args fs).2 = 1%Z
  ∧ files (main Sample.env Sample.args fs).1 !! output Sample.args
    = Some (json_dumps Sample.env
              (PDict [(PStr "version", PStr "v1");
                      (PStr "status", PStr "error");
                      (PStr "error_message", PStr "No numeric types to aggregate")])).
Proof.
  intros fs.
  assert (fs !! input Sample.args = Some Sample.csv_text_words) as Hfile by reflexivity.
  assert (read_csv Sample.env Sample.csv_text_words = Ok Sample.csv_frame_words) as Hread
    by reflexivity.
  assert (df_rows Sample.csv_frame_words ≠ 0%nat) as Hrows by discriminate.
  assert (df_getitem Sample.csv_frame_words "close" = Ok (SObject ["high"; "low"]))
    as Hcol by reflexivity.
  assert (config_loads Sample.env Sample.args fs (PInt 42) 3 (PStr "v1")) as Hconfig.
  { split; [discriminate|]. split; [|reflexivity].
    exists Sample.config_doc. repeat split; reflexivity. }
  assert (log_file Sample.args ≠ input Sample.args) as Hli by discriminate.
  destruct (load_data_accepts_text_close Sample.env Sample.args fs Sample.csv_text_words
              Sample.csv_frame_words ["high"; "low"] Hfile Hread Hrows Hcol)
    as (Hdata & _ & Hrun).
  repeat (split; [assumption|]).
  exact (Hrun (PInt 42) 3%Z (PStr "v1") Hconfig Hli).
Defined.

Lemma error_report_keeps_version_witness :
  let fs := Sample.disk Sample.config_text_numeric_version Sample.csv_text in
  let items := [(PStr "seed", PInt 42); (PStr "window", PInt 3); (PStr "version", PInt 2)] in
  log_file Sample.args ≠ config Sample.args
  ∧ fs !! config Sample.args = Some Sample.config_text_numeric_version
  ∧ safe_load Sample.env Sample.config_text_numeric_version = Ok (PDict items)
  ∧ load_config Sample.env fs (config Sample.args)
    = Raise (ValueError "Version must be string")
  ∧ (main Sample.env Sample.args fs).2 = 1%Z
  ∧ files (main Sample.env Sample.args fs).1 !! output Sample.args
    = Some (json_dumps Sample.env
              (PDict [(PStr "version", PInt 2);
                      (PStr "status", PStr "error");
                      (PStr "error_message", PStr "Version must be string")])).
Proof.
  intros fs items.
  assert (log_file Sample.args ≠ config Sample.args) as Hlc by discriminate.
  assert (fs !! config Sample.args = Some Sample.config_text_numeric_version) as Hfile
    by reflexivity.
  assert (safe_load Sample.env Sample.config_text_numeric_version = Ok (PDict items))
    as Hdoc by reflexivity.
  split; [exact Hlc|]. split; [exact Hfile|]. split; [exact Hdoc|].
  apply (error_report_keeps_version Sample.env Sample.args fs
           Sample.config_text_numeric_version items (PInt 42) (PInt 3) (PInt 2)
           Hlc Hfile Hdoc);
    (reflexivity || (simpl; lia)).
Defined.

(** ** Rounding on sample inputs *)

(** The binary64 numbers 0.1 and 0.4. *)
Example round_binary64_decimals :
  round_binary64 (1 # 10) = 3602879701896397 # 36028797018963968
  ∧ round_binary64 (2 # 5) = 3602879701896397 # 9007199254740992.
Proof. vm_compute. split; reflexivity. Qed.

(** [round(x, 4)] rounds the binary64 number, not the decimal it was written
    as: 0.00625 is a little above 1/160 and goes up to 0.0063, where the
    tie 1/160 would go to the even 0.0062; 0.03125 is 1/32 exactly, a tie,
    and goes to 0.0312, which as a binary64 number is more than 0.00005
    below it. *)
Example round4_near_ties :
  round4 (Some (round_binary64 (1 # 160))) = Some (round_binary64 (63 # 10000))
  ∧ round4 (Some (1 # 32)) = Some (round_binary64 (312 # 10000))
  ∧ round_binary64 (312 # 10000) < (1 # 32) - (1 # 20000).
Proof. vm_compute. repeat split; reflexivity. Qed.

(** latency_ms can exceed the whole milliseconds elapsed: from the reading
    0.0 to the reading 0.009, which as a binary64 number is below 9/1000,
    the product is 9.0 and 9 ms are reported. *)
Example elapsed_ms_rounds_up :
  let later := round_binary64 (9 # 1000) in
  later < 9 # 1000
  ∧ elapsed_ms (with_clock Sample.env Sample.log_line 0 later) = 9%Z.
Proof. vm_compute. split; reflexivity. Qed.

(** An integer beyond [2 ^ 53] changes when its column is cast to
    [float64]. *)
Example float_of_Z_rounds :
  float_of_Z 9007199254740993 = Some (inject_Z 9007199254740992).
Proof. vm_compute. reflexivity. Qed.

(** A window of [2 ^ 63] rows is refused, after the type of the column has
    been checked. *)
Example series_rolling_mean_window_bound :
  series_rolling_mean (PInt (2 ^ 63)) (SInt [10; 20]%Z)
  = Raise (InterpreterError (TooLarge (PInt (2 ^ 63))))
  ∧ series_rolling_mean (PInt (2 ^ 63)) (SObject ["high"; "low"])
    = Raise (DataError "No numeric types to aggregate").
Proof. vm_compute. split; reflexivity. Qed.

(** ** A version that json cannot encode *)

(** With the version 2024-01-15, which YAML reads as a date, [load_config]
    rejects the configuration and the [except] block fails in
    [write_error]: the error is logged, the output file holds the pieces
    of the report written before the encoder came to the date, nothing is
    printed, and the exit code is 1. *)
Example main_date_version :
  let fs := Sample.disk Cases.config_text_date_version Sample.csv_text in
  let e := ValueError "Version must be string" in
  let report := error_output (PDate "2024-01-15") "Version must be string" in
  load_config Cases.env fs "config.yaml" = Raise e
  ∧ (main_except Cases.env Sample.args e (enter Cases.env Sample.args fs)).2
    = Raise (InterpreterError (NotSerializable report))
  ∧ (main Cases.env Sample.args fs).2 = 1%Z
  ∧ files (main Cases.env Sample.args fs).1 !! "metrics.json"
    = Some (json_fragment Cases.env report)
  ∧ files (main Cases.env Sample.args fs).1 !! "run.log"
    = Some (Sample.log_line JobStarted
            +:+ Sample.log_line (ErrorLogged "Version must be string"))
  ∧ stdout (main Cases.env Sample.args fs).1 = [].
Proof. vm_compute. repeat split; reflexivity. Qed.

(** ** Further runs on sample inputs *)

Lemma window_one_never_signals_witness :
  let close := [Some 10; nan; Some 30] in
  (2 < length close)%nat ∧ signal_cells 1 close !! 2%nat = Some 0%Z.
Proof.
  intros close.
  assert (2 < length close)%nat as Hi by (simpl; lia).
  split; [exact Hi|].
  exact (proj2 (proj2 (window_one_never_signals close 2 Hi))).
Defined.

Lemma value_in_unit_interval_witness :
  let fs := Sample.disk Sample.config_text Sample.csv_text in
  let close := float_of_Z <$> [10; 20; 30; 40; 20]%Z in
  loads Sample.env Sample.args fs (PInt 42) 3 (PStr "v1") Sample.csv_frame close
  ∧ (3 < 2 ^ 63)%Z
  ∧ ∃ locals rate value,
      main_locals Sample.env Sample.args fs = Ok locals
      ∧ l_signal_rate locals = Some rate
      ∧ 0 <= rate <= 1
      ∧ py_getitem (l_output locals) "value" = Ok (PFloat (Some value))
      ∧ 0 <= value <= 1
      ∧ rate - (1 # 20000) - (1 # 18014398509481984) <= value
      ∧ value <= rate + (1 # 20000) + (1 # 18014398509481984).
Proof.
  intros fs close.
  assert (loads Sample.env Sample.args fs (PInt 42) 3 (PStr "v1") Sample.csv_frame close)
    as Hloads.
  { split; [|split; [|split; [|split]]].
    - split; [discriminate|]. split; [|reflexivity].
      exists Sample.config_doc. repeat split; reflexivity.
    - discriminate.
    - reflexivity.
    - exists (SInt [10; 20; 30; 40; 20]%Z). split; reflexivity.
    - reflexivity. }
  assert (3 < 2 ^ 63)%Z as Hbound by reflexivity.
  split; [exact Hloads|]. split; [exact Hbound|].
  exact (value_in_unit_interval Sample.env Sample.args fs (PInt 42) 3 (PStr "v1")
           Sample.csv_frame close Hloads Hbound).
Defined.

Lemma elapsed_ms_floor_witness :
  let elapsed := (time_end Sample.env - time_start Sample.env) * 1000 in
  let product := fmul (fsub (time_end Sample.env) (time_start Sample.env)) 1000 in
  time_start Sample.env <= time_end Sample.env
  ∧ (time_end Sample.env - time_start Sample.env) * 1000 < Qpow2 1023
  ∧ (0 ≤ elapsed_ms Sample.env)%Z
  ∧ inject_Z (elapsed_ms Sample.env) <= product
  ∧ product < inject_Z (elapsed_ms Sample.env + 1)
  ∧ elapsed - (elapsed * (1 # 2251799813685248) + Qpow2 (-1065)) <= product
  ∧ product <= elapsed + (elapsed * (1 # 2251799813685248) + Qpow2 (-1065)).
Proof.
  intros elapsed product.
  assert (time_start Sample.env <= time_end Sample.env) as Hclock by discriminate.
  assert ((time_end Sample.env - time_start Sample.env) * 1000 < Qpow2 1023) as Hfinite
    by (vm_compute; reflexivity).
  split; [exact Hclock|]. split; [exact Hfinite|].
  exact (elapsed_ms_floor Sample.env Hclock Hfinite).
Defined.

Lemma window_longer_than_table_witness :
  let fs := Sample.disk Cases.config_text_window_9 Sample.csv_text in
  loads Cases.env Sample.args fs (PInt 42) 9 (PStr "v1") Sample.csv_frame
    (float_of_Z <$> [10; 20; 30; 40; 20]%Z)
  ∧ (Z.of_nat (df_rows Sample.csv_frame) < 9 < 2 ^ 63)%Z
  ∧ (main Cases.env Sample.args fs).2 = 0%Z
  ∧ ∃ locals,
      main_locals Cases.env Sample.args fs = Ok locals
      ∧ df_getitem (l_df locals) "rolling_mean"
        = Ok (SFloat (replicate (df_rows Sample.csv_frame) nan))
      ∧ df_getitem (l_df locals) "signal"
        = Ok (SInt (replicate (df_rows Sample.csv_frame) 0%Z))
      ∧ l_signal_rate locals = Some 0
      ∧ l_output locals
        = success_output (PStr "v1") (df_rows Sample.csv_frame) (Some 0)
            (elapsed_ms Cases.env) (PInt 42).
Proof.
  intros fs.
  assert (loads Cases.env Sample.args fs (PInt 42) 9 (PStr "v1") Sample.csv_frame
            (float_of_Z <$> [10; 20; 30; 40; 20]%Z)) as Hloads.
  { split; [|split; [|split; [|split]]].
    - split; [discriminate|]. split; [|reflexivity].
      exists Cases.config_doc_window_9. repeat split; reflexivity.
    - discriminate.
    - reflexivity.
    - exists (SInt [10; 20; 30; 40; 20]%Z). split; reflexivity.
    - reflexivity. }
  assert (Z.of_nat (df_rows Sample.csv_frame) < 9 < 2 ^ 63)%Z as Hlong
    by (split; reflexivity).
  split; [exact Hloads|]. split; [exact Hlong|].
  exact (window_longer_than_table Cases.env Sample.args fs (PInt 42) 9 (PStr "v1")
           Sample.csv_frame _ Hloads Hlong).
Defined.

Lemma main_keeps_other_files_witness :
  let fs := Sample.disk Sample.config_text Sample.csv_text in
  "config.yaml" ≠ output Sample.args
  ∧ "config.yaml" ≠ log_file Sample.args
  ∧ files (main Sample.env Sample.args fs).1 !! "config.yaml" = fs !! "config.yaml".
Proof.
  intros fs.
  assert ("config.yaml" ≠ output Sample.args) as Hout by discriminate.
  assert ("config.yaml" ≠ log_file Sample.args) as Hlog by discriminate.
  split; [exact Hout|]. split; [exact Hlog|].
  exact (main_keeps_other_files Sample.env Sample.args fs "config.yaml" Hout Hlog).
Defined.

Lemma main_appends_to_log_witness :
  let fs := <["run.log" := "a line of an earlier run"]>
              (Sample.disk Sample.config_text Sample.csv_text) in
  log_file Sample.args ≠ output Sample.args
  ∧ ∃ more,
      files (main Sample.env Sample.args fs).1 !! log_file Sample.args
      = Some (default "" (fs !! log_file Sample.args)
              +:+ format_record Sample.env JobStarted +:+ more).
Proof.
  intros fs.
  assert (log_file Sample.args ≠ output Sample.args) as Hne by discriminate.
  split; [exact Hne|].
  exact (main_appends_to_log Sample.env Sample.args fs Hne).
Defined.

Lemma main_writes_one_report_witness :
  let fs := Sample.disk Sample.config_text Sample.csv_text_words in
  let r := main Sample.env Sample.args fs in
  log_file Sample.args ≠ output Sample.args
  ∧ ((r.2 = 0%Z
      ∧ ∃ version rows rate seed,
          let text := json_dumps Sample.env
                        (success_output version rows rate (elapsed_ms Sample.env) seed) in
          files r.1 !! output Sample.args = Some text ∧ stdout r.1 = [text])
     ∨ (r.2 = 1%Z
        ∧ ∃ version message,
            json_encodable version = true
            ∧ files r.1 !! output Sample.args
              = Some (json_dumps Sample.env (error_output version message))
            ∧ stdout r.1 = ["Error: " +:+ message])
     ∨ (r.2 = 1%Z
        ∧ ∃ version message,
            json_encodable version = false
            ∧ files r.1 !! output Sample.args
              = Some (json_fragment Sample.env (error_output version message))
            ∧ stdout r.1 = [])).
Proof.
  intros fs r.
  assert (log_file Sample.args ≠ output Sample.args) as Hne by discriminate.
  split; [exact Hne|].
  exact (main_writes_one_report Sample.env Sample.args fs Hne).
Defined.

Lemma main_succeeds_only_if_witness :
  let fs := Sample.disk Sample.config_text Sample.csv_text in
  log_file Sample.args ≠ config Sample.args
  ∧ log_file Sample.args ≠ input Sample.args
  ∧ (main Sample.env Sample.args fs).2 = 0%Z
  ∧ ∃ seed wz version df column close,
      config_loads Sample.env Sample.args fs seed wz version
      ∧ load_data Sample.env fs (input Sample.args) = Ok df
      ∧ df_getitem df "close" = Ok column
      ∧ ensure_float64 column = Some close.
Proof.
  intros fs.
  assert (log_file Sample.args ≠ config Sample.args) as Hlc by discriminate.
  assert (log_file Sample.args ≠ input Sample.args) as Hli by discriminate.
  assert ((main Sample.env Sample.args fs).2 = 0%Z) as Hexit by (vm_compute; reflexivity).
  split; [exact Hlc|]. split; [exact Hli|]. split; [exact Hexit|].
  exact (main_succeeds_only_if Sample.env Sample.args fs Hlc Hli Hexit).
Defined.

Lemma load_config_accepts_iff_witness :
  let fs := Sample.disk Sample.config_text Sample.csv_text in
  fs !! "config.yaml" = Some Sample.config_text
  ∧ safe_load Sample.env Sample.config_text = Ok Sample.config_doc
  ∧ load_config Sample.env fs "config.yaml" = Ok Sample.config_doc.
Proof.
  intros fs.
  assert (fs !! "config.yaml" = Some Sample.config_text) as Hfile by reflexivity.
  assert (safe_load Sample.env Sample.config_text = Ok Sample.config_doc) as Hdoc
    by reflexivity.
  split; [exact Hfile|]. split; [exact Hdoc|].
  apply (proj2 (load_config_accepts_iff Sample.env fs "config.yaml" Sample.config_text
                  Sample.config_doc Hfile Hdoc)).
  exists [(PStr "seed", PInt 42); (PStr "window", PInt 3); (PStr "version", PStr "v1")],
    (PInt 42), (PInt 3), (PStr "v1").
  repeat split; (reflexivity || (simpl; lia)).
Defined.

Lemma load_config_validation_order_witness :
  let fs := Sample.disk Cases.config_text_bad_seed_and_window Sample.csv_text in
  let items := [(PStr "seed", PStr "abc"); (PStr "window", PInt 0);
                (PStr "version", PStr "v1")] in
  fs !! "config.yaml" = Some Cases.config_text_bad_seed_and_window
  ∧ safe_load Cases.env Cases.config_text_bad_seed_and_window = Ok (PDict items)
  ∧ is_int (PStr "abc") = false
  ∧ load_config Cases.env fs "config.yaml" = Raise (ValueError "Seed must be integer").
Proof.
  intros fs items.
  assert (fs !! "config.yaml" = Some Cases.config_text_bad_seed_and_window) as Hfile
    by reflexivity.
  assert (safe_load Cases.env Cases.config_text_bad_seed_and_window = Ok (PDict items))
    as Hdoc by reflexivity.
  assert (is_int (PStr "abc") = false) as Hseed by reflexivity.
  split; [exact Hfile|]. split; [exact Hdoc|]. split; [exact Hseed|].
  exact (proj1 (load_config_validation_order Cases.env fs "config.yaml"
                  Cases.config_text_bad_seed_and_window items
                  (PStr "abc") (PInt 0) (PStr "v1") Hfile Hdoc
                  eq_refl eq_refl eq_refl) Hseed).
Defined.

Lemma load_config_string_document_witness :
  let fs := Sample.disk Cases.config_text_plain Sample.csv_text in
  fs !! "config.yaml" = Some Cases.config_text_plain
  ∧ safe_load Cases.env Cases.config_text_plain = Ok (PStr Cases.config_text_plain)
  ∧ load_config Cases.env fs "config.yaml"
    = Raise (InterpreterError (BadIndex (PStr Cases.config_text_plain) (PStr "seed"))).
Proof.
  intros fs.
  assert (fs !! "config.yaml" = Some Cases.config_text_plain) as Hfile by reflexivity.
  assert (safe_load Cases.env Cases.config_text_plain = Ok (PStr Cases.config_text_plain))
    as Hdoc by reflexivity.
  split; [exact Hfile|]. split; [exact Hdoc|].
  exact (proj2 (proj2 (load_config_string_document Cases.env fs "config.yaml"
                         Cases.config_text_plain Cases.config_text_plain Hfile Hdoc))
           eq_refl eq_refl eq_refl).
Defined.

Lemma load_data_accepts_iff_witness :
  let fs := Sample.disk Sample.config_text Sample.csv_text in
  load_data Sample.env fs "data.csv" = Ok Sample.csv_frame
  ∧ ∃ column, df_getitem Sample.csv_frame "close" = Ok column.
Proof.
  intros fs.
  assert (load_data Sample.env fs "data.csv" = Ok Sample.csv_frame) as Hload.
  { apply (proj1 (load_data_accepts_iff Sample.env fs "data.csv" Sample.csv_frame)).
    exists Sample.csv_text. repeat split; (reflexivity || discriminate). }
  split; [exact Hload|].
  exact (proj2 (load_data_accepts_iff Sample.env fs "data.csv" Sample.csv_frame) Hload).
Defined.

Lemma main_config_absent_witness :
  log_file Sample.args ≠ config Sample.args
  ∧ Cases.disk_without_config !! config Sample.args = None
  ∧ (main Sample.env Sample.args Cases.disk_without_config).2 = 1%Z
  ∧ files (main Sample.env Sample.args Cases.disk_without_config).1 !! output Sample.args
    = Some (json_dumps Sample.env
              (error_output (PStr "unknown") "Config file not found")).
Proof.
  assert (log_file Sample.args ≠ config Sample.args) as Hlc by discriminate.
  assert (Cases.disk_without_config !! config Sample.args = None) as Hfile
    by reflexivity.
  split; [exact Hlc|]. split; [exact Hfile|].
  exact (main_config_absent Sample.env Sample.args Cases.disk_without_config Hlc Hfile).
Defined.

Lemma main_config_unreadable_witness :
  let fs := Sample.disk "seed: [" Sample.csv_text in
  let e := LibraryError "YAMLError" "could not parse the document" in
  log_file Sample.args ≠ config Sample.args
  ∧ fs !! config Sample.args = Some "seed: ["
  ∧ safe_load Sample.env "seed: [" = Raise e
  ∧ (main Sample.env Sample.args fs).2 = 1%Z
  ∧ files (main Sample.env Sample.args fs).1 !! output Sample.args
    = Some (json_dumps Sample.env
              (error_output (PStr "unknown") (exception_str Sample.env e))).
Proof.
  intros fs e.
  assert (log_file Sample.args ≠ config Sample.args) as Hlc by discriminate.
  assert (fs !! config Sample.args = Some "seed: [") as Hfile by reflexivity.
  assert (safe_load Sample.env "seed: [" = Raise e) as Hdoc by reflexivity.
  split; [exact Hlc|]. split; [exact Hfile|]. split; [exact Hdoc|].
  exact (proj1 (main_config_unreadable Sample.env Sample.args fs "seed: [" Hlc Hfile)
           e Hdoc).
Defined.

Lemma main_config_rejected_witness :
  let fs := Sample.disk Cases.config_text_date_version Sample.csv_text in
  let items := [(PStr "seed", PInt 42); (PStr "window", PInt 3);
                (PStr "version", PDate "2024-01-15")] in
  let e := ValueError "Version must be string" in
  log_file Sample.args ≠ config Sample.args
  ∧ fs !! config Sample.args = Some Cases.config_text_date_version
  ∧ safe_load Cases.env Cases.config_text_date_version = Ok (PDict items)
  ∧ load_config Cases.env fs (config Sample.args) = Raise e
  ∧ (main Cases.env Sample.args fs).2 = 1%Z
  ∧ files (main Cases.env Sample.args fs).1 !! output Sample.args
    = Some (json_fragment Cases.env
              (error_output (PDate "2024-01-15") "Version must be string")).
Proof.
  intros fs items e.
  assert (log_file Sample.args ≠ config Sample.args) as Hlc by discriminate.
  assert (fs !! config Sample.args = Some Cases.config_text_date_version) as Hfile
    by reflexivity.
  assert (safe_load Cases.env Cases.config_text_date_version = Ok (PDict items)) as Hdoc
    by reflexivity.
  assert (load_config Cases.env fs (config Sample.args) = Raise e) as Hload
    by reflexivity.
  split; [exact Hlc|]. split; [exact Hfile|]. split; [exact Hdoc|].
  split; [exact Hload|].
  exact (main_config_rejected Cases.env Sample.args fs Cases.config_text_date_version
           items e Hlc Hfile Hdoc Hload).
Defined.

Lemma main_seed_out_of_range_witness :
  let fs := Sample.disk Cases.config_text_negative_seed Sample.csv_text in
  log_file Sample.args ≠ config Sample.args
  ∧ load_config Cases.env fs (config Sample.args) = Ok Cases.config_doc_negative_seed
  ∧ (-1 < 0 ∨ 2 ^ 32 - 1 < -1)%Z
  ∧ (main Cases.env Sample.args fs).2 = 1%Z
  ∧ files (main Cases.env Sample.args fs).1 !! output Sample.args
    = Some (json_dumps Cases.env
              (error_output (PStr "v1") "Seed must be between 0 and 2**32 - 1")).
Proof.
  intros fs.
  assert (log_file Sample.args ≠ config Sample.args) as Hlc by discriminate.
  assert (load_config Cases.env fs (config Sample.args)
          = Ok Cases.config_doc_negative_seed) as Hcfg by reflexivity.
  assert (-1 < 0 ∨ 2 ^ 32 - 1 < -1)%Z as Hrange by (left; lia).
  repeat (split; [assumption|]).
  exact (main_seed_out_of_range Cases.env Sample.args fs Cases.config_doc_negative_seed
           (-1) (PStr "v1") Hlc Hcfg eq_refl eq_refl Hrange).
Defined.

Lemma main_data_rejected_witness :
  let fs := Sample.disk Sample.config_text Sample.csv_text_open in
  let e := ValueError "Missing required column: close" in
  config_loads Sample.env Sample.args fs (PInt 42) 3 (PStr "v1")
  ∧ log_file Sample.args ≠ input Sample.args
  ∧ load_data Sample.env fs (input Sample.args) = Raise e
  ∧ (main Sample.env Sample.args fs).2 = 1%Z
  ∧ files (main Sample.env Sample.args fs).1 !! output Sample.args
    = Some (json_dumps Sample.env
              (error_output (PStr "v1") (exception_str Sample.env e))).
Proof.
  intros fs e.
  assert (config_loads Sample.env Sample.args fs (PInt 42) 3 (PStr "v1")) as Hconfig.
  { split; [discriminate|]. split; [|reflexivity].
    exists Sample.config_doc. repeat split; reflexivity. }
  assert (log_file Sample.args ≠ input Sample.args) as Hli by discriminate.
  assert (load_data Sample.env fs (input Sample.args) = Raise e) as Hdata by reflexivity.
  repeat (split; [assumption|]).
  exact (main_data_rejected Sample.env Sample.args fs (PInt 42) 3 (PStr "v1") e
           Hconfig Hli Hdata).
Defined.

Lemma main_boolean_window_witness :
  let fs := Sample.disk Cases.config_text_true_window Sample.csv_text in
  let items := [(PStr "seed", PInt 42); (PStr "window", PBool true);
                (PStr "version", PStr "v1")] in
  log_file Sample.args ≠ config Sample.args
  ∧ log_file Sample.args ≠ input Sample.args
  ∧ fs !! config Sample.args = Some Cases.config_text_true_window
  ∧ safe_load Cases.env Cases.config_text_true_window = Ok (PDict items)
  ∧ load_data Cases.env fs (input Sample.args) = Ok Sample.csv_frame
  ∧ load_config Cases.env fs (config Sample.args) = Ok (PDict items)
  ∧ (main Cases.env Sample.args fs).2 = 1%Z
  ∧ files (main Cases.env Sample.args fs).1 !! output Sample.args
    = Some (json_dumps Cases.env
              (error_output (PStr "v1") "window must be an integer 0 or greater")).
Proof.
  intros fs items.
  assert (log_file Sample.args ≠ config Sample.args) as Hlc by discriminate.
  assert (log_file Sample.args ≠ input Sample.args) as Hli by discriminate.
  assert (fs !! config Sample.args = Some Cases.config_text_true_window) as Hfile
    by reflexivity.
  assert (safe_load Cases.env Cases.config_text_true_window = Ok (PDict items)) as Hdoc
    by reflexivity.
  assert (load_data Cases.env fs (input Sample.args) = Ok Sample.csv_frame) as Hdata
    by reflexivity.
  split; [exact Hlc|]. split; [exact Hli|]. split; [exact Hfile|].
  split; [exact Hdoc|]. split; [exact Hdata|].
  exact (main_boolean_window Cases.env Sample.args fs Cases.config_text_true_window
           items (PInt 42) (PStr "v1") Sample.csv_frame Hlc Hli Hfile Hdoc
           eq_refl eq_refl eq_refl eq_refl eq_refl eq_refl Hdata).
Defined.

Lemma main_last_log_record_witness :
  let fs := Sample.disk Sample.config_text Sample.csv_text_open in
  let r := main Sample.env Sample.args fs in
  log_file Sample.args ≠ output Sample.args
  ∧ ((r.2 = 0%Z
      ∧ ∃ before,
          files r.1 !! log_file Sample.args
          = Some (before
                  +:+ format_record Sample.env (JobCompleted (elapsed_ms Sample.env))))
     ∨ (r.2 = 1%Z
        ∧ ∃ before version message,
            files r.1 !! log_file Sample.args
            = Some (before +:+ format_record Sample.env (ErrorLogged message))
            ∧ files r.1 !! output Sample.args
              = Some (if json_encodable version
                      then json_dumps Sample.env (error_output version message)
                      else json_fragment Sample.env (error_output version message)))).
Proof.
  intros fs r.
  assert (log_file Sample.args ≠ output Sample.args) as Hne by discriminate.
  split; [exact Hne|].
  exact (main_last_log_record Sample.env Sample.args fs Hne).
Defined.

Lemma main_log_of_success_witness :
  let fs := Sample.disk Sample.config_text Sample.csv_text in
  loads Sample.env Sample.args fs (PInt 42) 3 (PStr "v1") Sample.csv_frame
    (float_of_Z <$> [10; 20; 30; 40; 20]%Z)
  ∧ (3 < 2 ^ 63)%Z
  ∧ log_file Sample.args ≠ output Sample.args
  ∧ ∃ locals,
      main_locals Sample.env Sample.args fs = Ok locals
      ∧ files (main Sample.env Sample.args fs).1 !! log_file Sample.args
        = Some (default "" (fs !! log_file Sample.args)
                +:+ format_record Sample.env JobStarted
                +:+ format_record Sample.env (ConfigLoaded (PInt 42) (PInt 3) (PStr "v1"))
                +:+ format_record Sample.env (DataLoaded (df_rows Sample.csv_frame))
                +:+ format_record Sample.env (RollingMeanCalculated (PInt 3))
                +:+ format_record Sample.env SignalsGenerated
                +:+ format_record Sample.env
                      (Metrics (l_signal_rate locals) (df_rows Sample.csv_frame))
                +:+ format_record Sample.env (JobCompleted (elapsed_ms Sample.env))).
Proof.
  intros fs.
  assert (loads Sample.env Sample.args fs (PInt 42) 3 (PStr "v1") Sample.csv_frame
            (float_of_Z <$> [10; 20; 30; 40; 20]%Z)) as Hloads.
  { split; [|split; [|split; [|split]]].
    - split; [discriminate|]. split; [|reflexivity].
      exists Sample.config_doc. repeat split; reflexivity.
    - discriminate.
    - reflexivity.
    - exists (SInt [10; 20; 30; 40; 20]%Z). split; reflexivity.
    - reflexivity. }
  assert (3 < 2 ^ 63)%Z as Hbound by reflexivity.
  assert (log_file Sample.args ≠ output Sample.args) as Hne by discriminate.
  split; [exact Hloads|]. split; [exact Hbound|]. split; [exact Hne|].
  exact (main_log_of_success Sample.env Sample.args fs (PInt 42) 3 (PStr "v1")
           Sample.csv_frame _ Hloads Hbound Hne).
Defined.
